(** * uvk5-remote: the serial protocol engine of [comm.py]

    A shallow embedding of [QuanshengComm] (src/comm.py): the XOR keystream
    [crypt], the bit-serial [crc16], the frame builder [send_command], the
    byte-wise frame parser [process_byte] with its dispatcher [parse_packet],
    and the screen decoder [parse_screen].

    Python integers are unbounded, so they are [Z]; a [bytearray] is a
    [list Z] whose writes are range-checked the way Python checks them
    ([ValueError] outside [0, 256)); the numpy array [screen_data] is a
    list of rows.  Exceptions are explicit results. *)

From Stdlib Require Import ZArith Lia Bool.
From Stdlib Require Strings.Byte.
From stdpp Require Import base list.

Local Open Scope Z_scope.

(** ** Python-level vocabulary *)

(** The exceptions the modelled methods can raise. *)
Inductive PyError : Type :=
| ValueError
| IndexError.

(** The result of a call that either returns or raises. *)
Inductive result (A : Type) : Type :=
| Ok (a : A)
| Raise (e : PyError).
Arguments Ok {A} a.
Arguments Raise {A} e.

#[global] Instance result_ret : MRet result := fun A a => Ok a.

#[global] Instance result_bind : MBind result := fun A B k r =>
  match r with
  | Ok a => k a
  | Raise e => Raise e
  end.

(** An element of a [bytes] or [bytearray] object. *)
Definition is_byte (b : Z) : Prop := 0 <= b < 256.

Definition is_byteb (b : Z) : bool := (0 <=? b) && (b <? 256).

(** [seq[i]] on a Python sequence of length [n]: a negative index counts
    from the end, anything outside [-n, n) raises [IndexError]. *)
Definition py_index (n : nat) (i : Z) : result nat :=
  if (0 <=? i) && (i <? Z.of_nat n) then Ok (Z.to_nat i)
  else if (- Z.of_nat n <=? i) && (i <? 0) then Ok (Z.to_nat (i + Z.of_nat n))
  else Raise IndexError.

Definition getitem (l : list Z) (i : Z) : result Z :=
  k ← py_index (length l) i;
  match l !! k with
  | Some x => Ok x
  | None => Raise IndexError
  end.

(** [l[i:]] for [0 <= i]: a fresh copy of the tail. *)
Definition slice_from (i : nat) (l : list Z) : list Z := drop i l.
Arguments slice_from : simpl never.

(** ** Constants of the module *)

Module Packet.
Definition Hello : Z := 0x514.
Definition GetRssi : Z := 0x527.
Definition KeyPress : Z := 0x801.
Definition GetScreen : Z := 0x803.
Definition Scan : Z := 0x808.
Definition ScanAdjust : Z := 0x809.
Definition ScanReply : Z := 0x908.
Definition WriteRegisters : Z := 0x850.
Definition ReadRegisters : Z := 0x851.
Definition RegisterInfo : Z := 0x951.
Definition WriteEeprom : Z := 0x51D.
Definition ReadEeprom : Z := 0x51B.
End Packet.

Inductive Stage : Type :=
| Idle | CD | LenLSB | LenMSB | Data | CrcLSB | CrcMSB | DC | BA | UiType.

Definition xor_array : list Z :=
  [0x16; 0x6c; 0x14; 0xe6; 0x2e; 0x91; 0x0d; 0x40;
   0x21; 0x35; 0xd5; 0x40; 0x13; 0x03; 0xe9; 0x80].

(** ** [crypt] and [crc16] *)

(** [byte ^ self.xor_array[xor_index & 15]]; the masked index is always
    inside the 16-entry table. *)
Definition crypt (byte xor_index : Z) : Z :=
  Z.lxor byte (nth (Z.to_nat (Z.land xor_index 15)) xor_array 0).
Arguments crypt : simpl never.

(** One pass of the body of [for _ in range(8)]. *)
Definition crc16_round (crc : Z) : Z :=
  let crc := Z.shiftl crc 1 in
  if 0xffff <? crc then Z.land (Z.lxor crc 0x1021) 0xffff else crc.

Definition crc16 (byte crc : Z) : Z :=
  let crc := Z.lxor crc (Z.shiftl byte 8) in
  Nat.iter 8 crc16_round crc.
Arguments crc16 : simpl never.

(** The textbook bit-serial CCITT step, MSB first, written from the
    description of the algorithm and not from the code: the top bit of the
    16-bit register decides whether the polynomial is folded in, and the
    register is kept at 16 bits after every shift. *)
Definition crc16_ref_round (crc : Z) : Z :=
  let shifted := Z.land (Z.shiftl crc 1) 0xffff in
  if Z.testbit crc 15 then Z.lxor shifted 0x1021 else shifted.

Definition crc16_ref (byte crc : Z) : Z :=
  Nat.iter 8 crc16_ref_round (Z.lxor crc (Z.shiftl byte 8)).

(** ** The object state *)

(** The numpy array [screen_data]: a list of rows, each a list of pixel
    values; [screen[r, c]] is column [c] of row [r]. *)
Abbreviation Screen := (list (list Z)).

(** The calls the parser makes that are visible from outside: every entry
    into [parse_packet], with the buffer it was given, and every call of the
    [on_screen_update] callback. *)
Inductive Call : Type :=
| CallParsePacket (data : list Z)
| CallOnScreenUpdate.

(** The fields of a [QuanshengComm] object that the protocol code reads or
    writes.  [transport] and [on_screen_update] record whether the attribute
    is set; [calls] is the history of outside-visible calls, oldest first
    (it is not a field of the Python object). *)
Record QuanshengComm : Type := mkComm {
  transport : bool;
  stage : Stage;
  data : list Z;
  p_len : Z;
  p_cnt : Z;
  screen_data : Screen;
  on_screen_update : bool;
  calls : list Call
}.

Definition set_stage (v : Stage) (self : QuanshengComm) : QuanshengComm :=
  mkComm (transport self) v (data self) (p_len self) (p_cnt self)
         (screen_data self) (on_screen_update self) (calls self).

Definition set_data (v : list Z) (self : QuanshengComm) : QuanshengComm :=
  mkComm (transport self) (stage self) v (p_len self) (p_cnt self)
         (screen_data self) (on_screen_update self) (calls self).

Definition set_p_len (v : Z) (self : QuanshengComm) : QuanshengComm :=
  mkComm (transport self) (stage self) (data self) v (p_cnt self)
         (screen_data self) (on_screen_update self) (calls self).

Definition set_p_cnt (v : Z) (self : QuanshengComm) : QuanshengComm :=
  mkComm (transport self) (stage self) (data self) (p_len self) v
         (screen_data self) (on_screen_update self) (calls self).

Definition set_screen_data (v : Screen) (self : QuanshengComm) : QuanshengComm :=
  mkComm (transport self) (stage self) (data self) (p_len self) (p_cnt self)
         v (on_screen_update self) (calls self).

Definition record_call (c : Call) (self : QuanshengComm) : QuanshengComm :=
  mkComm (transport self) (stage self) (data self) (p_len self) (p_cnt self)
         (screen_data self) (on_screen_update self) (calls self ++ [c]).

(** [np.zeros((64, 128), dtype=np.uint8)] *)
Definition zeros : Screen := replicate 64 (replicate 128 0).

(** The object as [__init__] leaves it. *)
Definition init : QuanshengComm :=
  mkComm false Idle [] 0 0 zeros false [].

(** ** [parse_screen] *)

(** [screen[r, c] = v] on a two-dimensional array: both indices are
    checked (and wrap when negative) before anything is written. *)
Definition setitem2 (screen : Screen) (r c v : Z) : result Screen :=
  i ← py_index (length screen) r;
  match screen !! i with
  | None => Raise IndexError
  | Some line =>
      j ← py_index (length line) c;
      Ok (<[i := <[j := v]> line]> screen)
  end.

(** The inner loop [for bit in range(8)], run on the array [screen]; the
    array comes back as the loop left it, also when a step raised. *)
Fixpoint plot_bits (bits : list Z) (pixels col row : Z) (screen : Screen)
  : Screen * option PyError :=
  match bits with
  | [] => (screen, None)
  | bit :: rest =>
      let pixel_row := row + bit in
      if 64 <=? pixel_row then (screen, None)
      else
        let is_lit := Z.land (Z.shiftr pixels bit) 1 in
        match setitem2 screen pixel_row col is_lit with
        | Raise e => (screen, Some e)
        | Ok screen' => plot_bits rest pixels col row screen'
        end
  end.

Definition range8 : list Z := [0; 1; 2; 3; 4; 5; 6; 7].

(** The body of the outer loop for one start index [i]. *)
Definition plot_triplet (data : list Z) (i : Z) (screen : Screen)
  : Screen * option PyError :=
  match (pixels ← getitem data i;
         col ← getitem data (i + 1);
         r ← getitem data (i + 2);
         Ok (pixels, col, r * 8)) with
  | Raise e => (screen, Some e)
  | Ok (pixels, col, row) =>
      if (128 <=? col) || (64 <=? row) then (screen, None)
      else plot_bits range8 pixels col row screen
  end.

(** [range(0, n, 3)] *)
Definition range_step3 (n : nat) : list Z :=
  (fun k => 3 * Z.of_nat k) <$> seq 0 (Nat.div (n + 2) 3).

Fixpoint plot_triplets (data : list Z) (idx : list Z) (screen : Screen)
  : Screen * option PyError :=
  match idx with
  | [] => (screen, None)
  | i :: rest =>
      match plot_triplet data i screen with
      | (screen', None) => plot_triplets data rest screen'
      | (screen', Some e) => (screen', Some e)
      end
  end.

(** [parse_screen(self, data, diff)].  With [diff == 0] the loop works on a
    fresh array, otherwise on the very array [self.screen_data] holds, so
    what the loop wrote is in the object even if it did not finish. *)
Definition parse_screen (self : QuanshengComm) (data : list Z) (diff : Z)
  : QuanshengComm * result Screen :=
  if negb (Z.of_nat (length data) mod 3 =? 0) then (self, Raise ValueError)
  else
    let screen := if diff =? 0 then zeros else screen_data self in
    match plot_triplets data (range_step3 (length data)) screen with
    | (screen', Some e) =>
        (if diff =? 0 then self else set_screen_data screen' self, Raise e)
    | (screen', None) => (set_screen_data screen' self, Ok screen')
    end.

(** ** [parse_packet] and [process_byte] *)

Definition parse_packet (self : QuanshengComm) (data : list Z)
  : QuanshengComm * option PyError :=
  let self := record_call (CallParsePacket data) self in
  if Z.of_nat (length data) <? 2 then (self, None)
  else
    match (d0 ← getitem data 0;
           d1 ← getitem data 1;
           Ok (Z.lor d0 (Z.shiftl d1 8))) with
    | Raise e => (self, Some e)
    | Ok cmd =>
        if cmd =? Packet.GetScreen then
          match (d2 ← getitem data 2;
                 d3 ← getitem data 3;
                 d4 ← getitem data 4;
                 Ok (Z.lor d2 (Z.shiftl d3 8), d4)) with
          | Raise e => (self, Some e)
          | Ok (offset, diff) =>
              match parse_screen self (slice_from 5 data) diff with
              | (self', Raise e) => (self', Some e)
              | (self', Ok _) =>
                  if on_screen_update self'
                  then (record_call CallOnScreenUpdate self', None)
                  else (self', None)
              end
          end
        else (self, None)
    end.

(** [process_byte(self, byte)]: the new object state, and the exception if
    the call raised.  [bytearray.append] refuses a value outside
    [0, 256) before anything is changed. *)
Definition process_byte (self : QuanshengComm) (byte : Z)
  : QuanshengComm * option PyError :=
  match stage self with
  | Idle =>
      if byte =? 0xAB then (set_stage CD self, None)
      else if byte =? 0xB5 then (set_stage UiType self, None)
      else (self, None)
  | CD => (set_stage (if byte =? 0xCD then LenLSB else Idle) self, None)
  | LenLSB => (set_stage LenMSB (set_p_len byte self), None)
  | LenMSB =>
      let self := set_p_len (Z.lor (p_len self) (Z.shiftl byte 8)) self in
      let self := set_data [] self in
      let self := set_p_cnt 0 self in
      (set_stage Data self, None)
  | Data =>
      let v := crypt byte (p_cnt self) in
      if is_byteb v then
        let self := set_data (data self ++ [v]) self in
        let self := set_p_cnt (p_cnt self + 1) self in
        if p_len self <=? p_cnt self then (set_stage CrcLSB self, None)
        else (self, None)
      else (self, Some ValueError)
  | CrcLSB => (set_stage CrcMSB self, None)
  | CrcMSB => (set_stage DC self, None)
  | DC => (set_stage (if byte =? 0xDC then BA else Idle) self, None)
  | BA =>
      let self := set_stage Idle self in
      if byte =? 0xBA then parse_packet self (data self) else (self, None)
  | UiType => (self, None)
  end.

(** [QuanshengProtocol.data_received]: [process_byte] on each byte in
    turn; an exception ends the loop. *)
Fixpoint data_received (self : QuanshengComm) (bytes : list Z)
  : QuanshengComm * option PyError :=
  match bytes with
  | [] => (self, None)
  | byte :: rest =>
      match process_byte self byte with
      | (self', None) => data_received self' rest
      | (self', Some e) => (self', Some e)
      end
  end.

(** The buffers handed to [parse_packet], in call order. *)
Definition packets (cs : list Call) : list (list Z) :=
  omap (fun c => match c with
                 | CallParsePacket d => Some d
                 | CallOnScreenUpdate => None
                 end) cs.

(** ** [send_command] *)

(** One element of [*args]: an [int], a [bytes]/[bytearray] object, or a
    list of integers. *)
Inductive Arg : Type :=
| ArgInt (n : Z)
| ArgBytes (b : list Byte.byte)
| ArgList (l : list Z).

Definition byte_val (b : Byte.byte) : Z := Z.of_N (Byte.to_N b).

(** What one pass of [for arg in args] adds to [params].  [params.append]
    refuses a negative integer. *)
Definition serialize_arg (arg : Arg) : result (list Z) :=
  match arg with
  | ArgInt n =>
      if n <=? 0xFF then
        if is_byteb n then Ok [n] else Raise ValueError
      else if n <=? 0xFFFF then
        Ok [Z.land n 0xFF; Z.land (Z.shiftr n 8) 0xFF]
      else
        Ok [Z.land n 0xFF; Z.land (Z.shiftr n 8) 0xFF;
            Z.land (Z.shiftr n 16) 0xFF; Z.land (Z.shiftr n 24) 0xFF]
  | ArgBytes b => Ok (byte_val <$> b)
  | ArgList l => Ok ((fun val => Z.land val 0xFF) <$> l)
  end.

Fixpoint serialize_args (params : list Z) (args : list Arg)
  : result (list Z) :=
  match args with
  | [] => Ok params
  | arg :: rest =>
      p ← serialize_arg arg;
      serialize_args (params ++ p) rest
  end.

(** [l[i:j] = v] for [0 <= i <= j]; both bounds are clipped to the length. *)
Definition setslice (i j : nat) (l v : list Z) : list Z :=
  take i l ++ v ++ drop j l.

(** [for i in range(4, len(data))]: fold the plain byte into the CRC, then
    overwrite it with its ciphered value. *)
Fixpoint crc_crypt_loop (idx : list nat) (crc : Z) (data : list Z)
  : Z * list Z :=
  match idx with
  | [] => (crc, data)
  | i :: rest =>
      let d := data !!! i in
      let crc := crc16 d crc in
      let data := <[i := crypt d (Z.of_nat i - 4)]> data in
      crc_crypt_loop rest crc data
  end.

(** [send_command(self, cmd, *args)]: [Ok None] when there is no transport
    (nothing is written), [Ok (Some data)] with the bytes given to
    [self.transport.write], or the exception raised while the parameters
    were collected. *)
Definition send_command (self : QuanshengComm) (cmd : Z) (args : list Arg)
  : result (option (list Z)) :=
  if negb (transport self) then Ok None
  else
    let data := [0xAB; 0xCD; 0x00; 0x00] in
    let data := data ++ [Z.land cmd 0xFF; Z.land (Z.shiftr cmd 8) 0xFF] in
    params ← serialize_args [] args;
    let param_len := Z.of_nat (length params) in
    let data :=
      setslice 6 8 data
               [Z.land param_len 0xFF; Z.land (Z.shiftr param_len 8) 0xFF] in
    let data := data ++ params in
    let '(crc, data) :=
      crc_crypt_loop (seq 4 (length data - 4)) 0 data in
    let crc_bytes := (Z.land crc 0xFF, Z.land (Z.shiftr crc 8) 0xFF) in
    let n := Z.of_nat (length data) in
    let data :=
      data ++ [crypt (fst crc_bytes) (n - 4); crypt (snd crc_bytes) (n - 3)] in
    let data := data ++ [0xDC; 0xBA] in
    let total_len := Z.of_nat (length data) - 8 in
    let data :=
      setslice 2 4 data
               [Z.land total_len 0xFF; Z.land (Z.shiftr total_len 8) 0xFF] in
    Ok (Some data).

(** ** Vocabulary of the statements *)

(** A 16-bit little-endian field. *)
Definition le16 (lo hi : Z) : Z := Z.lor lo (Z.shiftl hi 8).

(** The length field of a frame: bytes 2 and 3. *)
Definition frame_len_field (frame : list Z) : Z :=
  le16 (frame !!! 2%nat) (frame !!! 3%nat).

(** The ciphered region of a frame: what lies between the four bytes of
    sync and length and the two footer bytes. *)
Definition ciphered_region (frame : list Z) : list Z :=
  take (length frame - 6) (drop 4 frame).

(** The bytes of [l] ciphered at the key positions [k], [k + 1], ... *)
Fixpoint cipher_from (k : Z) (l : list Z) : list Z :=
  match l with
  | [] => []
  | b :: rest => crypt b k :: cipher_from (k + 1) rest
  end.

(** The running CRC over the bytes of [l], from the seed [crc]. *)
Definition crc_over (crc : Z) (l : list Z) : Z :=
  fold_left (fun c b => crc16 b c) l crc.

(** What [send_command] puts between the length field and the CRC, before
    ciphering: the command id, the parameter count and the parameters. *)
Definition plain_body (cmd : Z) (params : list Z) : list Z :=
  [Z.land cmd 0xFF; Z.land (Z.shiftr cmd 8) 0xFF;
   Z.land (Z.of_nat (length params)) 0xFF;
   Z.land (Z.shiftr (Z.of_nat (length params)) 8) 0xFF] ++ params.

(** The frame [send_command] writes, in closed form. *)
Definition frame_of (cmd : Z) (params : list Z) : list Z :=
  let body := plain_body cmd params in
  let n := Z.of_nat (length body) in
  let crc := crc_over 0 body in
  [0xAB; 0xCD; Z.land n 0xFF; Z.land (Z.shiftr n 8) 0xFF]
    ++ cipher_from 0 body
    ++ [crypt (Z.land crc 0xFF) n; crypt (Z.land (Z.shiftr crc 8) 0xFF) (n + 1)]
    ++ [0xDC; 0xBA].

(** The bitmap has its 64 rows of 128 pixels, each 0 or 1. *)
Definition screen_ok (screen : Screen) : Prop :=
  length screen = 64%nat /\
  Forall (fun line => length line = 128%nat /\
                      Forall (fun v => v = 0 \/ v = 1) line) screen.

(** The pixel at row [r], column [c], if there is one. *)
Definition pixel (screen : Screen) (r c : nat) : option Z :=
  line ← screen !! r; line !! c.

(** Two bitmaps agree on every pixel outside column [c]. *)
Definition same_outside (c : nat) (s s' : Screen) : Prop :=
  forall r c', c' <> c -> pixel s' r c' = pixel s r c'.

(** The start index [i] of a whole triplet of [data]. *)
Definition triplet_at (data : list Z) (i : Z) : Prop :=
  0 <= i /\ i + 2 < Z.of_nat (length data).

(** [data] is a sequence of triplets that all name column [c]. *)
Fixpoint triplets_in_column (c : Z) (data : list Z) : Prop :=
  match data with
  | [] => True
  | _ :: col :: _ :: rest => col = c /\ triplets_in_column c rest
  | _ => False
  end.

Definition arg_in_range (arg : Arg) : Prop :=
  match arg with
  | ArgInt n => 0 <= n < 2 ^ 32
  | _ => True
  end.

(** A connected object, otherwise as [__init__] leaves it. *)
Definition connected : QuanshengComm :=
  mkComm true Idle [] 0 0 zeros false [].

(** ** Vocabulary of the further properties *)

(** A byte that does not start anything in the Idle stage. *)
Definition not_sync (b : Z) : Prop := b <> 0xAB /\ b <> 0xB5.

(** What holds of the receive buffer and the bitmap at all times. *)
Definition state_ok (s : QuanshengComm) : Prop :=
  Forall is_byte (data s) /\ screen_ok (screen_data s).

(** A buffer of at least one and at most 65535 bytes. *)
Definition buffer_sized (buf : list Z) : Prop :=
  1 <= Z.of_nat (length buf) <= 65535.

(** How the length counters and the buffer stand in each stage, while the
    bytes fed are bytes. *)
Definition framing_ok (s : QuanshengComm) : Prop :=
  Forall buffer_sized (packets (calls s)) /\
  match stage s with
  | LenMSB => 0 <= p_len s < 256
  | Data =>
      0 <= p_len s < 65536 /\
      Z.of_nat (length (data s)) = p_cnt s /\
      (p_cnt s = 0 \/ p_cnt s < p_len s)
  | CrcLSB | CrcMSB | DC | BA =>
      0 <= p_len s < 65536 /\
      Z.of_nat (length (data s)) = Z.max 1 (p_len s)
  | Idle | CD | LenLSB | UiType => True
  end.

(** The command id at the head of a buffer, if it has two bytes. *)
Definition packet_cmd (buf : list Z) : option Z :=
  d0 ← buf !! 0%nat; d1 ← buf !! 1%nat; Some (le16 d0 d1).

(** An integer argument below zero. *)
Definition arg_negative (arg : Arg) : Prop :=
  match arg with
  | ArgInt n => n < 0
  | _ => False
  end.

(** The value of a byte sequence read little-endian. *)
Definition le_value (p : list Z) : Z :=
  foldr (fun b acc => b + 256 * acc) 0 p.

(** Two objects that the parser cannot tell apart: same stage, bitmap and
    callback, and the same counters and buffer as far as the stage still
    reads them. *)
Definition same_view (a b : QuanshengComm) : Prop :=
  stage a = stage b /\
  screen_data a = screen_data b /\
  on_screen_update a = on_screen_update b /\
  match stage a with
  | Idle | CD | LenLSB | UiType => True
  | LenMSB => p_len a = p_len b
  | Data | CrcLSB | CrcMSB | DC | BA =>
      data a = data b /\ p_len a = p_len b /\ p_cnt a = p_cnt b
  end.

(** ** [export_screen] and [RadioWindow.refresh_screen]

    Both walk the bitmap row by row and hand every lit pixel, scaled by
    [PIXEL_WIDTH] x [PIXEL_HEIGHT], to a drawing library.  What is modelled
    is the sequence of drawing calls; the libraries themselves are not. *)

Definition PIXEL_WIDTH : Z := 5.
Definition PIXEL_HEIGHT : Z := 7.

(** [range(n)] *)
Definition py_range (n : nat) : list Z := Z.of_nat <$> seq 0 n.

(** [screen[r, c]] read from the two-dimensional array. *)
Definition getitem2 (screen : Screen) (r c : Z) : result Z :=
  i ← py_index (length screen) r;
  match screen !! i with
  | None => Raise IndexError
  | Some line =>
      j ← py_index (length line) c;
      match line !! j with
      | Some v => Ok v
      | None => Raise IndexError
      end
  end.

(** The shared double loop
    [for y in range(64): for x in range(128): if screen[y, x]: body(x, y)],
    with [body x y] the calls the body makes; [made] are the calls made so
    far. *)
Fixpoint scan_row {A : Type} (body : Z -> Z -> list A) (screen : Screen)
         (y : Z) (xs : list Z) (made : list A) : result (list A) :=
  match xs with
  | [] => Ok made
  | x :: rest =>
      v ← getitem2 screen y x;
      scan_row body screen y rest
               (if negb (v =? 0) then made ++ body x y else made)
  end.

Fixpoint scan_rows {A : Type} (body : Z -> Z -> list A) (screen : Screen)
         (ys : list Z) (made : list A) : result (list A) :=
  match ys with
  | [] => Ok made
  | y :: rest =>
      made' ← scan_row body screen y (py_range 128) made;
      scan_rows body screen rest made'
  end.

(** A call [draw.rectangle([x1, y1, x2, y2], fill="black")]. *)
Record Rect : Type := mkRect { rx1 : Z; ry1 : Z; rx2 : Z; ry2 : Z }.

Definition export_rect (x y : Z) : list Rect :=
  let x1 := x * PIXEL_WIDTH in
  let y1 := y * PIXEL_HEIGHT in
  let x2 := x1 + PIXEL_WIDTH - 1 in
  let y2 := y1 + PIXEL_HEIGHT - 1 in
  [mkRect x1 y1 x2 y2].

(** [export_screen(self, filename)]: the value returned, and the
    rectangles drawn on the image that was saved, if one was.  [save_ok]
    says whether [image.save] succeeds; any exception is caught and turns
    into [False]. *)
Definition export_screen (self : QuanshengComm) (save_ok : bool)
  : bool * option (list Rect) :=
  match scan_rows export_rect (screen_data self) (py_range 64) [] with
  | Ok drawn => if save_ok then (true, Some drawn) else (false, None)
  | Raise _ => (false, None)
  end.

Module RadioWindow.

(** The inner loops
    [for py in range(PIXEL_HEIGHT): for px in range(PIXEL_WIDTH)]: the
    points given to [image.setPixelColor(..., black)]. *)
Definition fill_pixel (x y : Z) : list (Z * Z) :=
  py ← py_range 7; px ← py_range 5;
  [(x * PIXEL_WIDTH + px, y * PIXEL_HEIGHT + py)].

(** [refresh_screen(self)] on the bitmap of [self.comm]: the points painted
    black on the image handed to [update_ui], or [None] when an exception
    was caught and nothing is shown. *)
Definition refresh_screen (comm : QuanshengComm) : option (list (Z * Z)) :=
  match scan_rows fill_pixel (screen_data comm) (py_range 64) [] with
  | Ok painted => Some painted
  | Raise _ => None
  end.

End RadioWindow.

(** The pixel at column [x], row [y] is lit. *)
Definition lit (screen : Screen) (x y : Z) : Prop :=
  exists v, pixel screen (Z.to_nat y) (Z.to_nat x) = Some v /\ v <> 0.

(** The point [(X, Y)] lies in a rectangle, corners included. *)
Definition inside (X Y : Z) (r : Rect) : Prop :=
  rx1 r <= X <= rx2 r /\ ry1 r <= Y <= ry2 r.

(** ** A stream fed byte by byte, and a bitmap with something on it *)

(** [process_byte] called on each byte of a stream in turn, by a caller
    that goes on after an exception: the final object, and what each call
    raised.  [data_received] is this loop, left at the first exception. *)
Fixpoint process_bytes (self : QuanshengComm) (bytes : list Z)
  : QuanshengComm * list (option PyError) :=
  match bytes with
  | [] => (self, [])
  | byte :: rest =>
      let (self', e) := process_byte self byte in
      let (self'', es) := process_bytes self' rest in
      (self'', e :: es)
  end.

(** The blank bitmap with the pixel of row 2, column 3 lit. *)
Definition one_pixel : Screen :=
  <[2%nat := <[3%nat := 1]> (replicate 128 0)]> zeros.

(** * Properties *)

(** ** Bit-level facts about bytes and 16-bit words *)

Lemma lxor_below (n a b : Z) :
  0 <= n -> 0 <= a < 2 ^ n -> 0 <= b < 2 ^ n -> 0 <= Z.lxor a b < 2 ^ n.
Proof.
  intros Hn Ha Hb.
  assert (Hnn : 0 <= Z.lxor a b) by (apply Z.lxor_nonneg; lia).
  split; [exact Hnn|].
  destruct (Z.eq_dec (Z.lxor a b) 0) as [->|Hx]; [apply Z.pow_pos_nonneg; lia|].
  assert (Hpos : 0 < n).
  { destruct (Z.eq_dec n 0) as [->|]; [|lia].
    change (2 ^ 0) with 1 in *.
    assert (a = 0) as -> by lia. assert (b = 0) as -> by lia.
    contradiction. }
  apply Z.log2_lt_pow2; [lia|].
  eapply Z.le_lt_trans; [apply Z.log2_lxor; lia|].
  apply Z.max_lub_lt.
  - destruct (Z.eq_dec a 0) as [->|]; [simpl|apply Z.log2_lt_pow2]; lia.
  - destruct (Z.eq_dec b 0) as [->|]; [simpl|apply Z.log2_lt_pow2]; lia.
Qed.

Lemma land_lxor_distr (a b m : Z) :
  Z.land (Z.lxor a b) m = Z.lxor (Z.land a m) (Z.land b m).
Proof.
  apply Z.bits_inj'. intros k _.
  rewrite Z.land_spec, !Z.lxor_spec, !Z.land_spec.
  destruct (Z.testbit a k), (Z.testbit b k), (Z.testbit m k); reflexivity.
Qed.

Lemma land_ff_byte (x : Z) : is_byte (Z.land x 0xFF).
Proof.
  unfold is_byte. change 0xFF with (Z.ones 8).
  rewrite Z.land_ones by lia. apply Z.mod_pos_bound. lia.
Qed.

Lemma is_byteb_true (b : Z) : is_byteb b = true <-> is_byte b.
Proof. unfold is_byteb, is_byte. lia. Qed.

Lemma xor_array_byte (i : Z) :
  is_byte (nth (Z.to_nat (Z.land i 15)) xor_array 0).
Proof.
  assert (H : 0 <= Z.land i 15 < 16).
  { change 15 with (Z.ones 4). rewrite Z.land_ones by lia.
    apply Z.mod_pos_bound. lia. }
  assert (Hn : (Z.to_nat (Z.land i 15) < 16)%nat) by lia.
  revert Hn. generalize (Z.to_nat (Z.land i 15)). intros n Hn.
  do 16 (destruct n as [|n]; [unfold is_byte; simpl; lia|]). lia.
Qed.

Lemma crypt_byte (b i : Z) : is_byte b -> is_byte (crypt b i).
Proof.
  intros Hb. unfold crypt, is_byte.
  apply (lxor_below 8); [lia|exact Hb|apply xor_array_byte].
Qed.

(** The cipher is its own inverse at any position. *)
Lemma crypt_involutive (b i : Z) : crypt (crypt b i) i = b.
Proof.
  unfold crypt. rewrite Z.lxor_assoc, Z.lxor_nilpotent. apply Z.lxor_0_r.
Qed.

(** The key only depends on the position modulo 16. *)
Lemma crypt_period (b i : Z) : crypt b (i + 16) = crypt b i.
Proof.
  unfold crypt. do 2 f_equal. f_equal.
  change 15 with (Z.ones 4). rewrite !Z.land_ones by lia.
  change (2 ^ 4) with 16. rewrite <- (Z.mul_1_l 16) at 1.
  apply Z.mod_add. lia.
Qed.

Lemma testbit15 (c : Z) :
  0 <= c < 2 ^ 16 -> Z.testbit c 15 = (2 ^ 15 <=? c).
Proof.
  intros Hc. rewrite Z.testbit_odd, Z.shiftr_div_pow2 by lia.
  destruct (Z.leb_spec (2 ^ 15) c) as [H|H].
  - replace (c / 2 ^ 15) with 1; [reflexivity|].
    apply Z.div_unique with (r := c - 2 ^ 15); lia.
  - rewrite Z.div_small by lia. reflexivity.
Qed.

Lemma crc16_round_ref (c : Z) :
  0 <= c < 2 ^ 16 ->
  crc16_round c = crc16_ref_round c /\ 0 <= crc16_round c < 2 ^ 16.
Proof.
  intros Hc. unfold crc16_round, crc16_ref_round.
  rewrite (testbit15 c Hc), Z.shiftl_mul_pow2 by lia.
  change (2 ^ 1) with 2.
  destruct (Z.leb_spec (2 ^ 15) c) as [H|H];
    destruct (Z.ltb_spec 0xffff (c * 2)) as [H'|H']; try lia;
    change 0xffff with (Z.ones 16).
  - split; [apply land_lxor_distr|].
    rewrite Z.land_ones by lia. apply Z.mod_pos_bound. lia.
  - rewrite Z.land_ones, Z.mod_small by lia. lia.
Qed.

Lemma crc16_iter_ref (n : nat) (c : Z) :
  0 <= c < 2 ^ 16 ->
  Nat.iter n crc16_round c = Nat.iter n crc16_ref_round c /\
  0 <= Nat.iter n crc16_round c < 2 ^ 16.
Proof.
  intros Hc. induction n as [|n [IHe IHb]]; [simpl; auto|].
  simpl. rewrite <- IHe. apply crc16_round_ref, IHb.
Qed.

Lemma crc16_seed_below (byte crc : Z) :
  0 <= crc < 2 ^ 16 -> 0 <= byte < 2 ^ 8 ->
  0 <= Z.lxor crc (Z.shiftl byte 8) < 2 ^ 16.
Proof.
  intros Hc Hb. apply lxor_below; [lia|exact Hc|].
  rewrite Z.shiftl_mul_pow2 by lia. lia.
Qed.

(** ** The checksum step *)

(** C8: on a 16-bit register and an 8-bit input, [crc16] computes the
    bit-serial, MSB-first CRC step with polynomial 0x1021 (the byte is XORed
    into the high half, then eight shift-and-conditionally-fold rounds), and
    its result is again below 2^16.  The model is a function of its two
    arguments only, as the method reads and writes nothing else. *)
Theorem crc16_is_ccitt_step (byte crc : Z) :
  0 <= crc < 2 ^ 16 -> 0 <= byte < 2 ^ 8 ->
  crc16 byte crc = crc16_ref byte crc /\ 0 <= crc16 byte crc < 2 ^ 16.
Proof.
  intros Hc Hb. unfold crc16, crc16_ref.
  apply crc16_iter_ref, crc16_seed_below; assumption.
Qed.

Lemma crc16_is_ccitt_step_witness :
  crc16 0x31 0 = crc16_ref 0x31 0 /\ 0 <= crc16 0x31 0 < 2 ^ 16.
Proof. apply (crc16_is_ccitt_step 0x31 0); lia. Defined.

(** ** The frame parser, one byte at a time *)

Lemma data_received_app (self : QuanshengComm) (xs ys : list Z) :
  data_received self (xs ++ ys) =
  match data_received self xs with
  | (s, None) => data_received s ys
  | (s, Some e) => (s, Some e)
  end.
Proof.
  revert self. induction xs as [|x xs IH]; intros self; simpl; [reflexivity|].
  destruct (process_byte self x) as [s [e|]]; [reflexivity|apply IH].
Qed.

Lemma process_byte_crc_stages (self : QuanshengComm) (c1 c2 : Z) :
  stage self = CrcLSB ->
  data_received self [c1; c2] = (set_stage DC (set_stage CrcMSB self), None).
Proof.
  intros Hs. simpl. unfold process_byte at 1. rewrite Hs.
  unfold process_byte. simpl. reflexivity.
Qed.

Lemma process_byte_ui_type (self : QuanshengComm) (byte : Z) :
  stage self = UiType -> process_byte self byte = (self, None).
Proof. intros Hs. unfold process_byte. rewrite Hs. reflexivity. Qed.

Lemma data_received_ui_type (self : QuanshengComm) (bytes : list Z) :
  stage self = UiType -> data_received self bytes = (self, None).
Proof.
  intros Hs. induction bytes as [|b bytes IH]; simpl; [reflexivity|].
  rewrite (process_byte_ui_type self b Hs). exact IH.
Qed.

(** C9: a 0xB5 byte received in the Idle stage moves the parser to UiType,
    and from there every byte, whatever its value, leaves the whole object
    as it is (stage, buffer, [p_len], [p_cnt], bitmap) and calls nothing:
    the parser never leaves that stage again. *)
Theorem ui_type_is_absorbing (self : QuanshengComm) (bytes : list Z) :
  stage self = Idle ->
  exists s,
    process_byte self 0xB5 = (s, None) /\
    stage s = UiType /\
    data s = data self /\ p_len s = p_len self /\ p_cnt s = p_cnt self /\
    calls s = calls self /\
    (forall byte, process_byte s byte = (s, None)) /\
    data_received s bytes = (s, None).
Proof.
  intros Hs. exists (set_stage UiType self).
  unfold process_byte at 1. rewrite Hs. simpl.
  do 6 (split; [reflexivity|]). split.
  - intros byte. apply process_byte_ui_type. reflexivity.
  - apply data_received_ui_type. reflexivity.
Qed.

Lemma ui_type_is_absorbing_witness :
  exists s,
    process_byte init 0xB5 = (s, None) /\
    stage s = UiType /\
    data s = data init /\ p_len s = p_len init /\ p_cnt s = p_cnt init /\
    calls s = calls init /\
    (forall byte, process_byte s byte = (s, None)) /\
    data_received s [0xAB; 0xCD; 0x05; 0x00] = (s, None).
Proof. apply (ui_type_is_absorbing init [0xAB; 0xCD; 0x05; 0x00]). reflexivity. Defined.

(** C3: the two bytes taken in the CrcLSB and CrcMSB stages are never
    looked at.  Two inbound streams that differ only in those two bytes end
    in the same object state, with the same history of [parse_packet] calls
    and the same outcome. *)
Theorem checksum_bytes_are_ignored
  (self s : QuanshengComm) (pre post : list Z) (c1 c2 d1 d2 : Z) :
  data_received self pre = (s, None) ->
  stage s = CrcLSB ->
  data_received self (pre ++ c1 :: c2 :: post) =
  data_received self (pre ++ d1 :: d2 :: post).
Proof.
  intros Hpre Hs.
  rewrite !data_received_app, Hpre.
  change (c1 :: c2 :: post) with ([c1; c2] ++ post).
  change (d1 :: d2 :: post) with ([d1; d2] ++ post).
  rewrite !data_received_app, !(process_byte_crc_stages s) by exact Hs.
  reflexivity.
Qed.

Lemma checksum_bytes_are_ignored_witness :
  data_received init ([0xAB; 0xCD; 5; 0; 23; 100; 21; 230; 61] ++ 97 :: 55 :: [0xDC; 0xBA]) =
  data_received init ([0xAB; 0xCD; 5; 0; 23; 100; 21; 230; 61] ++ 0 :: 0 :: [0xDC; 0xBA]).
Proof.
  apply (checksum_bytes_are_ignored init
           (mkComm false CrcLSB [1; 8; 1; 0; 19] 5 5 zeros false []));
    reflexivity.
Defined.

(** C4, as the claim states it, fails: with a declared length of zero the
    byte after the length is still deciphered into the buffer, so the buffer
    given to [parse_packet] has one byte; and a frame that really carries no
    payload byte loses its footer and is not handed over at all. *)
Lemma zero_length_frame_counterexample :
  packets (calls (data_received init
     [0xAB; 0xCD; 0x00; 0x00; 0x55; 0x00; 0x00; 0xDC; 0xBA]).1) = [[0x43]] /\
  [[0x43]] <> [@nil Z] /\
  packets (calls (data_received init
     [0xAB; 0xCD; 0x00; 0x00; 0x00; 0x00; 0xDC; 0xBA]).1) = [].
Proof.
  split; [vm_compute; reflexivity|].
  split; [discriminate|vm_compute; reflexivity].
Qed.

(** C4, amended: when the declared length is zero, the Data stage still
    takes exactly one byte: it is deciphered at key position 0 and appended
    to the emptied buffer, and only then does the parser move on to the
    checksum stages; if the footer follows, [parse_packet] is called with
    that one-byte buffer. *)
Theorem zero_length_frame_takes_one_byte
  (self : QuanshengComm) (b c1 c2 : Z) :
  stage self = LenLSB ->
  is_byte b ->
  (exists s, data_received self [0; 0; b] = (s, None) /\
             stage s = CrcLSB /\ p_len s = 0 /\ p_cnt s = 1 /\
             data s = [crypt b 0]) /\
  (exists s, data_received self [0; 0; b; c1; c2; 0xDC; 0xBA] = (s, None) /\
             stage s = Idle /\
             calls s = calls self ++ [CallParsePacket [crypt b 0]]).
Proof.
  intros Hs Hb.
  assert (Hv : is_byteb (crypt b 0) = true)
    by (apply is_byteb_true, crypt_byte, Hb).
  split.
  - eexists. simpl. unfold process_byte at 1. rewrite Hs.
    unfold process_byte; simpl. rewrite Hv. simpl. repeat split; reflexivity.
  - eexists. simpl. unfold process_byte at 1. rewrite Hs.
    unfold process_byte; simpl. rewrite Hv. simpl.
    repeat split; reflexivity.
Qed.

Lemma zero_length_frame_takes_one_byte_witness :
  (exists s, data_received (set_stage LenLSB init) [0; 0; 0x55] = (s, None) /\
             stage s = CrcLSB /\ p_len s = 0 /\ p_cnt s = 1 /\
             data s = [crypt 0x55 0]) /\
  (exists s, data_received (set_stage LenLSB init)
               [0; 0; 0x55; 7; 9; 0xDC; 0xBA] = (s, None) /\
             stage s = Idle /\
             calls s = calls (set_stage LenLSB init)
                       ++ [CallParsePacket [crypt 0x55 0]]).
Proof.
  apply (zero_length_frame_takes_one_byte (set_stage LenLSB init) 0x55 7 9);
    [reflexivity|unfold is_byte; lia].
Defined.

(** ** Dispatch *)

Lemma getitem_lookup (l : list Z) (i : nat) (x : Z) :
  l !! i = Some x -> getitem l (Z.of_nat i) = Ok x.
Proof.
  intros Hx. pose proof (lookup_lt_Some _ _ _ Hx) as Hlt.
  unfold getitem, py_index.
  destruct (Z.leb_spec 0 (Z.of_nat i)); [|lia].
  destruct (Z.ltb_spec (Z.of_nat i) (Z.of_nat (length l))); [|lia].
  simpl. rewrite Nat2Z.id, Hx. reflexivity.
Qed.

Lemma parse_packet_get_screen (self : QuanshengComm) (data : list Z) (d0 d1 : Z) :
  data !! 0%nat = Some d0 -> data !! 1%nat = Some d1 ->
  le16 d0 d1 = Packet.GetScreen ->
  parse_packet self data =
  let self := record_call (CallParsePacket data) self in
  match (d2 ← getitem data 2; d3 ← getitem data 3; d4 ← getitem data 4;
         Ok (Z.lor d2 (Z.shiftl d3 8), d4)) with
  | Raise e => (self, Some e)
  | Ok (offset, diff) =>
      match parse_screen self (slice_from 5 data) diff with
      | (self', Raise e) => (self', Some e)
      | (self', Ok _) =>
          if on_screen_update self'
          then (record_call CallOnScreenUpdate self', None)
          else (self', None)
      end
  end.
Proof.
  intros H0 H1 Hcmd. unfold parse_packet.
  pose proof (lookup_lt_Some _ _ _ H1) as Hlt.
  destruct (Z.ltb_spec (Z.of_nat (length data)) 2); [lia|].
  rewrite (getitem_lookup data 0 d0 H0 : getitem data 0 = Ok d0).
  rewrite (getitem_lookup data 1 d1 H1 : getitem data 1 = Ok d1).
  simpl. unfold le16 in Hcmd. rewrite Hcmd, Z.eqb_refl. reflexivity.
Qed.

(** C10: a buffer of 2, 3 or 4 bytes whose first two bytes read, low byte
    first, as the GetScreen command makes [parse_packet] raise [IndexError]
    while it reads the offset and diff bytes: its only length check lets
    every buffer of two or more bytes through.  The same happens when
    [process_byte] completes such a frame. *)
Theorem short_screen_frame_raises
  (self : QuanshengComm) (buf : list Z) (d0 d1 : Z) :
  buf !! 0%nat = Some d0 -> buf !! 1%nat = Some d1 ->
  le16 d0 d1 = Packet.GetScreen ->
  (2 <= length buf <= 4)%nat ->
  parse_packet self buf =
    (record_call (CallParsePacket buf) self, Some IndexError) /\
  (stage self = BA -> data self = buf ->
   process_byte self 0xBA =
     (record_call (CallParsePacket buf) (set_stage Idle self),
      Some IndexError)).
Proof.
  intros H0 H1 Hcmd Hlen.
  assert (Hpp : forall s, parse_packet s buf =
                          (record_call (CallParsePacket buf) s, Some IndexError)).
  { intros s. rewrite (parse_packet_get_screen s buf d0 d1 H0 H1 Hcmd).
    destruct buf as [|a [|b [|c [|d [|e rest]]]]]; simpl in Hlen; try lia;
      reflexivity. }
  split; [apply Hpp|].
  intros Hs Hd. unfold process_byte. rewrite Hs. simpl.
  change (data (set_stage Idle self)) with (data self). rewrite Hd. apply Hpp.
Qed.

Lemma short_screen_frame_raises_witness :
  parse_packet init [0x03; 0x08; 0x00] =
    (record_call (CallParsePacket [0x03; 0x08; 0x00]) init, Some IndexError) /\
  (stage init = BA -> data init = [0x03; 0x08; 0x00] ->
   process_byte init 0xBA =
     (record_call (CallParsePacket [0x03; 0x08; 0x00]) (set_stage Idle init),
      Some IndexError)).
Proof.
  apply (short_screen_frame_raises init [0x03; 0x08; 0x00] 0x03 0x08);
    [reflexivity|reflexivity|reflexivity|simpl; lia].
Defined.

(** ** The screen decoder *)

Lemma same_outside_refl (c : nat) (s : Screen) : same_outside c s s.
Proof. intros r c' _. reflexivity. Qed.

Lemma same_outside_trans (c : nat) (s1 s2 s3 : Screen) :
  same_outside c s1 s2 -> same_outside c s2 s3 -> same_outside c s1 s3.
Proof. intros H12 H23 r c' Hc. rewrite (H23 r c' Hc). apply H12, Hc. Qed.

Lemma py_index_in_range (n : nat) (i : Z) :
  0 <= i < Z.of_nat n -> py_index n i = Ok (Z.to_nat i).
Proof.
  intros Hi. unfold py_index.
  destruct (Z.leb_spec 0 i); [|lia].
  destruct (Z.ltb_spec i (Z.of_nat n)); [reflexivity|lia].
Qed.

Lemma getitem_in_range (l : list Z) (i : Z) :
  0 <= i < Z.of_nat (length l) ->
  exists x, l !! Z.to_nat i = Some x /\ getitem l i = Ok x.
Proof.
  intros Hi. destruct (lookup_lt_is_Some_2 l (Z.to_nat i)) as [x Hx]; [lia|].
  exists x. split; [exact Hx|].
  rewrite <- (Z2Nat.id i) at 1 by lia. apply getitem_lookup, Hx.
Qed.

Lemma setitem2_in_range (screen : Screen) (r c v : Z) (line : list Z) :
  0 <= r -> 0 <= c ->
  screen !! Z.to_nat r = Some line ->
  (Z.to_nat c < length line)%nat ->
  setitem2 screen r c v =
  Ok (<[Z.to_nat r := <[Z.to_nat c := v]> line]> screen).
Proof.
  intros Hr Hc Hline Hlen. unfold setitem2.
  pose proof (lookup_lt_Some _ _ _ Hline) as Hlt.
  rewrite py_index_in_range by lia. simpl. rewrite Hline.
  rewrite py_index_in_range by lia. reflexivity.
Qed.

Lemma screen_ok_zeros : screen_ok zeros.
Proof.
  split; [reflexivity|].
  unfold zeros. apply Forall_replicate. split; [reflexivity|].
  apply Forall_replicate. left. reflexivity.
Qed.

Lemma screen_ok_line (screen : Screen) (r : nat) :
  screen_ok screen -> (r < 64)%nat ->
  exists line, screen !! r = Some line /\ length line = 128%nat.
Proof.
  intros [Hlen Hrows] Hr.
  destruct (lookup_lt_is_Some_2 screen r) as [line Hline]; [lia|].
  exists line. split; [exact Hline|].
  exact (proj1 (proj1 (Forall_lookup _ _) Hrows r line Hline)).
Qed.

Lemma screen_ok_write (screen : Screen) (i j : nat) (v : Z) (line : list Z) :
  screen_ok screen -> screen !! i = Some line -> v = 0 \/ v = 1 ->
  screen_ok (<[i := <[j := v]> line]> screen).
Proof.
  intros [Hlen Hrows] Hline Hv. split; [rewrite length_insert; exact Hlen|].
  apply Forall_insert; [exact Hrows|].
  destruct (proj1 (Forall_lookup _ _) Hrows i line Hline) as [Hl Hpix].
  split; [rewrite length_insert; exact Hl|].
  apply Forall_insert; assumption.
Qed.

Lemma screen_ok_one_pixel : screen_ok one_pixel.
Proof.
  unfold one_pixel. apply screen_ok_write.
  - apply screen_ok_zeros.
  - reflexivity.
  - right. reflexivity.
Qed.

Lemma pixel_write_other (screen : Screen) (i j : nat) (v : Z) (line : list Z) :
  screen !! i = Some line ->
  same_outside j screen (<[i := <[j := v]> line]> screen).
Proof.
  intros Hline r c Hc. unfold pixel.
  destruct (decide (r = i)) as [->|Hr].
  - rewrite list_lookup_insert_eq by (eapply lookup_lt_Some, Hline).
    rewrite Hline. simpl. apply list_lookup_insert_ne. congruence.
  - rewrite list_lookup_insert_ne by congruence. reflexivity.
Qed.

Lemma is_lit_bit (pixels bit : Z) :
  let v := Z.land (Z.shiftr pixels bit) 1 in v = 0 \/ v = 1.
Proof.
  simpl. change 1 with (Z.ones 1) at 1 2. rewrite Z.land_ones by lia.
  change (2 ^ 1) with 2.
  pose proof (Z.mod_pos_bound (Z.shiftr pixels bit) 2). lia.
Qed.

Lemma plot_bits_spec (bits : list Z) (pixels col row : Z) (screen : Screen) :
  Forall (fun bit => 0 <= bit) bits ->
  0 <= row -> 0 <= col < 128 -> screen_ok screen ->
  exists screen',
    plot_bits bits pixels col row screen = (screen', None) /\
    screen_ok screen' /\ same_outside (Z.to_nat col) screen screen'.
Proof.
  intros Hbits Hrow Hcol. revert screen.
  induction Hbits as [|bit bits Hbit _ IH]; intros screen Hok; simpl.
  - exists screen. auto using same_outside_refl.
  - destruct (Z.leb_spec 64 (row + bit)) as [|Hlt].
    { exists screen. auto using same_outside_refl. }
    destruct (screen_ok_line screen (Z.to_nat (row + bit)) Hok)
      as [line [Hline Hlen]]; [lia|].
    rewrite (setitem2_in_range screen _ _ _ line) by (try exact Hline; lia).
    destruct (IH (<[Z.to_nat (row + bit) :=
                    <[Z.to_nat col := Z.land (Z.shiftr pixels bit) 1]> line]>
                  screen)) as [screen' [Hrun [Hok' Hsame]]].
    { apply screen_ok_write; [exact Hok|exact Hline|apply is_lit_bit]. }
    exists screen'. split; [exact Hrun|]. split; [exact Hok'|].
    eapply same_outside_trans; [|exact Hsame].
    apply pixel_write_other, Hline.
Qed.

Lemma Forall_is_byte_lookup (l : list Z) (k : nat) (x : Z) :
  Forall is_byte l -> l !! k = Some x -> is_byte x.
Proof. intros Hb Hx. exact (proj1 (Forall_lookup _ _) Hb k x Hx). Qed.

(** The two loops of [parse_screen] on a fixed payload of bytes. *)
Section Screen.

Variable data : list Z.
Hypothesis data_bytes : Forall is_byte data.

Lemma plot_triplet_spec (i : Z) (screen : Screen) :
  triplet_at data i -> screen_ok screen ->
  exists pixels col r screen',
    data !! Z.to_nat i = Some pixels /\
    data !! Z.to_nat (i + 1) = Some col /\
    data !! Z.to_nat (i + 2) = Some r /\
    plot_triplet data i screen = (screen', None) /\
    screen_ok screen' /\
    same_outside (Z.to_nat col) screen screen' /\
    (128 <= col \/ 64 <= r * 8 -> screen' = screen).
Proof.
  intros [Hi0 Hi2] Hok. unfold plot_triplet.
  destruct (getitem_in_range data i) as [pixels [Lp ->]]; [lia|].
  destruct (getitem_in_range data (i + 1)) as [col [Lc ->]]; [lia|].
  destruct (getitem_in_range data (i + 2)) as [r [Lr ->]]; [lia|].
  simpl.
  pose proof (Forall_is_byte_lookup _ _ _ data_bytes Lc) as Hcol.
  pose proof (Forall_is_byte_lookup _ _ _ data_bytes Lr) as Hr.
  unfold is_byte in Hcol, Hr.
  exists pixels, col, r.
  destruct (Z.leb_spec 128 col) as [Hc|Hc]; simpl.
  { exists screen. auto 10 using same_outside_refl. }
  destruct (Z.leb_spec 64 (r * 8)) as [Hrow|Hrow]; simpl.
  { exists screen. auto 10 using same_outside_refl. }
  destruct (plot_bits_spec range8 pixels col (r * 8) screen)
    as [screen' [Hrun [Hok' Hsame]]]; [|lia|lia|exact Hok|].
  { unfold range8. repeat constructor; lia. }
  exists screen'. do 3 (split; [assumption|]).
  split; [exact Hrun|]. split; [exact Hok'|]. split; [exact Hsame|]. lia.
Qed.

Lemma plot_triplets_spec (idx : list Z) (screen : Screen) :
  Forall (triplet_at data) idx -> screen_ok screen ->
  exists screen',
    plot_triplets data idx screen = (screen', None) /\
    screen_ok screen' /\
    forall c, Forall (fun i => data !! Z.to_nat (i + 1) = Some c) idx ->
              same_outside (Z.to_nat c) screen screen'.
Proof.
  intros Hidx. revert screen.
  induction Hidx as [|i idx Hi _ IH]; intros screen Hok; simpl.
  - exists screen. auto using same_outside_refl.
  - destruct (plot_triplet_spec i screen Hi Hok)
      as (pixels & col & r & s1 & _ & Lc & _ & -> & Hok1 & Hsame1 & _).
    destruct (IH s1 Hok1) as (s2 & Hrun & Hok2 & Hsame2).
    exists s2. split; [exact Hrun|]. split; [exact Hok2|].
    intros c Hall. inversion Hall as [|? ? Hc Hrest]; subst.
    rewrite Lc in Hc. injection Hc as <-.
    eapply same_outside_trans; [exact Hsame1|apply Hsame2, Hrest].
Qed.

End Screen.

Lemma range_step3_triplets (data : list Z) :
  Z.of_nat (length data) mod 3 = 0 ->
  Forall (triplet_at data) (range_step3 (length data)).
Proof.
  intros Hmod. unfold range_step3. apply Forall_fmap, Forall_seq.
  intros k [_ Hk]. unfold triplet_at.
  pose proof (Nat.Div0.mul_div_le (length data + 2) 3) as Hdiv.
  apply Z.mod_divide in Hmod; [|lia]. destruct Hmod as [m Hm].
  unfold compose. cbv beta. lia.
Qed.

Lemma plot_triplet_discard
  (data : list Z) (i : Z) (screen : Screen) (col r : Z) :
  triplet_at data i ->
  data !! Z.to_nat (i + 1) = Some col ->
  data !! Z.to_nat (i + 2) = Some r ->
  128 <= col \/ 64 <= r * 8 ->
  plot_triplet data i screen = (screen, None).
Proof.
  intros [Hi0 Hi2] Lc Lr Hout. unfold plot_triplet.
  destruct (getitem_in_range data i) as [pixels [_ ->]]; [lia|].
  destruct (getitem_in_range data (i + 1)) as [col' [Lc' ->]]; [lia|].
  destruct (getitem_in_range data (i + 2)) as [r' [Lr' ->]]; [lia|].
  rewrite Lc in Lc'. injection Lc' as <-.
  rewrite Lr in Lr'. injection Lr' as <-.
  simpl.
  destruct (Z.leb_spec 128 col); [reflexivity|].
  destruct (Z.leb_spec 64 (r * 8)); [reflexivity|lia].
Qed.

Lemma parse_screen_returns (self : QuanshengComm) (data : list Z) (diff : Z) :
  Forall is_byte data ->
  Z.of_nat (length data) mod 3 = 0 ->
  diff = 0 \/ screen_ok (screen_data self) ->
  exists scr,
    parse_screen self data diff = (set_screen_data scr self, Ok scr) /\
    screen_ok scr /\
    (diff <> 0 ->
     forall c,
       Forall (fun i => data !! Z.to_nat (i + 1) = Some c)
              (range_step3 (length data)) ->
       same_outside (Z.to_nat c) (screen_data self) scr).
Proof.
  intros Hb Hmod Hpre. unfold parse_screen.
  rewrite Hmod. simpl.
  assert (Hok : screen_ok (if diff =? 0 then zeros else screen_data self)).
  { destruct (Z.eqb_spec diff 0); [apply screen_ok_zeros|tauto]. }
  destruct (plot_triplets_spec data Hb (range_step3 (length data)) _
              (range_step3_triplets data Hmod) Hok)
    as (scr & -> & Hok' & Hsame).
  exists scr. split; [reflexivity|]. split; [exact Hok'|].
  intros Hd c Hall. destruct (Z.eqb_spec diff 0); [contradiction|].
  apply Hsame, Hall.
Qed.

Lemma getitem_error (l : list Z) (i : Z) (e : PyError) :
  getitem l i = Raise e -> e = IndexError.
Proof.
  unfold getitem, py_index.
  repeat match goal with
         | |- context [if ?b then _ else _] => destruct b; simpl
         | |- context [match ?o with Some _ => _ | None => _ end] =>
             destruct o; simpl
         end; congruence.
Qed.

Lemma setitem2_error (screen : Screen) (r c v : Z) (e : PyError) :
  setitem2 screen r c v = Raise e -> e = IndexError.
Proof.
  unfold setitem2, py_index.
  repeat match goal with
         | |- context [if ?b then _ else _] => destruct b; simpl
         | |- context [match ?o with Some _ => _ | None => _ end] =>
             destruct o; simpl
         end; congruence.
Qed.

Lemma plot_bits_error
  (bits : list Z) (pixels col row : Z) (screen screen' : Screen) (e : PyError) :
  plot_bits bits pixels col row screen = (screen', Some e) -> e = IndexError.
Proof.
  revert screen. induction bits as [|bit bits IH]; intros screen; simpl.
  - congruence.
  - destruct (64 <=? row + bit); [congruence|].
    destruct (setitem2 screen (row + bit) col _) as [s1|e1] eqn:Hset.
    + apply IH.
    + intros [= _ <-]. eapply setitem2_error, Hset.
Qed.

Lemma plot_triplet_error
  (data : list Z) (i : Z) (screen screen' : Screen) (e : PyError) :
  plot_triplet data i screen = (screen', Some e) -> e = IndexError.
Proof.
  unfold plot_triplet.
  destruct (getitem data i) as [pixels|e0] eqn:H0; simpl;
    [|intros [= _ <-]; eapply getitem_error, H0].
  destruct (getitem data (i + 1)) as [col|e1] eqn:H1; simpl;
    [|intros [= _ <-]; eapply getitem_error, H1].
  destruct (getitem data (i + 2)) as [r|e2] eqn:H2; simpl;
    [|intros [= _ <-]; eapply getitem_error, H2].
  destruct ((128 <=? col) || (64 <=? r * 8)); [congruence|].
  apply (plot_bits_error range8 pixels col (r * 8) screen).
Qed.

Lemma plot_triplets_error
  (data : list Z) (idx : list Z) (screen screen' : Screen) (e : PyError) :
  plot_triplets data idx screen = (screen', Some e) -> e = IndexError.
Proof.
  revert screen. induction idx as [|i idx IH]; intros screen; simpl.
  - congruence.
  - destruct (plot_triplet data i screen) as [s1 [e1|]] eqn:Hstep.
    + intros [= _ <-]. eapply plot_triplet_error, Hstep.
    + apply IH.
Qed.

(** The only [ValueError] of [parse_screen] is the length check, which
    comes before anything is touched. *)
Lemma parse_screen_value_error
  (self s : QuanshengComm) (data : list Z) (diff : Z) :
  parse_screen self data diff = (s, Raise ValueError) ->
  s = self /\ Z.of_nat (length data) mod 3 <> 0.
Proof.
  unfold parse_screen.
  destruct (Z.eqb_spec (Z.of_nat (length data) mod 3) 0) as [Hm|Hm]; simpl.
  - destruct (plot_triplets data _ _) as [scr [e|]] eqn:Hrun; [|congruence].
    intros [= _ He]. apply plot_triplets_error in Hrun. congruence.
  - intros [= <-]. auto.
Qed.

Lemma parse_packet_value_error (self s : QuanshengComm) (buf : list Z) :
  parse_packet self buf = (s, Some ValueError) ->
  s = record_call (CallParsePacket buf) self.
Proof.
  unfold parse_packet.
  destruct (Z.of_nat (length buf) <? 2); [congruence|].
  destruct (getitem buf 0) as [d0|e0] eqn:H0; simpl;
    [|intros [= _ ->]; apply getitem_error in H0; discriminate].
  destruct (getitem buf 1) as [d1|e1] eqn:H1; simpl;
    [|intros [= _ ->]; apply getitem_error in H1; discriminate].
  destruct (Z.lor d0 (Z.shiftl d1 8) =? Packet.GetScreen); [|congruence].
  destruct (getitem buf 2) as [d2|e2] eqn:H2; simpl;
    [|intros [= _ ->]; apply getitem_error in H2; discriminate].
  destruct (getitem buf 3) as [d3|e3] eqn:H3; simpl;
    [|intros [= _ ->]; apply getitem_error in H3; discriminate].
  destruct (getitem buf 4) as [d4|e4] eqn:H4; simpl;
    [|intros [= _ ->]; apply getitem_error in H4; discriminate].
  destruct (parse_screen (record_call (CallParsePacket buf) self)
                         (slice_from 5 buf) d4) as [s' [scr|e]] eqn:Hps.
  - simpl. destruct (on_screen_update s'); intros H; discriminate H.
  - simpl. intros [= <- ->]. apply parse_screen_value_error in Hps. tauto.
Qed.

(** A completed GetScreen frame with a two-byte triplet payload: the
    format error surfaces from [process_byte], after the stage went back to
    Idle. *)
Example format_error_through_process_byte :
  process_byte (mkComm false BA [0x03; 0x08; 0; 0; 0; 1; 0] 7 7 zeros false [])
               0xBA =
  (mkComm false Idle [0x03; 0x08; 0; 0; 0; 1; 0] 7 7 zeros false
          [CallParsePacket [0x03; 0x08; 0; 0; 0; 1; 0]],
   Some ValueError).
Proof. reflexivity. Qed.

Lemma triplets_in_column_facts (c : Z) (n : nat) :
  forall data : list Z,
    (length data <= n)%nat -> triplets_in_column c data ->
    Z.of_nat (length data) mod 3 = 0 /\
    forall k : nat, (3 * k + 2 < length data)%nat ->
                    data !! (3 * k + 1)%nat = Some c.
Proof.
  induction n as [|n IH]; intros data Hlen Htic.
  - destruct data; [|simpl in Hlen; lia].
    split; [reflexivity|]. simpl. lia.
  - destruct data as [|a [|b [|x rest]]]; simpl in Htic; try contradiction.
    { split; [reflexivity|]. simpl. lia. }
    destruct Htic as [-> Htic]. simpl in Hlen.
    destruct (IH rest) as [Hmod Hlook]; [lia|exact Htic|].
    split.
    + simpl length. rewrite !Nat2Z.inj_succ.
      apply Z.mod_divide in Hmod; [|lia]. destruct Hmod as [m Hm].
      apply Z.mod_divide; [lia|]. exists (m + 1). lia.
    + intros [|k] Hk; [reflexivity|].
      replace (3 * S k + 1)%nat with (S (S (S (3 * k + 1)))) by lia.
      simpl. apply Hlook. simpl in Hk. lia.
Qed.

Lemma triplets_in_column_range (c : Z) (data : list Z) :
  triplets_in_column c data ->
  Z.of_nat (length data) mod 3 = 0 /\
  Forall (fun i => data !! Z.to_nat (i + 1) = Some c)
         (range_step3 (length data)).
Proof.
  intros Htic.
  destruct (triplets_in_column_facts c (length data) data) as [Hmod Hlook];
    [lia|exact Htic|].
  split; [exact Hmod|].
  pose proof (range_step3_triplets data Hmod) as Htr.
  unfold range_step3 in *. apply Forall_fmap, Forall_seq.
  intros k Hk. unfold compose. cbv beta.
  rewrite Forall_fmap, Forall_seq in Htr. specialize (Htr k Hk).
  unfold compose, triplet_at in Htr. cbv beta in Htr.
  replace (Z.to_nat (3 * Z.of_nat k + 1)) with (3 * k + 1)%nat by lia.
  apply Hlook. lia.
Qed.

(** C7: an incremental update (diff nonzero) whose triplets all name the
    same in-range column [c] returns, and every pixel in any other column
    has afterwards the value it had before the call. *)
Theorem incremental_update_keeps_other_columns
  (self : QuanshengComm) (payload : list Z) (diff c : Z) :
  diff <> 0 ->
  Forall is_byte payload ->
  triplets_in_column c payload ->
  0 <= c < 128 ->
  screen_ok (screen_data self) ->
  exists scr,
    parse_screen self payload diff = (set_screen_data scr self, Ok scr) /\
    forall row col,
      col <> Z.to_nat c ->
      pixel scr row col = pixel (screen_data self) row col.
Proof.
  intros Hd Hb Htic _ Hok.
  destruct (triplets_in_column_range c payload Htic) as [Hmod Hall].
  destruct (parse_screen_returns self payload diff Hb Hmod (or_intror Hok))
    as (scr & Hret & _ & Hsame).
  exists scr. split; [exact Hret|].
  intros row col Hcol. exact (Hsame Hd c Hall row col Hcol).
Qed.

Lemma incremental_update_keeps_other_columns_witness :
  exists scr,
    parse_screen init [0xFF; 5; 0; 0x0F; 5; 1] 1 =
      (set_screen_data scr init, Ok scr) /\
    forall row col,
      col <> Z.to_nat 5 ->
      pixel scr row col = pixel (screen_data init) row col.
Proof.
  apply (incremental_update_keeps_other_columns
           init [0xFF; 5; 0; 0x0F; 5; 1] 1 5).
  - lia.
  - repeat constructor; unfold is_byte; lia.
  - simpl. auto.
  - lia.
  - apply screen_ok_zeros.
Defined.

(** ** The frame builder *)

Lemma le16_split (t : Z) :
  le16 (Z.land t 0xFF) (Z.land (Z.shiftr t 8) 0xFF) = t mod 2 ^ 16.
Proof.
  unfold le16. apply Z.bits_inj'. intros n Hn.
  change 0xFF with (Z.ones 8).
  rewrite Z.lor_spec, Z.land_spec, Z.testbit_mod_pow2 by lia.
  rewrite Z.testbit_ones_nonneg by lia.
  destruct (Z.ltb_spec n 8) as [H8|H8].
  - rewrite Z.shiftl_spec, (Z.testbit_neg_r _ (n - 8)) by lia.
    destruct (Z.ltb_spec n 16); [|lia].
    rewrite andb_true_r, orb_false_r. reflexivity.
  - rewrite Z.shiftl_spec, Z.land_spec, Z.shiftr_spec by lia.
    rewrite Z.testbit_ones_nonneg by lia.
    replace (n - 8 + 8) with n by lia.
    rewrite andb_false_r. simpl.
    destruct (Z.ltb_spec n 16), (Z.ltb_spec (n - 8) 8); try lia;
      rewrite ?andb_true_r, ?andb_false_r; reflexivity.
Qed.

Lemma serialize_arg_bytes (arg : Arg) :
  arg_in_range arg ->
  exists p, serialize_arg arg = Ok p /\ Forall is_byte p.
Proof.
  destruct arg as [n|b|l]; simpl.
  - intros Hn. destruct (Z.leb_spec n 0xFF).
    + assert (Hb : is_byteb n = true) by (apply is_byteb_true; unfold is_byte; lia).
      rewrite Hb. exists [n]. split; [reflexivity|].
      repeat constructor; lia.
    + destruct (n <=? 0xFFFF); eexists; (split; [reflexivity|]);
        repeat constructor; apply land_ff_byte.
  - intros _. eexists. split; [reflexivity|].
    apply Forall_fmap, Forall_forall. intros x _. unfold compose, byte_val, is_byte.
    pose proof (Byte.to_N_bounded x). lia.
  - intros _. eexists. split; [reflexivity|].
    apply Forall_fmap, Forall_forall. intros x _. apply land_ff_byte.
Qed.

Lemma serialize_args_bytes (args : list Arg) (params : list Z) :
  Forall arg_in_range args -> Forall is_byte params ->
  exists out, serialize_args params args = Ok out /\ Forall is_byte out.
Proof.
  intros Hargs. revert params.
  induction Hargs as [|arg args Harg _ IH]; intros params Hp; simpl.
  - exists params. auto.
  - destruct (serialize_arg_bytes arg Harg) as [p [-> Hpb]]. simpl.
    apply IH, Forall_app. auto.
Qed.

Lemma crc_crypt_loop_spec (body pre : list Z) (crc : Z) :
  crc_crypt_loop (seq (length pre) (length body)) crc (pre ++ body) =
  (crc_over crc body,
   pre ++ cipher_from (Z.of_nat (length pre) - 4) body).
Proof.
  revert pre crc. induction body as [|b body IH]; intros pre crc.
  - reflexivity.
  - cbn [length seq crc_crypt_loop cipher_from crc_over fold_left].
    rewrite (list_lookup_total_middle pre body b (length pre) eq_refl).
    rewrite insert_app_r_alt, Nat.sub_diag by lia.
    cbn [insert list_insert].
    specialize (IH (pre ++ [crypt b (Z.of_nat (length pre) - 4)]) (crc16 b crc)).
    rewrite length_app, Nat.add_1_r in IH. cbn [length] in IH.
    rewrite <- !app_assoc in IH. cbn [app] in IH. rewrite IH.
    unfold crc_over. f_equal. f_equal. f_equal. f_equal. lia.
Qed.

Lemma cipher_from_length (k : Z) (l : list Z) :
  length (cipher_from k l) = length l.
Proof. revert k. induction l; intros k; simpl; auto. Qed.

Lemma send_command_frame
  (self : QuanshengComm) (cmd : Z) (args : list Arg) (params : list Z) :
  transport self = true ->
  serialize_args [] args = Ok params ->
  send_command self cmd args = Ok (Some (frame_of cmd params)).
Proof.
  intros Ht Hser. unfold send_command. rewrite Ht, Hser.
  cbn [negb mbind result_bind].
  change (setslice 6 8 ([171; 205; 0; 0] ++ [Z.land cmd 255; Z.land (Z.shiftr cmd 8) 255])
            [Z.land (Z.of_nat (length params)) 255;
             Z.land (Z.shiftr (Z.of_nat (length params)) 8) 255] ++ params)
    with ([171; 205; 0; 0] ++ plain_body cmd params).
  set (body := plain_body cmd params).
  rewrite length_app. cbn [length Nat.add Nat.sub]. rewrite Nat.sub_0_r.
  rewrite (crc_crypt_loop_spec body [171; 205; 0; 0] 0 : crc_crypt_loop (seq 4 (length body)) 0 ([171; 205; 0; 0] ++ body) = _).
  cbn [length]. change (Z.of_nat 4 - 4) with 0.
  unfold frame_of. fold body.
  cbn [fst snd]. unfold setslice.
  rewrite !length_app, cipher_from_length. cbn [length app take drop].
  replace (Z.of_nat (4 + length body + 2 + 2) - 8)
    with (Z.of_nat (length body)) by lia.
  replace (Z.of_nat (4 + length body) - 4)
    with (Z.of_nat (length body)) by lia.
  replace (Z.of_nat (4 + length body) - 3)
    with (Z.of_nat (length body) + 1) by lia.
  rewrite drop_0, <- !app_assoc. reflexivity.
Qed.

Lemma send_command_written
  (self : QuanshengComm) (cmd : Z) (args : list Arg) (frame : list Z) :
  send_command self cmd args = Ok (Some frame) ->
  exists params,
    serialize_args [] args = Ok params /\ frame = frame_of cmd params.
Proof.
  intros Hsend.
  destruct (transport self) eqn:Ht;
    [|unfold send_command in Hsend; rewrite Ht in Hsend; discriminate].
  destruct (serialize_args [] args) as [params|e] eqn:Hser.
  - exists params. split; [reflexivity|].
    rewrite (send_command_frame self cmd args params Ht Hser) in Hsend.
    congruence.
  - unfold send_command in Hsend. rewrite Ht, Hser in Hsend. discriminate.
Qed.

Lemma plain_body_length (cmd : Z) (params : list Z) :
  length (plain_body cmd params) = (4 + length params)%nat.
Proof. reflexivity. Qed.

Lemma frame_of_region (cmd : Z) (params : list Z) :
  let body := plain_body cmd params in
  let n := Z.of_nat (length body) in
  let crc := crc_over 0 body in
  ciphered_region (frame_of cmd params) =
  cipher_from 0 body
    ++ [crypt (Z.land crc 0xFF) n; crypt (Z.land (Z.shiftr crc 8) 0xFF) (n + 1)].
Proof.
  cbv zeta. unfold ciphered_region, frame_of.
  set (body := plain_body cmd params).
  cbn [app drop length]. rewrite length_app. cbn [length].
  set (x := crypt (Z.land (crc_over 0 body) 255) _).
  set (y := crypt (Z.land (Z.shiftr (crc_over 0 body) 8) 255) _).
  change [x; y; 220; 186] with ([x; y] ++ [220; 186]).
  rewrite app_assoc.
  replace (S (S (S (S (length (cipher_from 0 body) + 4)))) - 6)%nat
    with (length (cipher_from 0 body ++ [x; y]))
    by (rewrite length_app; simpl; lia).
  apply take_app_length.
Qed.

(** ** Decoding what the builder wrote *)

Lemma plain_body_bytes (cmd : Z) (params : list Z) :
  Forall is_byte params -> Forall is_byte (plain_body cmd params).
Proof.
  intros Hp. unfold plain_body. apply Forall_app. split; [|exact Hp].
  repeat constructor; apply land_ff_byte.
Qed.

Lemma data_stage_run (body : list Z) :
  forall t acc L k scr cb cs,
    body <> [] -> Forall is_byte body ->
    L = k + Z.of_nat (length body) ->
    data_received (mkComm t Data acc L k scr cb cs) (cipher_from k body) =
    (mkComm t CrcLSB (acc ++ body) L L scr cb cs, None).
Proof.
  induction body as [|b body IH]; intros t acc L k scr cb cs Hne Hb HL;
    [contradiction|].
  inversion Hb as [|? ? Hb1 Hb2]; subst.
  cbn [cipher_from data_received]. unfold process_byte at 1.
  cbn [stage p_cnt]. rewrite crypt_involutive.
  rewrite (proj2 (is_byteb_true b) Hb1).
  cbv beta zeta delta [set_stage set_p_cnt set_data].
  cbn [transport stage data p_len p_cnt screen_data on_screen_update calls].
  destruct body as [|b' body].
  - cbn [length]. destruct (Z.leb_spec (k + Z.of_nat 1) (k + 1)); [|lia].
    cbn [cipher_from data_received]. repeat f_equal; lia.
  - destruct (Z.leb_spec (k + Z.of_nat (length (b :: b' :: body))) (k + 1))
      as [Hle|_]; [cbn [length] in Hle; lia|].
    rewrite (IH t (acc ++ [b]) _ (k + 1) scr cb cs);
      [|discriminate|exact Hb2|cbn [length]; lia].
    rewrite <- app_assoc. reflexivity.
Qed.

Lemma frame_decoded (s : QuanshengComm) (cmd : Z) (params : list Z) :
  stage s = Idle ->
  Forall is_byte params ->
  4 + Z.of_nat (length params) <= 0xFFFF ->
  let body := plain_body cmd params in
  let n := Z.of_nat (length body) in
  data_received s (frame_of cmd params) =
  parse_packet
    (mkComm (transport s) Idle body n n
            (screen_data s) (on_screen_update s) (calls s)) body.
Proof.
  intros Hs Hp Hn. cbv zeta. destruct s as [t st acc L k scr cb cs].
  cbn [stage] in Hs. subst st. unfold frame_of.
  set (body := plain_body cmd params).
  assert (Hlen : Z.of_nat (length body) = 4 + Z.of_nat (length params)).
  { unfold body. rewrite plain_body_length. lia. }
  set (n := Z.of_nat (length body)) in *.
  rewrite data_received_app.
  assert (Hhead :
    data_received (mkComm t Idle acc L k scr cb cs)
      [0xAB; 0xCD; Z.land n 0xFF; Z.land (Z.shiftr n 8) 0xFF] =
    (mkComm t Data [] n 0 scr cb cs, None)).
  { cbn. do 2 f_equal.
    change (Z.lor (Z.land n 255) (Z.shiftl (Z.land (Z.shiftr n 8) 255) 8))
      with (le16 (Z.land n 0xFF) (Z.land (Z.shiftr n 8) 0xFF)).
    rewrite le16_split, Z.mod_small by lia. reflexivity. }
  rewrite Hhead, data_received_app.
  rewrite (data_stage_run body t [] n 0 scr cb cs);
    [|unfold body, plain_body; discriminate
     |apply plain_body_bytes, Hp|lia].
  cbn [app data_received].
  unfold process_byte at 1. cbn [stage].
  unfold process_byte at 1. cbn [stage set_stage].
  unfold process_byte at 1. cbn [stage set_stage]. change (220 =? 220) with true.
  cbv beta iota.
  unfold process_byte at 1.
  cbn [transport stage data p_len p_cnt screen_data on_screen_update calls
       set_stage].
  change (186 =? 186) with true. cbv beta iota.
  destruct (parse_packet _ body) as [s' [e|]]; reflexivity.
Qed.

Lemma parse_screen_frame (self s : QuanshengComm) (d : list Z) (diff : Z)
      (r : result Screen) :
  parse_screen self d diff = (s, r) ->
  stage s = stage self /\ calls s = calls self.
Proof.
  unfold parse_screen.
  destruct (negb _); [intros [= <- _]; auto|].
  destruct (plot_triplets d _ _) as [scr [e|]];
    [destruct (diff =? 0)|]; intros [= <- _]; auto.
Qed.

Lemma packets_snoc_packet (cs : list Call) (buf : list Z) :
  packets (cs ++ [CallParsePacket buf]) = packets cs ++ [buf].
Proof. unfold packets. rewrite omap_app. reflexivity. Qed.

Lemma packets_snoc_update (cs : list Call) :
  packets (cs ++ [CallOnScreenUpdate]) = packets cs.
Proof. unfold packets. rewrite omap_app. apply app_nil_r. Qed.

(** Whatever [parse_packet] goes on to do, it was entered once, and it
    leaves the stage alone. *)
Lemma parse_packet_calls (self s : QuanshengComm) (buf : list Z)
      (e : option PyError) :
  parse_packet self buf = (s, e) ->
  stage s = stage self /\
  packets (calls s) = packets (calls self) ++ [buf].
Proof.
  unfold parse_packet.
  set (self1 := record_call (CallParsePacket buf) self).
  assert (H1 : stage self1 = stage self /\
               packets (calls self1) = packets (calls self) ++ [buf]).
  { split; [reflexivity|]. apply packets_snoc_packet. }
  destruct (Z.of_nat (length buf) <? 2); [intros [= <- _]; exact H1|].
  destruct (getitem buf 0) as [d0|e0]; cbn [mbind result_bind];
    [|intros [= <- _]; exact H1].
  destruct (getitem buf 1) as [d1|e1]; cbn [mbind result_bind];
    [|intros [= <- _]; exact H1].
  destruct (Z.lor d0 (Z.shiftl d1 8) =? Packet.GetScreen);
    [|intros [= <- _]; exact H1].
  destruct (getitem buf 2) as [d2|e2]; cbn [mbind result_bind];
    [|intros [= <- _]; exact H1].
  destruct (getitem buf 3) as [d3|e3]; cbn [mbind result_bind];
    [|intros [= <- _]; exact H1].
  destruct (getitem buf 4) as [d4|e4]; cbn [mbind result_bind];
    [|intros [= <- _]; exact H1].
  destruct (parse_screen self1 (slice_from 5 buf) d4) as [s' r] eqn:Hps.
  apply parse_screen_frame in Hps. destruct Hps as [Hst Hcs].
  destruct r as [scr|e'].
  - destruct (on_screen_update s'); intros [= <- _].
    + cbn [record_call stage calls]. rewrite packets_snoc_update, Hst, Hcs.
      exact H1.
    + rewrite Hst, Hcs. exact H1.
  - intros [= <- _]. rewrite Hst, Hcs. exact H1.
Qed.

(** C2, as the claim states it, fails: the frame for KeyPress with the
    argument 19 carries 7 ciphered bytes between the length field and the
    footer, and its length field says 5. *)
Lemma length_field_counterexample :
  exists frame,
    send_command connected Packet.KeyPress [ArgInt 19] = Ok (Some frame) /\
    frame = [0xAB; 0xCD; 5; 0; 23; 100; 21; 230; 61; 97; 55; 0xDC; 0xBA] /\
    frame_len_field frame = 5 /\
    Z.of_nat (length (ciphered_region frame)) = 7 /\
    frame_len_field frame <> Z.of_nat (length (ciphered_region frame)).
Proof.
  eexists. split; [vm_compute; reflexivity|].
  split; [reflexivity|]. split; [reflexivity|]. split; [reflexivity|].
  vm_compute. discriminate.
Qed.

(** C2, amended: whenever [send_command] writes a frame, its length field
    is, modulo 2^16, the size of the ciphered region without the two CRC
    bytes, that is 2 bytes of command id, 2 bytes of parameter count, and
    the serialized arguments; the ciphered region is two bytes longer than
    the field says. *)
Theorem length_field_excludes_crc
  (self : QuanshengComm) (cmd : Z) (args : list Arg) (frame : list Z) :
  send_command self cmd args = Ok (Some frame) ->
  exists params,
    serialize_args [] args = Ok params /\
    Z.of_nat (length (ciphered_region frame)) =
      2 + 2 + Z.of_nat (length params) + 2 /\
    frame_len_field frame =
      (Z.of_nat (length (ciphered_region frame)) - 2) mod 2 ^ 16.
Proof.
  intros Hsend.
  destruct (send_command_written self cmd args frame Hsend)
    as (params & Hser & ->).
  exists params. split; [exact Hser|].
  pose proof (frame_of_region cmd params) as Hreg. cbv zeta in Hreg.
  rewrite Hreg, length_app, cipher_from_length, plain_body_length.
  cbn [length]. split; [lia|].
  unfold frame_len_field, frame_of. cbn [app lookup_total list_lookup_total].
  rewrite le16_split, plain_body_length. f_equal. lia.
Qed.

Lemma length_field_excludes_crc_witness :
  exists params,
    serialize_args [] [ArgInt 19] = Ok params /\
    Z.of_nat (length (ciphered_region
       [0xAB; 0xCD; 5; 0; 23; 100; 21; 230; 61; 97; 55; 0xDC; 0xBA])) =
      2 + 2 + Z.of_nat (length params) + 2 /\
    frame_len_field
       [0xAB; 0xCD; 5; 0; 23; 100; 21; 230; 61; 97; 55; 0xDC; 0xBA] =
      (Z.of_nat (length (ciphered_region
         [0xAB; 0xCD; 5; 0; 23; 100; 21; 230; 61; 97; 55; 0xDC; 0xBA])) - 2)
      mod 2 ^ 16.
Proof.
  apply (length_field_excludes_crc connected Packet.KeyPress [ArgInt 19]).
  vm_compute. reflexivity.
Defined.

(** C1, as the claim states it, fails.  The frame for KeyPress with the
    argument 19 decodes to a buffer whose bytes after the command id are
    01 00 13, not the serialized argument 13 alone.  65533 argument bytes,
    which with the command id stay within 0xFFFF, make the length field
    wrap to 1: the parser then hands nothing to [parse_packet].  And an
    integer argument below zero, which is below 2^32, makes [send_command]
    raise before anything is written. *)
Lemma roundtrip_counterexample :
  (exists frame s,
     send_command connected Packet.KeyPress [ArgInt 19] = Ok (Some frame) /\
     serialize_args [] [ArgInt 19] = Ok [19] /\
     data_received init frame = (s, None) /\
     packets (calls s) = [[0x01; 0x08; 0x01; 0x00; 0x13]] /\
     drop 2 [0x01; 0x08; 0x01; 0x00; 0x13] <> [19]) /\
  (let args := [ArgBytes (replicate (Z.to_nat 65533) Byte.x00)] in
   exists frame params,
     send_command connected Packet.KeyPress args = Ok (Some frame) /\
     serialize_args [] args = Ok params /\
     2 + Z.of_nat (length params) <= 0xFFFF /\
     packets (calls (data_received init frame).1) = []) /\
  send_command connected Packet.KeyPress [ArgInt (-1)] = Raise ValueError.
Proof.
  split; [|split; [|reflexivity]].
  - eexists. eexists. split; [vm_compute; reflexivity|].
    split; [reflexivity|]. split; [vm_compute; reflexivity|].
    split; [reflexivity|]. discriminate.
  - cbv zeta.
    exists (frame_of Packet.KeyPress
              (byte_val <$> replicate (Z.to_nat 65533) Byte.x00)),
           (byte_val <$> replicate (Z.to_nat 65533) Byte.x00).
    split; [apply send_command_frame; reflexivity|].
    split; [reflexivity|].
    split; [rewrite length_fmap, length_replicate; lia|].
    vm_compute. reflexivity.
Qed.

(** C1, amended: for a 16-bit command id and arguments whose integers are
    in [0, 2^32), the parameters serialize; and when the command id, the
    2-byte parameter count and the parameters together are at most 0xFFFF
    bytes, feeding the written frame byte by byte from any Idle state enters
    [parse_packet] exactly once, at the last byte, with a buffer whose two
    leading bytes read little-endian as the command id and whose remaining
    bytes are the parameter count, as two bytes low first, followed by the
    serialized arguments; the stage is Idle again afterwards. *)
Theorem send_command_roundtrip
  (self s : QuanshengComm) (cmd : Z) (args : list Arg) :
  transport self = true ->
  stage s = Idle ->
  0 <= cmd < 2 ^ 16 ->
  Forall arg_in_range args ->
  exists params,
    serialize_args [] args = Ok params /\
    (4 + Z.of_nat (length params) <= 0xFFFF ->
     exists frame s' e lo hi,
       send_command self cmd args = Ok (Some frame) /\
       data_received s frame = (s', e) /\
       stage s' = Idle /\
       packets (calls s') =
         packets (calls s)
           ++ [lo :: hi
                 :: Z.land (Z.of_nat (length params)) 0xFF
                 :: Z.land (Z.shiftr (Z.of_nat (length params)) 8) 0xFF
                 :: params] /\
       le16 lo hi = cmd).
Proof.
  intros Ht Hs Hcmd Hargs.
  destruct (serialize_args_bytes args [] Hargs (Forall_nil_2 _))
    as (params & Hser & Hbytes).
  exists params. split; [exact Hser|]. intros Hlen.
  destruct (parse_packet
              (mkComm (transport s) Idle (plain_body cmd params)
                      (Z.of_nat (length (plain_body cmd params)))
                      (Z.of_nat (length (plain_body cmd params)))
                      (screen_data s) (on_screen_update s) (calls s))
              (plain_body cmd params)) as [s' e] eqn:Hpp.
  exists (frame_of cmd params), s', e,
         (Z.land cmd 0xFF), (Z.land (Z.shiftr cmd 8) 0xFF).
  split; [apply send_command_frame; assumption|].
  split; [rewrite (frame_decoded s cmd params Hs Hbytes Hlen); exact Hpp|].
  apply parse_packet_calls in Hpp. destruct Hpp as [Hst Hcalls].
  split; [exact Hst|]. split; [exact Hcalls|].
  rewrite le16_split. apply Z.mod_small. exact Hcmd.
Qed.

Lemma send_command_roundtrip_witness :
  exists params,
    serialize_args [] [ArgInt 19] = Ok params /\
    (4 + Z.of_nat (length params) <= 0xFFFF ->
     exists frame s' e lo hi,
       send_command connected Packet.KeyPress [ArgInt 19] = Ok (Some frame) /\
       data_received init frame = (s', e) /\
       stage s' = Idle /\
       packets (calls s') =
         packets (calls init)
           ++ [lo :: hi
                 :: Z.land (Z.of_nat (length params)) 0xFF
                 :: Z.land (Z.shiftr (Z.of_nat (length params)) 8) 0xFF
                 :: params] /\
       le16 lo hi = Packet.KeyPress).
Proof.
  apply (send_command_roundtrip connected init Packet.KeyPress [ArgInt 19]).
  - reflexivity.
  - reflexivity.
  - unfold Packet.KeyPress. lia.
  - repeat constructor; simpl; lia.
Defined.

(** * Further properties of the protocol engine *)

(** ** Noise, resynchronisation and dropped frames *)

Lemma noise_skipped (s : QuanshengComm) (bytes : list Z) :
  stage s = Idle -> Forall not_sync bytes ->
  data_received s bytes = (s, None).
Proof.
  intros Hs Hn. induction Hn as [|b bytes [Hab Hb5] _ IH]; [reflexivity|].
  cbn [data_received]. unfold process_byte. rewrite Hs.
  destruct (Z.eqb_spec b 0xAB); [contradiction|].
  destruct (Z.eqb_spec b 0xB5); [contradiction|].
  exact IH.
Qed.

(** X1: in the Idle stage every byte other than 0xAB and 0xB5 is dropped:
    a run of such bytes leaves the whole object as it was, calls nothing
    and raises nothing. *)
Theorem idle_ignores_noise (s : QuanshengComm) (bytes : list Z) :
  stage s = Idle -> Forall not_sync bytes ->
  data_received s bytes = (s, None).
Proof. apply noise_skipped. Qed.

Lemma idle_ignores_noise_witness :
  data_received init [0x00; 0xCD; 0xDC; 0xBA; 0xFF] = (init, None).
Proof.
  apply (idle_ignores_noise init [0x00; 0xCD; 0xDC; 0xBA; 0xFF]).
  - reflexivity.
  - repeat constructor; lia.
Defined.

Lemma serialize_arg_ok_bytes (arg : Arg) (p : list Z) :
  serialize_arg arg = Ok p -> Forall is_byte p.
Proof.
  destruct arg as [n|b|l]; simpl.
  - destruct (n <=? 0xFF).
    + destruct (is_byteb n) eqn:Hb; [|discriminate].
      intros [= <-]. constructor; [apply is_byteb_true, Hb|constructor].
    + destruct (n <=? 0xFFFF); intros [= <-];
        repeat (constructor; [apply land_ff_byte|]); constructor.
  - intros [= <-]. apply Forall_fmap, Forall_forall. intros x _.
    unfold compose, byte_val, is_byte.
    pose proof (Byte.to_N_bounded x). lia.
  - intros [= <-]. apply Forall_fmap, Forall_forall. intros x _.
    apply land_ff_byte.
Qed.

Lemma serialize_args_ok_bytes (args : list Arg) :
  forall acc out,
    serialize_args acc args = Ok out -> Forall is_byte acc ->
    Forall is_byte out.
Proof.
  induction args as [|arg args IH]; intros acc out; simpl.
  - intros [= <-]. auto.
  - destruct (serialize_arg arg) as [p|e] eqn:Hp; simpl; [|discriminate].
    intros Hout Hacc. apply (IH _ _ Hout), Forall_app.
    split; [exact Hacc|]. eapply serialize_arg_ok_bytes, Hp.
Qed.

(** X2: resynchronisation.  Any run of bytes free of 0xAB and 0xB5,
    followed by a frame that [send_command] wrote (command id, count and
    parameters within 0xFFFF bytes), enters [parse_packet] exactly once,
    with the frame's plain body; the noise itself produces nothing. *)
Theorem noise_then_frame_is_decoded
  (self s : QuanshengComm) (cmd : Z) (args : list Arg)
  (frame noise : list Z) :
  send_command self cmd args = Ok (Some frame) ->
  stage s = Idle ->
  Forall not_sync noise ->
  Z.of_nat (length frame) <= 0xFFFF + 8 ->
  exists params s' e,
    serialize_args [] args = Ok params /\
    data_received s (noise ++ frame) = (s', e) /\
    stage s' = Idle /\
    packets (calls s') = packets (calls s) ++ [plain_body cmd params].
Proof.
  intros Hsend Hs Hnoise Hlen.
  destruct (send_command_written self cmd args frame Hsend)
    as (params & Hser & ->).
  pose proof (serialize_args_ok_bytes args [] params Hser (Forall_nil_2 _))
    as Hbytes.
  assert (Hn : 4 + Z.of_nat (length params) <= 0xFFFF).
  { revert Hlen. unfold frame_of.
    rewrite !length_app, cipher_from_length, plain_body_length.
    cbn [length]. lia. }
  destruct (data_received s (frame_of cmd params)) as [s' e] eqn:Hrun.
  exists params, s', e. split; [exact Hser|].
  rewrite data_received_app, (noise_skipped s noise Hs Hnoise).
  split; [exact Hrun|].
  rewrite (frame_decoded s cmd params Hs Hbytes Hn) in Hrun.
  apply parse_packet_calls in Hrun. exact Hrun.
Qed.

Lemma noise_then_frame_is_decoded_witness :
  exists params s' e,
    serialize_args [] [ArgInt 19] = Ok params /\
    data_received init
      ([0x00; 0xCD; 0xBA] ++
       [0xAB; 0xCD; 5; 0; 23; 100; 21; 230; 61; 97; 55; 0xDC; 0xBA]) = (s', e) /\
    stage s' = Idle /\
    packets (calls s') =
      packets (calls init) ++ [plain_body Packet.KeyPress params].
Proof.
  apply (noise_then_frame_is_decoded connected init Packet.KeyPress
           [ArgInt 19]
           [0xAB; 0xCD; 5; 0; 23; 100; 21; 230; 61; 97; 55; 0xDC; 0xBA]
           [0x00; 0xCD; 0xBA]).
  - vm_compute. reflexivity.
  - reflexivity.
  - repeat constructor; lia.
  - simpl. lia.
Defined.

Lemma set_stage_same (s : QuanshengComm) (st : Stage) :
  stage s = st -> forall st', set_stage st (set_stage st' s) = s.
Proof. intros <- st'. destruct s. reflexivity. Qed.

(** X3: a 0xAB seen in the Idle stage uses up the next byte too.  When
    that byte is not 0xCD both are gone and the object is as before, even
    when the second byte is itself 0xAB: a frame that directly follows a
    stray 0xAB is not picked up at its own sync bytes. *)
Theorem sync_candidate_consumes_next_byte
  (s : QuanshengComm) (b : Z) (rest : list Z) :
  stage s = Idle -> b <> 0xCD ->
  data_received s (0xAB :: b :: rest) = data_received s rest /\
  data_received s (0xAB :: 0xAB :: 0xCD :: rest) = data_received s rest.
Proof.
  intros Hs Hb.
  assert (Hstep : forall x tl, x <> 0xCD ->
            data_received s (0xAB :: x :: tl) = data_received s tl).
  { intros x tl Hx. cbn [data_received]. unfold process_byte at 1.
    rewrite Hs. cbn [Z.eqb Pos.eqb]. unfold process_byte at 1.
    cbn [stage set_stage].
    destruct (Z.eqb_spec x 0xCD); [contradiction|].
    rewrite (set_stage_same s Idle Hs). reflexivity. }
  split; [apply Hstep, Hb|].
  rewrite Hstep by discriminate.
  cbn [data_received]. unfold process_byte at 1. rewrite Hs. reflexivity.
Qed.

Lemma sync_candidate_consumes_next_byte_witness :
  data_received init (0xAB :: 0x00 :: [0xAB; 0xCD; 1; 0]) =
    data_received init [0xAB; 0xCD; 1; 0] /\
  data_received init (0xAB :: 0xAB :: 0xCD :: [0xAB; 0xCD; 1; 0]) =
    data_received init [0xAB; 0xCD; 1; 0].
Proof.
  apply (sync_candidate_consumes_next_byte init 0x00 [0xAB; 0xCD; 1; 0]).
  - reflexivity.
  - lia.
Defined.

Lemma frame_body_received (s : QuanshengComm) (cmd : Z) (params : list Z) :
  stage s = Idle ->
  Forall is_byte params ->
  4 + Z.of_nat (length params) <= 0xFFFF ->
  let body := plain_body cmd params in
  let n := Z.of_nat (length body) in
  forall c1 c2,
    data_received s
      ([0xAB; 0xCD; Z.land n 0xFF; Z.land (Z.shiftr n 8) 0xFF]
         ++ cipher_from 0 body ++ [c1; c2]) =
    (mkComm (transport s) DC body n n
            (screen_data s) (on_screen_update s) (calls s), None).
Proof.
  intros Hs Hp Hn. cbv zeta. intros c1 c2.
  destruct s as [t st acc L k scr cb cs].
  cbn [stage] in Hs. subst st.
  set (body := plain_body cmd params).
  assert (Hlen : Z.of_nat (length body) = 4 + Z.of_nat (length params)).
  { unfold body. rewrite plain_body_length. lia. }
  set (n := Z.of_nat (length body)) in *.
  rewrite data_received_app.
  assert (Hhead :
    data_received (mkComm t Idle acc L k scr cb cs)
      [0xAB; 0xCD; Z.land n 0xFF; Z.land (Z.shiftr n 8) 0xFF] =
    (mkComm t Data [] n 0 scr cb cs, None)).
  { cbn. do 2 f_equal.
    change (Z.lor (Z.land n 255) (Z.shiftl (Z.land (Z.shiftr n 8) 255) 8))
      with (le16 (Z.land n 0xFF) (Z.land (Z.shiftr n 8) 0xFF)).
    rewrite le16_split, Z.mod_small by lia. reflexivity. }
  rewrite Hhead, data_received_app.
  rewrite (data_stage_run body t [] n 0 scr cb cs);
    [|unfold body, plain_body; discriminate
     |apply plain_body_bytes, Hp|lia].
  reflexivity.
Qed.

Lemma frame_of_split (cmd : Z) (params : list Z) :
  let body := plain_body cmd params in
  let n := Z.of_nat (length body) in
  exists c1 c2,
    frame_of cmd params =
    ([0xAB; 0xCD; Z.land n 0xFF; Z.land (Z.shiftr n 8) 0xFF]
       ++ cipher_from 0 body ++ [c1; c2]) ++ [0xDC; 0xBA].
Proof.
  cbv zeta. unfold frame_of. eexists. eexists.
  rewrite <- !app_assoc. reflexivity.
Qed.

(** X4: a damaged footer drops the frame without a trace.  Take a frame
    [send_command] wrote, at most 0xFFFF + 8 bytes long (so that its length
    field holds the length of its body), and replace its last two bytes: if
    the first is not 0xDC, or the second is not 0xBA, [parse_packet] is not
    called, nothing is raised and the bitmap is untouched; with a good 0xDC
    and a bad last byte the parser is back in Idle. *)
Theorem damaged_footer_drops_frame
  (self s : QuanshengComm) (cmd : Z) (args : list Arg)
  (frame : list Z) (f1 f2 : Z) :
  send_command self cmd args = Ok (Some frame) ->
  stage s = Idle ->
  Z.of_nat (length frame) <= 0xFFFF + 8 ->
  f1 <> 0xDC \/ f2 <> 0xBA ->
  exists s',
    data_received s (take (length frame - 2) frame ++ [f1; f2]) = (s', None) /\
    calls s' = calls s /\
    screen_data s' = screen_data s /\
    (f1 = 0xDC -> stage s' = Idle).
Proof.
  intros Hsend Hs Hlen Hbad.
  destruct (send_command_written self cmd args frame Hsend)
    as (params & Hser & ->).
  pose proof (serialize_args_ok_bytes args [] params Hser (Forall_nil_2 _))
    as Hbytes.
  assert (Hn : 4 + Z.of_nat (length params) <= 0xFFFF).
  { revert Hlen. unfold frame_of.
    rewrite !length_app, cipher_from_length, plain_body_length.
    cbn [length]. lia. }
  destruct (frame_of_split cmd params) as (c1 & c2 & ->).
  rewrite length_app. cbn [length].
  rewrite Nat.add_sub, take_app_length, data_received_app.
  rewrite (frame_body_received s cmd params Hs Hbytes Hn c1 c2).
  cbn [data_received]. unfold process_byte at 1. cbn [stage set_stage].
  destruct (Z.eqb_spec f1 0xDC) as [Hf1|Hf1].
  - destruct Hbad as [Hbad|Hbad]; [contradiction|].
    unfold process_byte at 1.
    cbn [stage set_stage transport data p_len p_cnt screen_data
         on_screen_update calls].
    destruct (Z.eqb_spec f2 0xBA); [contradiction|].
    eexists. split; [reflexivity|]. auto.
  - unfold process_byte at 1.
    cbn [stage set_stage transport data p_len p_cnt screen_data
         on_screen_update calls].
    destruct (f2 =? 0xAB); [|destruct (f2 =? 0xB5)];
      (eexists; split; [reflexivity|]; repeat split; intros; contradiction).
Qed.

Lemma damaged_footer_drops_frame_witness :
  exists s',
    data_received init
      (take (length [0xAB; 0xCD; 5; 0; 23; 100; 21; 230; 61; 97; 55; 0xDC; 0xBA] - 2)
            [0xAB; 0xCD; 5; 0; 23; 100; 21; 230; 61; 97; 55; 0xDC; 0xBA]
         ++ [0xDC; 0xBB]) = (s', None) /\
    calls s' = calls init /\
    screen_data s' = screen_data init /\
    (0xDC = 0xDC -> stage s' = Idle).
Proof.
  apply (damaged_footer_drops_frame connected init Packet.KeyPress [ArgInt 19]
           [0xAB; 0xCD; 5; 0; 23; 100; 21; 230; 61; 97; 55; 0xDC; 0xBA]
           0xDC 0xBB).
  - vm_compute. reflexivity.
  - reflexivity.
  - simpl. lia.
  - right. lia.
Defined.

(** ** What [parse_packet] does with a buffer *)

Lemma packet_cmd_cons (d0 d1 : Z) (rest : list Z) :
  packet_cmd (d0 :: d1 :: rest) = Some (le16 d0 d1).
Proof. reflexivity. Qed.

Lemma packet_cmd_some (buf : list Z) (cmd : Z) :
  packet_cmd buf = Some cmd ->
  exists d0 d1 rest, buf = d0 :: d1 :: rest /\ le16 d0 d1 = cmd.
Proof.
  destruct buf as [|d0 [|d1 rest]]; try discriminate.
  intros [= <-]. eauto.
Qed.

Lemma parse_packet_other (self : QuanshengComm) (buf : list Z) :
  packet_cmd buf <> Some Packet.GetScreen ->
  parse_packet self buf = (record_call (CallParsePacket buf) self, None).
Proof.
  intros Hcmd. unfold parse_packet.
  destruct buf as [|d0 [|d1 rest]]; try reflexivity.
  destruct (Z.ltb_spec (Z.of_nat (length (d0 :: d1 :: rest))) 2) as [H|_];
    [cbn [length] in H; lia|].
  rewrite (getitem_lookup (d0 :: d1 :: rest) 0 d0 eq_refl
           : getitem _ 0 = Ok d0).
  rewrite (getitem_lookup (d0 :: d1 :: rest) 1 d1 eq_refl
           : getitem _ 1 = Ok d1).
  cbn [mbind result_bind].
  destruct (Z.eqb_spec (Z.lor d0 (Z.shiftl d1 8)) Packet.GetScreen) as [E|_];
    [|reflexivity].
  exfalso. apply Hcmd. rewrite packet_cmd_cons. unfold le16. congruence.
Qed.

Lemma parse_packet_screen (self : QuanshengComm)
      (d0 d1 d2 d3 d4 : Z) (payload : list Z) :
  le16 d0 d1 = Packet.GetScreen ->
  let buf := d0 :: d1 :: d2 :: d3 :: d4 :: payload in
  let self1 := record_call (CallParsePacket buf) self in
  parse_packet self buf =
  match parse_screen self1 payload d4 with
  | (self', Raise e) => (self', Some e)
  | (self', Ok _) =>
      if on_screen_update self'
      then (record_call CallOnScreenUpdate self', None)
      else (self', None)
  end.
Proof.
  intros Hcmd. cbv zeta.
  rewrite (parse_packet_get_screen self (d0 :: d1 :: d2 :: d3 :: d4 :: payload)
             d0 d1 eq_refl eq_refl Hcmd).
  cbv zeta.
  rewrite (getitem_lookup (d0 :: d1 :: d2 :: d3 :: d4 :: payload) 2 d2 eq_refl
           : getitem _ 2 = Ok d2).
  rewrite (getitem_lookup (d0 :: d1 :: d2 :: d3 :: d4 :: payload) 3 d3 eq_refl
           : getitem _ 3 = Ok d3).
  rewrite (getitem_lookup (d0 :: d1 :: d2 :: d3 :: d4 :: payload) 4 d4 eq_refl
           : getitem _ 4 = Ok d4).
  reflexivity.
Qed.

Lemma parse_screen_bad_length (self : QuanshengComm) (payload : list Z) (diff : Z) :
  Z.of_nat (length payload) mod 3 <> 0 ->
  parse_screen self payload diff = (self, Raise ValueError).
Proof.
  intros Hm. unfold parse_screen.
  destruct (Z.eqb_spec (Z.of_nat (length payload) mod 3) 0);
    [contradiction|reflexivity].
Qed.

Lemma parse_packet_screen_ok (self : QuanshengComm)
      (d0 d1 d2 d3 d4 : Z) (payload : list Z) :
  le16 d0 d1 = Packet.GetScreen ->
  Forall is_byte payload ->
  Z.of_nat (length payload) mod 3 = 0 ->
  screen_ok (screen_data self) ->
  let buf := d0 :: d1 :: d2 :: d3 :: d4 :: payload in
  let self1 := record_call (CallParsePacket buf) self in
  exists scr,
    parse_screen self1 payload d4 = (set_screen_data scr self1, Ok scr) /\
    screen_ok scr /\
    parse_packet self buf =
      (if on_screen_update self
       then record_call CallOnScreenUpdate (set_screen_data scr self1)
       else set_screen_data scr self1, None).
Proof.
  intros Hle Hb Hm Hok. cbv zeta.
  rewrite (parse_packet_screen self d0 d1 d2 d3 d4 payload Hle).
  cbv zeta.
  set (self1 := record_call _ self).
  destruct (parse_screen_returns self1 payload d4 Hb Hm (or_intror Hok))
    as (scr & Hret & Hscr & _).
  exists scr. rewrite Hret. split; [reflexivity|]. split; [exact Hscr|].
  cbn [on_screen_update set_screen_data record_call self1].
  destruct (on_screen_update self); reflexivity.
Qed.

Lemma parse_packet_cases (self : QuanshengComm) (buf : list Z) :
  Forall is_byte buf ->
  screen_ok (screen_data self) ->
  let self1 := record_call (CallParsePacket buf) self in
  let n := Z.of_nat (length buf) in
  (packet_cmd buf <> Some Packet.GetScreen ->
   parse_packet self buf = (self1, None)) /\
  (packet_cmd buf = Some Packet.GetScreen -> n < 5 ->
   parse_packet self buf = (self1, Some IndexError)) /\
  (packet_cmd buf = Some Packet.GetScreen -> 5 <= n -> (n - 5) mod 3 <> 0 ->
   parse_packet self buf = (self1, Some ValueError)) /\
  (packet_cmd buf = Some Packet.GetScreen -> 5 <= n -> (n - 5) mod 3 = 0 ->
   exists scr,
     parse_screen self1 (drop 5 buf) (buf !!! 4%nat) =
       (set_screen_data scr self1, Ok scr) /\
     screen_ok scr /\
     parse_packet self buf =
       (if on_screen_update self
        then record_call CallOnScreenUpdate (set_screen_data scr self1)
        else set_screen_data scr self1, None)).
Proof.
  intros Hb Hok. cbv zeta.
  split; [apply parse_packet_other|].
  split; [|split].
  - intros Hcmd Hn.
    destruct (packet_cmd_some buf _ Hcmd) as (d0 & d1 & rest & -> & Hle).
    rewrite (parse_packet_get_screen self (d0 :: d1 :: rest)
               d0 d1 eq_refl eq_refl Hle).
    destruct rest as [|d2 [|d3 [|d4 rest]]]; try reflexivity.
    cbn [length] in Hn. lia.
  - intros Hcmd Hn Hm.
    destruct (packet_cmd_some buf _ Hcmd) as (d0 & d1 & rest & -> & Hle).
    destruct rest as [|d2 [|d3 [|d4 payload]]]; cbn [length] in Hn; try lia.
    rewrite (parse_packet_screen self d0 d1 d2 d3 d4 payload Hle).
    rewrite parse_screen_bad_length; [reflexivity|].
    cbn [length] in Hm.
    replace (Z.of_nat (length payload))
      with (Z.of_nat (S (S (S (S (S (length payload)))))) - 5) by lia.
    exact Hm.
  - intros Hcmd Hn Hm.
    destruct (packet_cmd_some buf _ Hcmd) as (d0 & d1 & rest & -> & Hle).
    destruct rest as [|d2 [|d3 [|d4 payload]]]; cbn [length] in Hn; try lia.
    change (drop 5 (d0 :: d1 :: d2 :: d3 :: d4 :: payload)) with payload.
    change ((d0 :: d1 :: d2 :: d3 :: d4 :: payload) !!! 4%nat) with d4.
    apply (parse_packet_screen_ok self d0 d1 d2 d3 d4 payload Hle).
    + do 5 (apply Forall_inv_tail in Hb). exact Hb.
    + cbn [length] in Hm.
      replace (Z.of_nat (length payload))
        with (Z.of_nat (S (S (S (S (S (length payload)))))) - 5) by lia.
      exact Hm.
    + exact Hok.
Qed.

(** X5: the four things [parse_packet] can do, on a buffer of bytes and a
    well-shaped bitmap.  A buffer that does not start with the GetScreen id
    (or has fewer than two bytes) is only logged: no error, no change, no
    callback.  A GetScreen buffer of fewer than 5 bytes raises [IndexError];
    one whose bytes after the fifth are not whole triplets raises
    [ValueError]; in both cases nothing else changed.  Otherwise the call
    returns, the bitmap is what [parse_screen] made of the bytes after the
    fifth with the fifth as diff flag, and [on_screen_update] is called
    exactly when it is set. *)
Theorem parse_packet_outcomes (self : QuanshengComm) (buf : list Z) :
  Forall is_byte buf ->
  screen_ok (screen_data self) ->
  let self1 := record_call (CallParsePacket buf) self in
  let n := Z.of_nat (length buf) in
  (packet_cmd buf <> Some Packet.GetScreen ->
   parse_packet self buf = (self1, None)) /\
  (packet_cmd buf = Some Packet.GetScreen -> n < 5 ->
   parse_packet self buf = (self1, Some IndexError)) /\
  (packet_cmd buf = Some Packet.GetScreen -> 5 <= n -> (n - 5) mod 3 <> 0 ->
   parse_packet self buf = (self1, Some ValueError)) /\
  (packet_cmd buf = Some Packet.GetScreen -> 5 <= n -> (n - 5) mod 3 = 0 ->
   exists scr,
     parse_screen self1 (drop 5 buf) (buf !!! 4%nat) =
       (set_screen_data scr self1, Ok scr) /\
     screen_ok scr /\
     parse_packet self buf =
       (if on_screen_update self
        then record_call CallOnScreenUpdate (set_screen_data scr self1)
        else set_screen_data scr self1, None)).
Proof. apply parse_packet_cases. Qed.

Lemma parse_packet_outcomes_witness :
  let buf := [0x03; 0x08; 0; 0; 0; 0x01; 0; 0] in
  let self1 := record_call (CallParsePacket buf) init in
  let n := Z.of_nat (length buf) in
  (packet_cmd buf <> Some Packet.GetScreen ->
   parse_packet init buf = (self1, None)) /\
  (packet_cmd buf = Some Packet.GetScreen -> n < 5 ->
   parse_packet init buf = (self1, Some IndexError)) /\
  (packet_cmd buf = Some Packet.GetScreen -> 5 <= n -> (n - 5) mod 3 <> 0 ->
   parse_packet init buf = (self1, Some ValueError)) /\
  (packet_cmd buf = Some Packet.GetScreen -> 5 <= n -> (n - 5) mod 3 = 0 ->
   exists scr,
     parse_screen self1 (drop 5 buf) (buf !!! 4%nat) =
       (set_screen_data scr self1, Ok scr) /\
     screen_ok scr /\
     parse_packet init buf =
       (if on_screen_update init
        then record_call CallOnScreenUpdate (set_screen_data scr self1)
        else set_screen_data scr self1, None)).
Proof.
  apply (parse_packet_outcomes init [0x03; 0x08; 0; 0; 0; 0x01; 0; 0]).
  - repeat constructor; lia.
  - apply screen_ok_zeros.
Defined.

(** ** Invariants of the receive path *)

Lemma lor_below (n a b : Z) :
  0 <= n -> 0 <= a < 2 ^ n -> 0 <= b < 2 ^ n -> 0 <= Z.lor a b < 2 ^ n.
Proof.
  intros Hn Ha Hb.
  assert (Hnn : 0 <= Z.lor a b) by (apply Z.lor_nonneg; lia).
  split; [exact Hnn|].
  destruct (Z.eq_dec (Z.lor a b) 0) as [->|Hx]; [apply Z.pow_pos_nonneg; lia|].
  assert (Hpos : 0 < n).
  { destruct (Z.eq_dec n 0) as [->|]; [|lia].
    change (2 ^ 0) with 1 in *.
    assert (a = 0) as -> by lia. assert (b = 0) as -> by lia.
    contradiction. }
  apply Z.log2_lt_pow2; [lia|].
  rewrite Z.log2_lor by lia.
  apply Z.max_lub_lt.
  - destruct (Z.eq_dec a 0) as [->|]; [simpl|apply Z.log2_lt_pow2]; lia.
  - destruct (Z.eq_dec b 0) as [->|]; [simpl|apply Z.log2_lt_pow2]; lia.
Qed.

Lemma crypt_byte_iff (b i : Z) : is_byte (crypt b i) <-> is_byte b.
Proof.
  split; [|apply crypt_byte].
  intros H. rewrite <- (crypt_involutive b i). apply crypt_byte, H.
Qed.

(** Where [parse_packet] leaves the object: the call is logged, the bitmap
    may be another one, the callback may be logged, and that is all. *)
Lemma parse_packet_shape (self s : QuanshengComm) (buf : list Z)
      (e : option PyError) :
  parse_packet self buf = (s, e) ->
  exists scr cs,
    s = mkComm (transport self) (stage self) (data self) (p_len self)
               (p_cnt self) scr (on_screen_update self) cs.
Proof.
  assert (Hself : forall x : QuanshengComm, exists scr cs,
            x = mkComm (transport x) (stage x) (data x) (p_len x)
                       (p_cnt x) scr (on_screen_update x) cs)
    by (intros [? ? ? ? ? scr ? cs]; exists scr, cs; reflexivity).
  unfold parse_packet.
  set (self1 := record_call (CallParsePacket buf) self).
  assert (H1 : exists scr cs,
            self1 = mkComm (transport self) (stage self) (data self)
                           (p_len self) (p_cnt self) scr
                           (on_screen_update self) cs)
    by (destruct self; do 2 eexists; reflexivity).
  destruct (Z.of_nat (length buf) <? 2); [intros [= <- _]; exact H1|].
  destruct (getitem buf 0) as [d0|e0]; cbn [mbind result_bind];
    [|intros [= <- _]; exact H1].
  destruct (getitem buf 1) as [d1|e1]; cbn [mbind result_bind];
    [|intros [= <- _]; exact H1].
  destruct (Z.lor d0 (Z.shiftl d1 8) =? Packet.GetScreen);
    [|intros [= <- _]; exact H1].
  destruct (getitem buf 2) as [d2|e2]; cbn [mbind result_bind];
    [|intros [= <- _]; exact H1].
  destruct (getitem buf 3) as [d3|e3]; cbn [mbind result_bind];
    [|intros [= <- _]; exact H1].
  destruct (getitem buf 4) as [d4|e4]; cbn [mbind result_bind];
    [|intros [= <- _]; exact H1].
  destruct (parse_screen self1 (slice_from 5 buf) d4) as [s' r] eqn:Hps.
  assert (H2 : exists scr cs,
            s' = mkComm (transport self) (stage self) (data self)
                        (p_len self) (p_cnt self) scr
                        (on_screen_update self) cs).
  { revert Hps. unfold parse_screen.
    destruct H1 as (scr1 & cs1 & ->).
    destruct (negb _); [intros [= <- _]; eauto|].
    destruct (plot_triplets _ _ _) as [scr [e'|]];
      [destruct (d4 =? 0)|]; intros [= <- _];
      cbn [set_screen_data transport stage data p_len p_cnt
           on_screen_update calls]; eauto. }
  destruct H2 as (scr2 & cs2 & ->).
  destruct r as [scr|e'].
  - cbn [on_screen_update]. destruct (on_screen_update self);
      intros [= <- _]; cbn [record_call transport stage data p_len p_cnt
                           screen_data on_screen_update calls]; eauto.
  - intros [= <- _]. eauto.
Qed.

Lemma parse_packet_screen_stays_ok (self : QuanshengComm) (buf : list Z) :
  Forall is_byte buf -> screen_ok (screen_data self) ->
  screen_ok (screen_data (parse_packet self buf).1).
Proof.
  intros Hb Hok.
  destruct (parse_packet_cases self buf Hb Hok) as (H1 & H2 & H3 & H4).
  destruct (decide (packet_cmd buf = Some Packet.GetScreen)) as [Hc|Hc];
    [|rewrite (H1 Hc); exact Hok].
  destruct (Z.lt_ge_cases (Z.of_nat (length buf)) 5) as [Hn|Hn];
    [rewrite (H2 Hc Hn); exact Hok|].
  destruct (Z.eq_dec ((Z.of_nat (length buf) - 5) mod 3) 0) as [Hm|Hm];
    [|rewrite (H3 Hc Hn Hm); exact Hok].
  destruct (H4 Hc Hn Hm) as (scr & _ & Hscr & ->).
  destruct (on_screen_update self); exact Hscr.
Qed.

Lemma process_byte_state_ok (self : QuanshengComm) (byte : Z) :
  state_ok self -> state_ok (process_byte self byte).1.
Proof.
  intros [Hd Hs]. unfold state_ok, process_byte.
  destruct (stage self) eqn:Hst;
    repeat match goal with
           | |- context [if ?b then _ else _] => destruct b eqn:?
           end;
    cbn [fst set_stage set_data set_p_cnt set_p_len data screen_data];
    try (split; [assumption|assumption]).
  - split; [constructor|exact Hs].
  - split; [|exact Hs]. apply Forall_app. split; [exact Hd|].
    constructor; [|constructor]. apply is_byteb_true. assumption.
  - split; [|exact Hs]. apply Forall_app. split; [exact Hd|].
    constructor; [|constructor]. apply is_byteb_true. assumption.
  - change (data (set_stage Idle self)) with (data self).
    destruct (parse_packet (set_stage Idle self) (data self)) as [s e] eqn:Hpp.
    pose proof (parse_packet_screen_stays_ok (set_stage Idle self) (data self)
                  Hd Hs) as Hscr.
    rewrite Hpp in Hscr.
    destruct (parse_packet_shape _ _ _ _ Hpp) as (scr & cs & ->).
    split; [exact Hd|exact Hscr].
Qed.

Lemma data_received_state_ok (bytes : list Z) :
  forall s, state_ok s -> state_ok (data_received s bytes).1.
Proof.
  induction bytes as [|b bytes IH]; intros s Hs; [exact Hs|].
  cbn [data_received].
  pose proof (process_byte_state_ok s b Hs) as Hstep.
  destruct (process_byte s b) as [s' [e|]]; [exact Hstep|].
  apply IH, Hstep.
Qed.

(** X6: whatever integers are fed, bytes or not, and whether or not a call
    raises, the receive buffer only ever holds bytes and the bitmap stays 64
    rows of 128 values 0 or 1.  This holds of a fresh object and is kept by
    every call of [data_received]. *)
Theorem buffer_and_bitmap_stay_well_formed
  (s : QuanshengComm) (bytes : list Z) :
  state_ok s ->
  state_ok init /\ state_ok (data_received s bytes).1.
Proof.
  intros Hs. split; [|apply data_received_state_ok, Hs].
  split; [constructor|apply screen_ok_zeros].
Qed.

Lemma buffer_and_bitmap_stay_well_formed_witness :
  state_ok init /\
  state_ok (data_received init
              [0xAB; 0xCD; 1; 0; 300; -5; 0xAB; 0xCD; 2; 0; 7; 9]).1.
Proof.
  apply (buffer_and_bitmap_stay_well_formed init
           [0xAB; 0xCD; 1; 0; 300; -5; 0xAB; 0xCD; 2; 0; 7; 9]).
  split; [constructor|apply screen_ok_zeros].
Defined.

Lemma process_byte_framing_ok (self : QuanshengComm) (byte : Z) :
  is_byte byte -> framing_ok self -> framing_ok (process_byte self byte).1.
Proof.
  intros Hb [Hcalls Hst]. unfold framing_ok, process_byte in *.
  destruct (stage self) eqn:Hstage.
  - destruct (byte =? 0xAB); [|destruct (byte =? 0xB5)];
      cbn [fst set_stage stage calls]; rewrite ?Hstage; auto.
  - destruct (byte =? 0xCD); cbn [fst set_stage stage calls]; auto.
  - cbn [fst set_stage set_p_len stage calls p_len].
    unfold is_byte in Hb. auto.
  - cbn [fst set_stage set_p_len set_data set_p_cnt stage calls p_len
         p_cnt data length].
    split; [exact Hcalls|]. split; [|split; [reflexivity|left; reflexivity]].
    apply (lor_below 16); [lia|lia|].
    rewrite Z.shiftl_mul_pow2 by lia. unfold is_byte in Hb. lia.
  - destruct Hst as (Hlen & Hcnt & Hlt).
    rewrite (proj2 (is_byteb_true _) (crypt_byte byte (p_cnt self) Hb)).
    cbn [set_data set_p_cnt p_len p_cnt].
    destruct (Z.leb_spec (p_len self) (p_cnt self + 1));
      cbn [fst set_stage set_data set_p_cnt stage calls p_len p_cnt data];
      rewrite ?Hstage;
      (split; [exact Hcalls|]); rewrite length_app; cbn [length]; lia.
  - cbn [fst set_stage stage calls p_len data]. auto.
  - cbn [fst set_stage stage calls p_len data]. auto.
  - destruct (byte =? 0xDC); cbn [fst set_stage stage calls p_len data]; auto.
  - destruct (byte =? 0xBA); [|cbn [fst set_stage stage calls]; auto].
    change (data (set_stage Idle self)) with (data self).
    destruct (parse_packet (set_stage Idle self) (data self)) as [s e] eqn:Hpp.
    destruct (parse_packet_calls _ _ _ _ Hpp) as [Hs' Hp'].
    cbn [fst]. rewrite Hs', Hp'. cbn [set_stage stage calls].
    split; [|exact I]. apply Forall_app. split; [exact Hcalls|].
    constructor; [|constructor]. unfold buffer_sized. lia.
  - cbn [fst]. rewrite Hstage. auto.
Qed.

Lemma data_received_framing_ok (bytes : list Z) :
  Forall is_byte bytes ->
  forall s, framing_ok s -> framing_ok (data_received s bytes).1.
Proof.
  intros Hb. induction Hb as [|b bytes Hb1 _ IH]; intros s Hs; [exact Hs|].
  cbn [data_received].
  pose proof (process_byte_framing_ok s b Hb1 Hs) as Hstep.
  destruct (process_byte s b) as [s' [e|]]; [exact Hstep|].
  apply IH, Hstep.
Qed.

(** X7: along any stream of bytes the counters and the buffer stay in
    step: in the Data stage the buffer holds exactly [p_cnt] bytes, fewer
    than the declared length; from the checksum stages on it holds the
    declared length, or one byte when zero was declared.  So every buffer
    [parse_packet] is ever given has at least 1 and at most 65535 bytes. *)
Theorem parse_packet_buffers_are_sized
  (s : QuanshengComm) (bytes : list Z) :
  framing_ok s ->
  Forall is_byte bytes ->
  framing_ok init /\
  framing_ok (data_received s bytes).1 /\
  Forall buffer_sized (packets (calls (data_received s bytes).1)).
Proof.
  intros Hs Hb.
  pose proof (data_received_framing_ok bytes Hb s Hs) as H.
  split; [split; [constructor|exact I]|].
  split; [exact H|exact (proj1 H)].
Qed.

Lemma parse_packet_buffers_are_sized_witness :
  framing_ok init /\
  framing_ok (data_received init
                [0xAB; 0xCD; 0; 0; 0x55; 0; 0; 0xDC; 0xBA; 0xAB; 0xCD; 2]).1 /\
  Forall buffer_sized
    (packets (calls (data_received init
                [0xAB; 0xCD; 0; 0; 0x55; 0; 0; 0xDC; 0xBA; 0xAB; 0xCD; 2]).1)).
Proof.
  apply (parse_packet_buffers_are_sized init
           [0xAB; 0xCD; 0; 0; 0x55; 0; 0; 0xDC; 0xBA; 0xAB; 0xCD; 2]).
  - split; [constructor|exact I].
  - repeat constructor; lia.
Defined.

Lemma process_byte_quiet (self : QuanshengComm) (byte : Z) :
  is_byte byte ->
  stage self <> BA \/ byte <> 0xBA ->
  exists s,
    process_byte self byte = (s, None) /\
    calls s = calls self /\ screen_data s = screen_data self.
Proof.
  intros Hb Hq. unfold process_byte.
  destruct (stage self) eqn:Hst;
    try (rewrite (proj2 (is_byteb_true _) (crypt_byte byte (p_cnt self) Hb)));
    repeat match goal with
           | |- context [if ?b =? ?c then _ else _] =>
               destruct (Z.eqb_spec b c)
           | |- context [if ?b <=? ?c then _ else _] => destruct (b <=? c)
           end;
    try (eexists; split; [reflexivity|split; reflexivity]).
  destruct Hq as [Hq|Hq]; [congruence|contradiction].
Qed.

(** X8: when [process_byte] can raise.  On a byte, with bytes in the buffer
    and a well-shaped bitmap, the call raises exactly when it completes a
    frame (stage BA, byte 0xBA) whose buffer starts with the GetScreen id
    and either has fewer than 5 bytes or carries, after the fifth, a number
    of bytes that is not a multiple of 3.  A call that does not complete a
    frame neither calls [parse_packet] nor touches the bitmap. *)
Theorem process_byte_raises_exactly_when
  (self : QuanshengComm) (byte : Z) :
  is_byte byte ->
  state_ok self ->
  let n := Z.of_nat (length (data self)) in
  ((process_byte self byte).2 <> None <->
   stage self = BA /\ byte = 0xBA /\
   packet_cmd (data self) = Some Packet.GetScreen /\
   (n < 5 \/ (n - 5) mod 3 <> 0)) /\
  (stage self <> BA \/ byte <> 0xBA ->
   calls (process_byte self byte).1 = calls self /\
   screen_data (process_byte self byte).1 = screen_data self).
Proof.
  intros Hb [Hd Hs]. cbv zeta. split.
  - assert (Hdec : (stage self = BA /\ byte = 0xBA) \/
                   (stage self <> BA \/ byte <> 0xBA)).
    { destruct (Z.eq_dec byte 0xBA); [|right; right; assumption].
      destruct (stage self); try (right; left; discriminate). left. auto. }
    destruct Hdec as [[Hst ->]|Hq'].
    + unfold process_byte. rewrite Hst. cbn [Z.eqb Pos.eqb].
      change (data (set_stage Idle self)) with (data self).
      destruct (parse_packet_cases (set_stage Idle self) (data self) Hd Hs)
        as (H1 & H2 & H3 & H4).
      destruct (decide (packet_cmd (data self) = Some Packet.GetScreen))
        as [Hc|Hc].
      * destruct (Z.lt_ge_cases (Z.of_nat (length (data self))) 5) as [Hn|Hn].
        { rewrite (H2 Hc Hn). cbn [snd]. split; [auto|discriminate]. }
        destruct (Z.eq_dec ((Z.of_nat (length (data self)) - 5) mod 3) 0)
          as [Hm|Hm].
        { destruct (H4 Hc Hn Hm) as (scr & _ & _ & ->). cbn [snd].
          split; [congruence|]. intros (_ & _ & _ & [?|?]); [lia|contradiction]. }
        rewrite (H3 Hc Hn Hm). cbn [snd]. split; [auto|discriminate].
      * rewrite (H1 Hc). cbn [snd]. split; [congruence|tauto].
    + destruct (process_byte_quiet self byte Hb Hq') as (s & -> & _).
      cbn [snd]. split; [congruence|tauto].
  - intros Hq. destruct (process_byte_quiet self byte Hb Hq) as (s & -> & H).
    exact H.
Qed.

Lemma process_byte_raises_exactly_when_witness :
  let self := mkComm false BA [0x03; 0x08; 0] 3 3 zeros false [] in
  let n := Z.of_nat (length (data self)) in
  ((process_byte self 0xBA).2 <> None <->
   stage self = BA /\ 0xBA = 0xBA /\
   packet_cmd (data self) = Some Packet.GetScreen /\
   (n < 5 \/ (n - 5) mod 3 <> 0)) /\
  (stage self <> BA \/ 0xBA <> 0xBA ->
   calls (process_byte self 0xBA).1 = calls self /\
   screen_data (process_byte self 0xBA).1 = screen_data self).
Proof.
  apply (process_byte_raises_exactly_when
           (mkComm false BA [0x03; 0x08; 0] 3 3 zeros false []) 0xBA).
  - unfold is_byte. lia.
  - split; [repeat constructor; lia|apply screen_ok_zeros].
Defined.

(** X9: in the Data stage a value outside [0, 256) is refused:
    [process_byte] raises [ValueError] and the object is exactly as before,
    so the frame in progress is still waiting for its byte; fed through
    [data_received], the bytes after it in the same chunk are not
    processed. *)
Theorem data_stage_refuses_non_byte
  (self : QuanshengComm) (byte : Z) (rest : list Z) :
  stage self = Data ->
  ~ is_byte byte ->
  process_byte self byte = (self, Some ValueError) /\
  data_received self (byte :: rest) = (self, Some ValueError).
Proof.
  intros Hst Hb.
  assert (Hstep : process_byte self byte = (self, Some ValueError)).
  { unfold process_byte. rewrite Hst.
    destruct (is_byteb (crypt byte (p_cnt self))) eqn:Hv; [|reflexivity].
    exfalso. apply Hb. eapply crypt_byte_iff, is_byteb_true, Hv. }
  split; [exact Hstep|]. cbn [data_received]. rewrite Hstep. reflexivity.
Qed.

Lemma data_stage_refuses_non_byte_witness :
  process_byte (set_stage Data init) 256 =
    (set_stage Data init, Some ValueError) /\
  data_received (set_stage Data init) (256 :: [1; 2]) =
    (set_stage Data init, Some ValueError).
Proof.
  apply (data_stage_refuses_non_byte (set_stage Data init) 256 [1; 2]).
  - reflexivity.
  - unfold is_byte. lia.
Defined.

(** ** More on the screen decoder *)

(** The outcome of [parse_screen] and the bitmap it leaves depend on the
    object through its bitmap only. *)
Lemma parse_screen_congr (a b : QuanshengComm) (payload : list Z) (diff : Z) :
  screen_data a = screen_data b ->
  (parse_screen a payload diff).2 = (parse_screen b payload diff).2 /\
  screen_data (parse_screen a payload diff).1 =
  screen_data (parse_screen b payload diff).1.
Proof.
  intros Hab. unfold parse_screen. rewrite Hab.
  destruct (negb _); [auto|].
  destruct (plot_triplets _ _ _) as [scr [e|]];
    [destruct (diff =? 0)|]; auto.
Qed.

(** X10: the offset field of a screen packet is read and never used.  Two
    buffers that differ only in bytes 2 and 3 make [parse_packet] end the
    same way, with the same bitmap. *)
Theorem screen_offset_is_ignored
  (self : QuanshengComm) (d0 d1 o1 o2 o1' o2' : Z) (rest : list Z) :
  let buf := d0 :: d1 :: o1 :: o2 :: rest in
  let buf' := d0 :: d1 :: o1' :: o2' :: rest in
  (parse_packet self buf).2 = (parse_packet self buf').2 /\
  screen_data (parse_packet self buf).1 =
  screen_data (parse_packet self buf').1.
Proof.
  cbv zeta.
  destruct (Z.eq_dec (le16 d0 d1) Packet.GetScreen) as [Hc|Hc].
  - destruct rest as [|d4 payload].
    + rewrite (parse_packet_get_screen self [d0; d1; o1; o2]
                 d0 d1 eq_refl eq_refl Hc).
      rewrite (parse_packet_get_screen self [d0; d1; o1'; o2']
                 d0 d1 eq_refl eq_refl Hc).
      split; reflexivity.
    + rewrite (parse_packet_screen self d0 d1 o1 o2 d4 payload Hc).
      rewrite (parse_packet_screen self d0 d1 o1' o2' d4 payload Hc).
      cbv zeta.
      set (a := record_call _ self). set (b := record_call _ self).
      destruct (parse_screen_congr a b payload d4 eq_refl) as [He Hs].
      assert (Hcb : on_screen_update (parse_screen a payload d4).1 =
                    on_screen_update (parse_screen b payload d4).1).
      { unfold parse_screen.
        destruct (negb _); [reflexivity|].
        destruct (plot_triplets _ _ _) as [scr [e|]];
          [destruct (d4 =? 0)|]; reflexivity. }
      destruct (parse_screen a payload d4) as [sa ra],
               (parse_screen b payload d4) as [sb rb].
      cbn [fst snd] in He, Hs, Hcb. subst rb.
      destruct ra as [scr|e]; [|split; [reflexivity|exact Hs]].
      rewrite Hcb. destruct (on_screen_update sb);
        (split; [reflexivity|exact Hs]).
  - rewrite !parse_packet_other
      by (rewrite packet_cmd_cons; congruence).
    split; reflexivity.
Qed.

(** X11: a full update (diff flag 0) forgets the previous bitmap: its
    outcome is the same whatever the bitmap was, it is what an incremental
    update of a blank bitmap gives, and with no triplets at all it leaves
    the blank bitmap. *)
Theorem full_update_forgets_prior_bitmap
  (self self' : QuanshengComm) (payload : list Z) (diff : Z) :
  diff <> 0 ->
  (parse_screen self payload 0).2 = (parse_screen self' payload 0).2 /\
  (parse_screen self payload 0).2 =
    (parse_screen (set_screen_data zeros self) payload diff).2 /\
  parse_screen self [] 0 = (set_screen_data zeros self, Ok zeros).
Proof.
  intros Hd. split; [|split; [|reflexivity]].
  - unfold parse_screen. destruct (negb _); [reflexivity|].
    cbn [Z.eqb].
    destruct (plot_triplets _ _ _) as [scr [e|]]; reflexivity.
  - unfold parse_screen. destruct (negb _); [reflexivity|].
    destruct (Z.eqb_spec diff 0); [contradiction|].
    cbn [Z.eqb set_screen_data screen_data].
    destruct (plot_triplets _ _ _) as [scr [e|]]; reflexivity.
Qed.

Lemma full_update_forgets_prior_bitmap_witness :
  (parse_screen init [0xFF; 3; 1] 0).2 =
    (parse_screen (set_stage Data init) [0xFF; 3; 1] 0).2 /\
  (parse_screen init [0xFF; 3; 1] 0).2 =
    (parse_screen (set_screen_data zeros init) [0xFF; 3; 1] 1).2 /\
  parse_screen init [] 0 = (set_screen_data zeros init, Ok zeros).
Proof.
  apply (full_update_forgets_prior_bitmap init (set_stage Data init)
           [0xFF; 3; 1] 1).
  lia.
Defined.

Lemma pixel_write_same (screen : Screen) (i j : nat) (v : Z) (line : list Z) :
  screen !! i = Some line -> (j < length line)%nat ->
  pixel (<[i := <[j := v]> line]> screen) i j = Some v.
Proof.
  intros Hline Hj. unfold pixel.
  rewrite list_lookup_insert_eq by (eapply lookup_lt_Some, Hline).
  simpl. apply list_lookup_insert_eq, Hj.
Qed.

Lemma pixel_write_ne (screen : Screen) (i j r c : nat) (v : Z) (line : list Z) :
  screen !! i = Some line -> r <> i \/ c <> j ->
  pixel (<[i := <[j := v]> line]> screen) r c = pixel screen r c.
Proof.
  intros Hline Hne. unfold pixel.
  destruct (decide (r = i)) as [->|Hr].
  - rewrite list_lookup_insert_eq by (eapply lookup_lt_Some, Hline).
    rewrite Hline. simpl. apply list_lookup_insert_ne.
    destruct Hne; congruence.
  - rewrite list_lookup_insert_ne by congruence. reflexivity.
Qed.

Lemma plot_bits_pixels (bits : list Z) (pixels col row : Z) :
  NoDup bits ->
  Forall (fun bit => 0 <= bit /\ row + bit < 64) bits ->
  0 <= row -> 0 <= col < 128 ->
  forall screen, screen_ok screen ->
  exists screen',
    plot_bits bits pixels col row screen = (screen', None) /\
    (forall bit, bit ∈ bits ->
       pixel screen' (Z.to_nat (row + bit)) (Z.to_nat col) =
       Some (Z.land (Z.shiftr pixels bit) 1)) /\
    (forall r c,
       (c <> Z.to_nat col \/ forall bit, bit ∈ bits -> r <> Z.to_nat (row + bit)) ->
       pixel screen' r c = pixel screen r c).
Proof.
  intros Hnd Hbits Hrow Hcol.
  induction Hbits as [|bit bits [Hb0 Hb64] Hrest IH]; intros screen Hok.
  - exists screen. split; [reflexivity|]. split; [|auto].
    intros bit Hin. inversion Hin.
  - apply NoDup_cons in Hnd. destruct Hnd as [Hnotin Hnd].
    cbn [plot_bits].
    destruct (Z.leb_spec 64 (row + bit)); [lia|].
    destruct (screen_ok_line screen (Z.to_nat (row + bit)) Hok)
      as [line [Hline Hlen]]; [lia|].
    rewrite (setitem2_in_range screen _ _ _ line) by (try exact Hline; lia).
    set (screen1 := <[Z.to_nat (row + bit) := _]> screen).
    destruct (IH Hnd screen1) as (screen' & Hrun & Hset & Hkeep).
    { apply screen_ok_write; [exact Hok|exact Hline|apply is_lit_bit]. }
    exists screen'. split; [exact Hrun|]. split.
    + intros b Hin. apply elem_of_cons in Hin. destruct Hin as [->|Hin].
      * rewrite Hkeep.
        -- apply pixel_write_same; [exact Hline|lia].
        -- right. intros b' Hb' Heq.
           pose proof (proj1 (Forall_forall _ _) Hrest b' Hb') as [? ?].
           assert (b' = bit) by lia. subst b'. contradiction.
      * apply Hset, Hin.
    + intros r c Hout. rewrite Hkeep.
      * apply pixel_write_ne; [exact Hline|].
        destruct Hout as [Hc|Hr]; [right; exact Hc|].
        left. apply Hr. left.
      * destruct Hout as [Hc|Hr]; [left; exact Hc|].
        right. intros b Hb. apply Hr. right. exact Hb.
Qed.

Lemma range8_elem (bit : Z) : bit ∈ range8 <-> 0 <= bit < 8.
Proof.
  unfold range8. rewrite !elem_of_cons, elem_of_nil. lia.
Qed.

Lemma range8_nodup : NoDup range8.
Proof.
  unfold range8.
  repeat (apply NoDup_cons_2;
          [rewrite ?elem_of_cons, elem_of_nil; lia|]).
  apply NoDup_nil_2.
Qed.

Lemma single_triplet_run
  (pixels col r : Z) (screen : Screen) :
  is_byte pixels -> 0 <= col < 128 -> 0 <= r < 8 -> screen_ok screen ->
  exists scr,
    plot_triplets [pixels; col; r] (range_step3 3) screen = (scr, None) /\
    screen_ok scr /\
    (forall bit, 0 <= bit < 8 ->
       pixel scr (Z.to_nat (r * 8 + bit)) (Z.to_nat col) =
       Some (Z.land (Z.shiftr pixels bit) 1)) /\
    (forall row c,
       (c <> Z.to_nat col \/
        ~ (Z.to_nat (r * 8) <= row < Z.to_nat (r * 8) + 8)%nat) ->
       pixel scr row c = pixel screen row c).
Proof.
  intros Hp Hcol Hr Hok.
  change (range_step3 3) with [0]. cbn [plot_triplets].
  assert (Hstep : plot_triplet [pixels; col; r] 0 screen =
                  plot_bits range8 pixels col (r * 8) screen).
  { unfold plot_triplet.
    rewrite (getitem_lookup [pixels; col; r] 0 pixels eq_refl
             : getitem _ 0 = Ok pixels).
    rewrite (getitem_lookup [pixels; col; r] 1 col eq_refl
             : getitem _ (0 + 1) = Ok col).
    rewrite (getitem_lookup [pixels; col; r] 2 r eq_refl
             : getitem _ (0 + 2) = Ok r).
    cbn [mbind result_bind].
    destruct (Z.leb_spec 128 col); [lia|].
    destruct (Z.leb_spec 64 (r * 8)); [lia|]. reflexivity. }
  rewrite Hstep.
  destruct (plot_bits_spec range8 pixels col (r * 8) screen)
    as (scr0 & Hrun0 & Hok0 & _); [|lia|lia|exact Hok|].
  { apply Forall_forall. intros b Hb. apply range8_elem in Hb. lia. }
  destruct (plot_bits_pixels range8 pixels col (r * 8) range8_nodup)
    with (screen := screen) as (scr & Hrun & Hset & Hkeep);
    [|lia|lia|exact Hok|].
  { apply Forall_forall. intros b Hb. apply range8_elem in Hb. lia. }
  rewrite Hrun in Hrun0. injection Hrun0 as <-.
  rewrite Hrun. exists scr. split; [reflexivity|]. split; [exact Hok0|].
  split.
  - intros bit Hbit. apply Hset, range8_elem, Hbit.
  - intros row c Hout. apply Hkeep.
    destruct Hout as [Hc|Hrow]; [left; exact Hc|].
    right. intros b Hb Heq. apply range8_elem in Hb. lia.
Qed.

(** X12: what one accepted triplet does.  For a payload of a single triplet
    (mask, column below 128, row group below 8), [parse_screen] returns a
    bitmap in which the eight pixels of that column in rows 8*group ..
    8*group+7 carry bits 0 .. 7 of the mask, bit 0 on top, and every other
    pixel is as in the bitmap the update started from: the blank one for
    diff 0, the previous one otherwise.  All eight bits are always written;
    the row bound inside the bit loop is never reached. *)
Theorem single_triplet_sets_eight_pixels
  (self : QuanshengComm) (pixels col r diff : Z) :
  is_byte pixels -> 0 <= col < 128 -> 0 <= r < 8 ->
  diff = 0 \/ screen_ok (screen_data self) ->
  let start := if diff =? 0 then zeros else screen_data self in
  exists scr,
    parse_screen self [pixels; col; r] diff =
      (set_screen_data scr self, Ok scr) /\
    (forall bit, 0 <= bit < 8 ->
       pixel scr (Z.to_nat (r * 8 + bit)) (Z.to_nat col) =
       Some (Z.land (Z.shiftr pixels bit) 1)) /\
    (forall row c,
       (c <> Z.to_nat col \/
        ~ (Z.to_nat (r * 8) <= row < Z.to_nat (r * 8) + 8)%nat) ->
       pixel scr row c = pixel start row c).
Proof.
  intros Hp Hcol Hr Hpre. cbv zeta.
  assert (Hok : screen_ok (if diff =? 0 then zeros else screen_data self)).
  { destruct (Z.eqb_spec diff 0); [apply screen_ok_zeros|tauto]. }
  destruct (single_triplet_run pixels col r _ Hp Hcol Hr Hok)
    as (scr & Hrun & _ & Hset & Hkeep).
  exists scr. split; [|split; assumption].
  unfold parse_screen. cbn [length negb Z.of_nat Z.modulo Z.eqb].
  change (Z.of_nat 3 mod 3 =? 0) with true. cbn [negb].
  change (range_step3 (length [pixels; col; r])) with (range_step3 3).
  rewrite Hrun. reflexivity.
Qed.

Lemma single_triplet_sets_eight_pixels_witness :
  let start := if 1 =? 0 then zeros else screen_data init in
  exists scr,
    parse_screen init [0xA5; 127; 7] 1 =
      (set_screen_data scr init, Ok scr) /\
    (forall bit, 0 <= bit < 8 ->
       pixel scr (Z.to_nat (7 * 8 + bit)) (Z.to_nat 127) =
       Some (Z.land (Z.shiftr 0xA5 bit) 1)) /\
    (forall row c,
       (c <> Z.to_nat 127 \/
        ~ (Z.to_nat (7 * 8) <= row < Z.to_nat (7 * 8) + 8)%nat) ->
       pixel scr row c = pixel start row c).
Proof.
  apply (single_triplet_sets_eight_pixels init 0xA5 127 7 1).
  - unfold is_byte. lia.
  - lia.
  - lia.
  - right. apply screen_ok_zeros.
Defined.

Lemma getitem_app_l (d1 d2 : list Z) (i : Z) :
  0 <= i < Z.of_nat (length d1) ->
  getitem (d1 ++ d2) i = getitem d1 i.
Proof.
  intros Hi.
  destruct (getitem_in_range d1 i Hi) as (x & Hx & ->).
  rewrite <- (Z2Nat.id i) by lia. apply getitem_lookup.
  rewrite lookup_app_l by lia. exact Hx.
Qed.

Lemma getitem_app_r (d1 d2 : list Z) (j : Z) :
  0 <= j < Z.of_nat (length d2) ->
  getitem (d1 ++ d2) (Z.of_nat (length d1) + j) = getitem d2 j.
Proof.
  intros Hj.
  destruct (getitem_in_range d2 j Hj) as (x & Hx & ->).
  replace (Z.of_nat (length d1) + j)
    with (Z.of_nat (length d1 + Z.to_nat j)) by lia.
  apply getitem_lookup.
  rewrite lookup_app_r by lia.
  replace (length d1 + Z.to_nat j - length d1)%nat with (Z.to_nat j) by lia.
  exact Hx.
Qed.

Lemma plot_triplet_app_l (d1 d2 : list Z) (i : Z) (screen : Screen) :
  triplet_at d1 i ->
  plot_triplet (d1 ++ d2) i screen = plot_triplet d1 i screen.
Proof.
  intros [Hi0 Hi2]. unfold plot_triplet.
  rewrite !getitem_app_l by lia. reflexivity.
Qed.

Lemma plot_triplet_app_r (d1 d2 : list Z) (j : Z) (screen : Screen) :
  triplet_at d2 j ->
  plot_triplet (d1 ++ d2) (Z.of_nat (length d1) + j) screen =
  plot_triplet d2 j screen.
Proof.
  intros [Hj0 Hj2]. unfold plot_triplet.
  rewrite <- !Z.add_assoc, !getitem_app_r by lia. reflexivity.
Qed.

Lemma plot_triplets_app (data : list Z) (l1 l2 : list Z) (screen : Screen) :
  plot_triplets data (l1 ++ l2) screen =
  match plot_triplets data l1 screen with
  | (s1, None) => plot_triplets data l2 s1
  | (s1, Some e) => (s1, Some e)
  end.
Proof.
  revert screen. induction l1 as [|i l1 IH]; intros screen; [reflexivity|].
  cbn [app plot_triplets].
  destruct (plot_triplet data i screen) as [s [e|]]; [reflexivity|apply IH].
Qed.

Lemma plot_triplets_left (d1 d2 : list Z) (idx : list Z) :
  Forall (triplet_at d1) idx ->
  forall screen,
    plot_triplets (d1 ++ d2) idx screen = plot_triplets d1 idx screen.
Proof.
  induction 1 as [|i idx Hi _ IH]; intros screen; [reflexivity|].
  cbn [plot_triplets]. rewrite (plot_triplet_app_l d1 d2 i screen Hi).
  destruct (plot_triplet d1 i screen) as [s [e|]]; [reflexivity|apply IH].
Qed.

Lemma plot_triplets_right (d1 d2 : list Z) (idx : list Z) :
  Forall (triplet_at d2) idx ->
  forall screen,
    plot_triplets (d1 ++ d2)
                  ((fun j => Z.of_nat (length d1) + j) <$> idx) screen =
    plot_triplets d2 idx screen.
Proof.
  induction 1 as [|j idx Hj _ IH]; intros screen; [reflexivity|].
  cbn [fmap list_fmap plot_triplets].
  rewrite (plot_triplet_app_r d1 d2 j screen Hj).
  destruct (plot_triplet d2 j screen) as [s [e|]]; [reflexivity|apply IH].
Qed.

Lemma range_step3_app (n1 n2 : nat) :
  Z.of_nat n1 mod 3 = 0 ->
  range_step3 (n1 + n2) =
  range_step3 n1 ++ ((fun j => Z.of_nat n1 + j) <$> range_step3 n2).
Proof.
  intros Hmod. apply Z.mod_divide in Hmod; [|lia].
  destruct Hmod as [m Hm].
  assert (Hn1 : n1 = (Z.to_nat m * 3)%nat) by lia.
  unfold range_step3.
  replace ((n1 + n2 + 2) `div` 3)%nat
    with (Z.to_nat m + (n2 + 2) `div` 3)%nat.
  2:{ rewrite Hn1. replace (Z.to_nat m * 3 + n2 + 2)%nat
        with (Z.to_nat m * 3 + (n2 + 2))%nat by lia.
      rewrite Nat.div_add_l by lia. reflexivity. }
  replace ((n1 + 2) `div` 3)%nat with (Z.to_nat m).
  2:{ rewrite Hn1, Nat.div_add_l by lia.
      change (2 `div` 3)%nat with 0%nat. lia. }
  rewrite seq_app, fmap_app. f_equal.
  rewrite <- list_fmap_compose.
  replace (seq (0 + Z.to_nat m) ((n2 + 2) `div` 3))
    with ((fun x => Z.to_nat m + x)%nat <$> seq 0 ((n2 + 2) `div` 3))
    by (rewrite fmap_add_seq; f_equal; lia).
  rewrite <- list_fmap_compose.
  apply list_fmap_ext. intros _ k _. unfold compose. cbv beta. lia.
Qed.

(** X13: screen updates compose.  Feeding the triplets of [d1] and then,
    as an incremental update, the triplets of [d2] leaves the same bitmap as
    feeding [d1 ++ d2] in one update with the first diff flag; all three
    calls return. *)
Theorem screen_updates_compose
  (self : QuanshengComm) (d1 d2 : list Z) (diff diff2 : Z) :
  Forall is_byte d1 -> Forall is_byte d2 ->
  Z.of_nat (length d1) mod 3 = 0 ->
  Z.of_nat (length d2) mod 3 = 0 ->
  diff2 <> 0 ->
  diff = 0 \/ screen_ok (screen_data self) ->
  exists scr1 scr2,
    parse_screen self d1 diff = (set_screen_data scr1 self, Ok scr1) /\
    parse_screen (set_screen_data scr1 self) d2 diff2 =
      (set_screen_data scr2 self, Ok scr2) /\
    parse_screen self (d1 ++ d2) diff = (set_screen_data scr2 self, Ok scr2).
Proof.
  intros Hb1 Hb2 Hm1 Hm2 Hd2 Hpre.
  set (start := if diff =? 0 then zeros else screen_data self).
  assert (Hok : screen_ok start).
  { unfold start. destruct (Z.eqb_spec diff 0); [apply screen_ok_zeros|tauto]. }
  destruct (plot_triplets_spec d1 Hb1 (range_step3 (length d1)) start
              (range_step3_triplets d1 Hm1) Hok) as (scr1 & Hrun1 & Hok1 & _).
  destruct (plot_triplets_spec d2 Hb2 (range_step3 (length d2)) scr1
              (range_step3_triplets d2 Hm2) Hok1) as (scr2 & Hrun2 & _ & _).
  exists scr1, scr2. split; [|split].
  - unfold parse_screen. rewrite Hm1. cbn [Z.eqb negb].
    fold start. rewrite Hrun1. reflexivity.
  - unfold parse_screen. rewrite Hm2. cbn [Z.eqb negb].
    destruct (Z.eqb_spec diff2 0); [contradiction|].
    cbn [screen_data set_screen_data]. rewrite Hrun2. reflexivity.
  - unfold parse_screen. rewrite length_app.
    assert (Hm : Z.of_nat (length d1 + length d2) mod 3 = 0).
    { apply Z.mod_divide in Hm1; [|lia]. apply Z.mod_divide in Hm2; [|lia].
      destruct Hm1 as [a Ha], Hm2 as [b Hb]. apply Z.mod_divide; [lia|].
      exists (a + b). lia. }
    rewrite Hm. cbn [Z.eqb negb]. fold start.
    rewrite (range_step3_app _ _ Hm1), plot_triplets_app.
    rewrite (plot_triplets_left d1 d2 _ (range_step3_triplets d1 Hm1)), Hrun1.
    rewrite (plot_triplets_right d1 d2 _ (range_step3_triplets d2 Hm2)), Hrun2.
    reflexivity.
Qed.

Lemma screen_updates_compose_witness :
  exists scr1 scr2,
    parse_screen init [0xFF; 0; 0] 0 = (set_screen_data scr1 init, Ok scr1) /\
    parse_screen (set_screen_data scr1 init) [0x0F; 0; 0; 1; 200; 9] 1 =
      (set_screen_data scr2 init, Ok scr2) /\
    parse_screen init ([0xFF; 0; 0] ++ [0x0F; 0; 0; 1; 200; 9]) 0 =
      (set_screen_data scr2 init, Ok scr2).
Proof.
  apply (screen_updates_compose init [0xFF; 0; 0] [0x0F; 0; 0; 1; 200; 9] 0 1).
  - repeat constructor; lia.
  - repeat constructor; lia.
  - reflexivity.
  - reflexivity.
  - lia.
  - left. reflexivity.
Defined.

(** ** More on the cipher, the checksum and the frame builder *)

(** X14: the cipher byte by byte.  Applying [crypt] twice at the same
    position gives the byte back, for every integer and every position,
    negative ones included; the key repeats every 16 positions; and the
    result is a byte exactly when the input is. *)
Theorem crypt_is_a_periodic_involution (b i : Z) :
  crypt (crypt b i) i = b /\
  crypt b (i + 16) = crypt b i /\
  (is_byte (crypt b i) <-> is_byte b).
Proof.
  split; [apply crypt_involutive|].
  split; [apply crypt_period|apply crypt_byte_iff].
Qed.

(** X15: feeding a concatenation is feeding its parts in turn, as long as
    the first part does not raise; once a byte raises, the bytes after it
    in the same chunk are never processed. *)
Theorem chunks_compose_until_an_exception
  (s : QuanshengComm) (xs ys : list Z) :
  (forall s1, data_received s xs = (s1, None) ->
              data_received s (xs ++ ys) = data_received s1 ys) /\
  (forall s1 e, data_received s xs = (s1, Some e) ->
                data_received s (xs ++ ys) = (s1, Some e)).
Proof.
  split; intros; rewrite data_received_app, H; reflexivity.
Qed.

Lemma cipher_from_bytes (l : list Z) :
  forall k, Forall is_byte l -> Forall is_byte (cipher_from k l).
Proof.
  induction l as [|b l IH]; intros k Hb; [constructor|].
  inversion Hb; subst. cbn [cipher_from].
  constructor; [apply crypt_byte; assumption|apply IH; assumption].
Qed.

Lemma cipher_from_app (l1 l2 : list Z) :
  forall k,
    cipher_from k (l1 ++ l2) =
    cipher_from k l1 ++ cipher_from (k + Z.of_nat (length l1)) l2.
Proof.
  induction l1 as [|b l1 IH]; intros k.
  - cbn [app cipher_from length]. f_equal. lia.
  - cbn [app cipher_from length]. rewrite IH. do 3 f_equal. lia.
Qed.

Lemma cipher_from_involutive (l : list Z) :
  forall k, cipher_from k (cipher_from k l) = l.
Proof.
  induction l as [|b l IH]; intros k; [reflexivity|].
  cbn [cipher_from]. rewrite crypt_involutive, IH. reflexivity.
Qed.

Lemma crc16_below (byte crc : Z) :
  0 <= crc < 2 ^ 16 -> is_byte byte -> 0 <= crc16 byte crc < 2 ^ 16.
Proof.
  intros Hc Hb. unfold crc16.
  apply crc16_iter_ref, crc16_seed_below; [exact Hc|exact Hb].
Qed.

Lemma crc_over_below (l : list Z) :
  forall crc, 0 <= crc < 2 ^ 16 -> Forall is_byte l ->
              0 <= crc_over crc l < 2 ^ 16.
Proof.
  induction l as [|b l IH]; intros crc Hc Hb; [exact Hc|].
  inversion Hb; subst. unfold crc_over. cbn [fold_left].
  apply IH; [|assumption].
  apply crc16_below; assumption.
Qed.

(** X16: the shape of what [send_command] writes.  Whenever a frame is
    written it has 12 bytes more than the serialized arguments, starts with
    AB CD, ends with DC BA, and every element is in [0, 256), whatever the
    command id and the arguments were. *)
Theorem written_frame_is_well_formed
  (self : QuanshengComm) (cmd : Z) (args : list Arg) (frame : list Z) :
  send_command self cmd args = Ok (Some frame) ->
  exists params,
    serialize_args [] args = Ok params /\
    length frame = (12 + length params)%nat /\
    take 2 frame = [0xAB; 0xCD] /\
    drop (length frame - 2) frame = [0xDC; 0xBA] /\
    Forall is_byte frame.
Proof.
  intros Hsend.
  destruct (send_command_written self cmd args frame Hsend)
    as (params & Hser & ->).
  pose proof (serialize_args_ok_bytes args [] params Hser (Forall_nil_2 _))
    as Hbytes.
  exists params. split; [exact Hser|].
  destruct (frame_of_split cmd params) as (c1 & c2 & Hsplit).
  assert (Hlen : length (frame_of cmd params) = (12 + length params)%nat).
  { unfold frame_of.
    rewrite !length_app, cipher_from_length, plain_body_length.
    cbn [length]. lia. }
  split; [exact Hlen|]. split; [reflexivity|]. split.
  - rewrite Hsplit at 2. rewrite Hlen.
    rewrite drop_app_length'; [reflexivity|].
    rewrite !length_app, cipher_from_length, plain_body_length.
    cbn [length]. lia.
  - unfold frame_of. repeat (apply Forall_app; split).
    + repeat (constructor; [first [apply land_ff_byte|unfold is_byte; lia]|]).
      constructor.
    + apply cipher_from_bytes, plain_body_bytes, Hbytes.
    + repeat (constructor; [apply crypt_byte, land_ff_byte|]). constructor.
    + repeat (constructor; [unfold is_byte; lia|]). constructor.
Qed.

Lemma written_frame_is_well_formed_witness :
  exists params,
    serialize_args [] [ArgInt 19] = Ok params /\
    length [0xAB; 0xCD; 5; 0; 23; 100; 21; 230; 61; 97; 55; 0xDC; 0xBA] =
      (12 + length params)%nat /\
    take 2 [0xAB; 0xCD; 5; 0; 23; 100; 21; 230; 61; 97; 55; 0xDC; 0xBA] =
      [0xAB; 0xCD] /\
    drop (length [0xAB; 0xCD; 5; 0; 23; 100; 21; 230; 61; 97; 55; 0xDC; 0xBA] - 2)
         [0xAB; 0xCD; 5; 0; 23; 100; 21; 230; 61; 97; 55; 0xDC; 0xBA] =
      [0xDC; 0xBA] /\
    Forall is_byte [0xAB; 0xCD; 5; 0; 23; 100; 21; 230; 61; 97; 55; 0xDC; 0xBA].
Proof.
  apply (written_frame_is_well_formed connected Packet.KeyPress [ArgInt 19]).
  vm_compute. reflexivity.
Defined.

(** X17: the checksum in a written frame checks out.  Deciphering the
    ciphered region from key position 0 gives the plain body followed by two
    bytes that are, low byte first, the running CRC of that body from seed
    0, and this CRC is below 2^16. *)
Theorem written_frame_carries_its_crc
  (self : QuanshengComm) (cmd : Z) (args : list Arg) (frame : list Z) :
  send_command self cmd args = Ok (Some frame) ->
  exists params lo hi,
    serialize_args [] args = Ok params /\
    cipher_from 0 (ciphered_region frame) =
      plain_body cmd params ++ [lo; hi] /\
    le16 lo hi = crc_over 0 (plain_body cmd params) /\
    0 <= crc_over 0 (plain_body cmd params) < 2 ^ 16.
Proof.
  intros Hsend.
  destruct (send_command_written self cmd args frame Hsend)
    as (params & Hser & ->).
  pose proof (serialize_args_ok_bytes args [] params Hser (Forall_nil_2 _))
    as Hbytes.
  set (body := plain_body cmd params).
  set (crc := crc_over 0 body).
  assert (Hcrc : 0 <= crc < 2 ^ 16).
  { apply crc_over_below; [lia|apply plain_body_bytes, Hbytes]. }
  exists params, (Z.land crc 0xFF), (Z.land (Z.shiftr crc 8) 0xFF).
  split; [exact Hser|]. split; [|split; [|exact Hcrc]].
  - pose proof (frame_of_region cmd params) as Hreg. cbv zeta in Hreg.
    rewrite Hreg. fold body. fold crc.
    rewrite cipher_from_app, cipher_from_involutive, cipher_from_length.
    cbn [cipher_from]. rewrite !crypt_involutive. reflexivity.
  - rewrite le16_split. apply Z.mod_small. exact Hcrc.
Qed.

Lemma written_frame_carries_its_crc_witness :
  exists params lo hi,
    serialize_args [] [ArgInt 19] = Ok params /\
    cipher_from 0 (ciphered_region
       [0xAB; 0xCD; 5; 0; 23; 100; 21; 230; 61; 97; 55; 0xDC; 0xBA]) =
      plain_body Packet.KeyPress params ++ [lo; hi] /\
    le16 lo hi = crc_over 0 (plain_body Packet.KeyPress params) /\
    0 <= crc_over 0 (plain_body Packet.KeyPress params) < 2 ^ 16.
Proof.
  apply (written_frame_carries_its_crc connected Packet.KeyPress [ArgInt 19]).
  vm_compute. reflexivity.
Defined.

Lemma serialize_arg_raises (arg : Arg) (e : PyError) :
  serialize_arg arg = Raise e <-> e = ValueError /\ arg_negative arg.
Proof.
  destruct arg as [n|b|l]; simpl; [|split; [discriminate|tauto]..].
  destruct (Z.leb_spec n 0xFF).
  - destruct (is_byteb n) eqn:Hb.
    + apply is_byteb_true in Hb. unfold is_byte in Hb.
      split; [discriminate|lia].
    + split; [intros [= <-]; split; [reflexivity|]|reflexivity || auto].
      * destruct (Z.lt_ge_cases n 0) as [|Hn]; [assumption|].
        assert (is_byteb n = true)
          by (apply is_byteb_true; unfold is_byte; lia).
        congruence.
      * intros [-> _]. reflexivity.
  - destruct (n <=? 0xFFFF); (split; [discriminate|lia]).
Qed.

Lemma serialize_args_raises (args : list Arg) :
  forall acc e,
    serialize_args acc args = Raise e <->
    e = ValueError /\ Exists arg_negative args.
Proof.
  induction args as [|arg args IH]; intros acc e; cbn [serialize_args].
  - split; [discriminate|]. intros [_ H]. inversion H.
  - destruct (serialize_arg arg) as [p|e'] eqn:Hp; cbn [mbind result_bind].
    + rewrite IH. split; intros [He Hex]; (split; [exact He|]).
      * right. exact Hex.
      * inversion Hex as [? ? Hneg|]; subst; [|assumption].
        assert (serialize_arg arg = Raise ValueError)
          by (apply serialize_arg_raises; auto).
        congruence.
    + apply serialize_arg_raises in Hp. destruct Hp as [-> Hneg].
      split; [intros [= <-]; split; [reflexivity|left; exact Hneg]|].
      intros [-> _]. reflexivity.
Qed.

(** X18: when [send_command] fails.  Without a transport it returns
    without writing and without looking at its arguments.  With one, it
    raises exactly when some integer argument is negative, the exception is
    then [ValueError] and nothing is written; in every other case a frame is
    written. *)
Theorem send_command_failure_cases
  (self : QuanshengComm) (cmd : Z) (args : list Arg) :
  (transport self = false -> send_command self cmd args = Ok None) /\
  (transport self = true ->
   (send_command self cmd args = Raise ValueError <->
    Exists arg_negative args) /\
   (forall e, send_command self cmd args = Raise e -> e = ValueError) /\
   (~ Exists arg_negative args ->
    exists frame, send_command self cmd args = Ok (Some frame))).
Proof.
  split.
  - intros Ht. unfold send_command. rewrite Ht. reflexivity.
  - intros Ht.
    destruct (serialize_args [] args) as [params|e0] eqn:Hser.
    + pose proof (send_command_frame self cmd args params Ht Hser) as Hok.
      assert (Hno : ~ Exists arg_negative args).
      { intros Hex.
        assert (serialize_args [] args = Raise ValueError)
          by (apply serialize_args_raises; auto).
        congruence. }
      rewrite Hok. split; [split; [discriminate|contradiction]|].
      split; [discriminate|eauto].
    + assert (Hraise : send_command self cmd args = Raise e0).
      { unfold send_command. rewrite Ht, Hser. reflexivity. }
      apply serialize_args_raises in Hser. destruct Hser as [-> Hex].
      rewrite Hraise. split; [tauto|].
      split; [intros e [= <-]; reflexivity|contradiction].
Qed.

Lemma le_value_split (n : Z) :
  0 <= n ->
  Z.land n 0xFF + 256 * (Z.land (Z.shiftr n 8) 0xFF +
    256 * (Z.land (Z.shiftr n 16) 0xFF +
      256 * (Z.land (Z.shiftr n 24) 0xFF + 256 * 0))) = n mod 2 ^ 32.
Proof.
  intros Hn. change 0xFF with (Z.ones 8).
  rewrite !Z.land_ones, !Z.shiftr_div_pow2 by lia.
  change (2 ^ 8) with 256. change (2 ^ 16) with 65536.
  change (2 ^ 24) with 16777216. change (2 ^ 32) with 4294967296.
  pose proof (Z.div_mod n 256 ltac:(lia)).
  pose proof (Z.div_mod (n / 256) 256 ltac:(lia)).
  pose proof (Z.div_mod (n / 65536) 256 ltac:(lia)).
  pose proof (Z.div_mod (n / 16777216) 256 ltac:(lia)).
  pose proof (Z.div_mod n 4294967296 ltac:(lia)).
  pose proof (Z.mod_pos_bound n 256 ltac:(lia)).
  pose proof (Z.mod_pos_bound (n / 256) 256 ltac:(lia)).
  pose proof (Z.mod_pos_bound (n / 65536) 256 ltac:(lia)).
  pose proof (Z.mod_pos_bound (n / 16777216) 256 ltac:(lia)).
  pose proof (Z.mod_pos_bound n 4294967296 ltac:(lia)).
  assert (n / 65536 = n / 256 / 256) by (rewrite Z.div_div by lia; reflexivity).
  assert (n / 16777216 = n / 65536 / 256)
    by (rewrite Z.div_div by lia; reflexivity).
  assert (n / 4294967296 = n / 16777216 / 256)
    by (rewrite Z.div_div by lia; reflexivity).
  lia.
Qed.

(** X19: how an integer argument is laid out.  A non-negative integer
    takes 1 byte up to 0xFF, 2 bytes up to 0xFFFF and 4 bytes above; read
    back little-endian the bytes give the integer modulo 2^32, so the
    integer itself below 2^32 and a silently truncated one from 2^32 on. *)
Theorem integer_argument_layout (n : Z) :
  0 <= n ->
  exists p,
    serialize_arg (ArgInt n) = Ok p /\
    length p = (if n <=? 0xFF then 1%nat
                else if n <=? 0xFFFF then 2%nat else 4%nat) /\
    le_value p = n mod 2 ^ 32 /\
    (n < 2 ^ 32 -> le_value p = n).
Proof.
  intros Hn.
  assert (Hmod : forall p, le_value p = n mod 2 ^ 32 ->
                           n < 2 ^ 32 -> le_value p = n).
  { intros p -> Hlt. apply Z.mod_small. lia. }
  pose proof (le_value_split n Hn) as Hsplit.
  cbn [serialize_arg].
  destruct (Z.leb_spec n 0xFF) as [H1|H1].
  - assert (Hb : is_byteb n = true)
      by (apply is_byteb_true; unfold is_byte; lia).
    rewrite Hb. exists [n]. split; [reflexivity|]. split; [reflexivity|].
    assert (Hv : le_value [n] = n mod 2 ^ 32).
    { cbn [le_value foldr]. rewrite Z.mod_small by lia. lia. }
    split; [exact Hv|apply Hmod, Hv].
  - destruct (Z.leb_spec n 0xFFFF) as [H2|H2];
      eexists; (split; [reflexivity|]); (split; [reflexivity|]).
    + assert (Hv : le_value [Z.land n 255; Z.land (Z.shiftr n 8) 255] =
                   n mod 2 ^ 32).
      { cbn [le_value foldr]. rewrite <- Hsplit.
        assert (Z.shiftr n 16 = 0) as ->.
        { rewrite Z.shiftr_div_pow2 by lia. apply Z.div_small. lia. }
        assert (Z.shiftr n 24 = 0) as ->.
        { rewrite Z.shiftr_div_pow2 by lia. apply Z.div_small. lia. }
        reflexivity. }
      split; [exact Hv|apply Hmod, Hv].
    + split; [exact Hsplit|apply Hmod, Hsplit].
Qed.

Lemma integer_argument_layout_witness :
  exists p,
    serialize_arg (ArgInt 0x12345678) = Ok p /\
    length p = (if 0x12345678 <=? 0xFF then 1%nat
                else if 0x12345678 <=? 0xFFFF then 2%nat else 4%nat) /\
    le_value p = 0x12345678 mod 2 ^ 32 /\
    (0x12345678 < 2 ^ 32 -> le_value p = 0x12345678).
Proof. apply (integer_argument_layout 0x12345678). lia. Defined.

Lemma crc16_round_small (v : Z) :
  0 <= v < 2 ^ 15 -> crc16_round v = 2 * v.
Proof.
  intros Hv. unfold crc16_round. rewrite Z.shiftl_mul_pow2 by lia.
  change (2 ^ 1) with 2.
  destruct (Z.ltb_spec 0xffff (v * 2)); lia.
Qed.

Lemma crc16_rounds_shift_a_byte (v : Z) :
  0 <= v < 2 ^ 8 -> Nat.iter 8 crc16_round v = v * 256.
Proof.
  intros Hv. cbn [Nat.iter nat_rect].
  rewrite (crc16_round_small v) by lia.
  rewrite (crc16_round_small (2 * v)) by lia.
  rewrite (crc16_round_small (2 * (2 * v))) by lia.
  rewrite (crc16_round_small (2 * (2 * (2 * v)))) by lia.
  rewrite (crc16_round_small (2 * (2 * (2 * (2 * v))))) by lia.
  rewrite (crc16_round_small (2 * (2 * (2 * (2 * (2 * v)))))) by lia.
  rewrite (crc16_round_small (2 * (2 * (2 * (2 * (2 * (2 * v))))))) by lia.
  rewrite (crc16_round_small (2 * (2 * (2 * (2 * (2 * (2 * (2 * v))))))))
    by lia.
  lia.
Qed.

Lemma lxor_high_byte (crc : Z) :
  Z.lxor crc (Z.shiftl (Z.shiftr crc 8) 8) = Z.land crc 0xFF.
Proof.
  apply Z.bits_inj'. intros n Hn. change 0xFF with (Z.ones 8).
  rewrite Z.lxor_spec, Z.land_spec, Z.testbit_ones_nonneg by lia.
  destruct (Z.ltb_spec n 8).
  - rewrite Z.shiftl_spec, (Z.testbit_neg_r _ (n - 8)) by lia.
    rewrite xorb_false_r, andb_true_r. reflexivity.
  - rewrite Z.shiftl_spec, Z.shiftr_spec by lia.
    replace (n - 8 + 8) with n by lia.
    rewrite xorb_nilpotent, andb_false_r. reflexivity.
Qed.

Lemma crc16_own_high_byte (crc : Z) :
  0 <= crc < 2 ^ 16 ->
  crc16 (Z.shiftr crc 8) crc = Z.land crc 0xFF * 256.
Proof.
  intros Hc. unfold crc16. rewrite lxor_high_byte.
  apply crc16_rounds_shift_a_byte. apply land_ff_byte.
Qed.

Lemma crc16_cancels (lo : Z) : crc16 lo (lo * 256) = 0.
Proof.
  unfold crc16. rewrite Z.shiftl_mul_pow2 by lia.
  change (2 ^ 8) with 256. rewrite Z.lxor_nilpotent. reflexivity.
Qed.

Lemma crc_over_app (crc : Z) (l1 l2 : list Z) :
  crc_over crc (l1 ++ l2) = crc_over (crc_over crc l1) l2.
Proof. unfold crc_over. apply fold_left_app. Qed.

(** X20: the CRC has zero residue.  Running [crc16] over any bytes and
    then over the two bytes of the value reached so far, high byte first,
    gives 0.  (A written frame carries the two bytes low byte first, so this
    check applies to them swapped.) *)
Theorem crc_of_message_and_checksum_is_zero (msg : list Z) :
  Forall is_byte msg ->
  let crc := crc_over 0 msg in
  crc16 (Z.land crc 0xFF) (crc16 (Z.shiftr crc 8) crc) = 0 /\
  crc_over 0 (msg ++ [Z.shiftr crc 8; Z.land crc 0xFF]) = 0.
Proof.
  intros Hb. cbv zeta.
  assert (Hc : 0 <= crc_over 0 msg < 2 ^ 16)
    by (apply crc_over_below; [lia|exact Hb]).
  assert (Hres : crc16 (Z.land (crc_over 0 msg) 0xFF)
                       (crc16 (Z.shiftr (crc_over 0 msg) 8) (crc_over 0 msg))
                 = 0).
  { rewrite (crc16_own_high_byte _ Hc). apply crc16_cancels. }
  split; [exact Hres|].
  rewrite crc_over_app. unfold crc_over at 1. cbn [fold_left]. exact Hres.
Qed.

Lemma crc_of_message_and_checksum_is_zero_witness :
  let crc := crc_over 0 [0x31; 0x32; 0x33] in
  crc16 (Z.land crc 0xFF) (crc16 (Z.shiftr crc 8) crc) = 0 /\
  crc_over 0 ([0x31; 0x32; 0x33] ++ [Z.shiftr crc 8; Z.land crc 0xFF]) = 0.
Proof.
  apply (crc_of_message_and_checksum_is_zero [0x31; 0x32; 0x33]).
  repeat constructor; lia.
Defined.

(** ** Rendering the bitmap *)

Lemma py_range_elem (n : nat) (z : Z) :
  z ∈ py_range n <-> 0 <= z < Z.of_nat n.
Proof.
  unfold py_range. rewrite list_elem_of_fmap. split.
  - intros (k & -> & Hk). apply elem_of_seq in Hk. lia.
  - intros Hz. exists (Z.to_nat z). split; [lia|].
    apply elem_of_seq. lia.
Qed.

Lemma getitem2_in_range (screen : Screen) (x y : Z) :
  screen_ok screen -> 0 <= y < 64 -> 0 <= x < 128 ->
  exists v, pixel screen (Z.to_nat y) (Z.to_nat x) = Some v /\
            getitem2 screen y x = Ok v.
Proof.
  intros Hok Hy Hx.
  destruct (screen_ok_line screen (Z.to_nat y) Hok) as (line & Hline & Hlen);
    [lia|].
  destruct (lookup_lt_is_Some_2 line (Z.to_nat x)) as [v Hv]; [lia|].
  exists v. unfold pixel, getitem2. rewrite Hline. simpl.
  split; [exact Hv|].
  rewrite py_index_in_range by (destruct Hok; lia). simpl. rewrite Hline.
  rewrite py_index_in_range by lia. simpl. rewrite Hv. reflexivity.
Qed.

Section Scan.

Context {A : Type}.
Variable body : Z -> Z -> list A.
Variable screen : Screen.
Hypothesis screen_good : screen_ok screen.

Lemma scan_row_spec (y : Z) (xs : list Z) :
  0 <= y < 64 -> Forall (fun x => 0 <= x < 128) xs ->
  forall made, exists out,
    scan_row body screen y xs made = Ok out /\
    forall a, a ∈ out <->
              a ∈ made \/ exists x, x ∈ xs /\ lit screen x y /\ a ∈ body x y.
Proof.
  intros Hy Hxs. induction Hxs as [|x xs Hx _ IH]; intros made.
  - exists made. split; [reflexivity|]. intros a. split; [auto|].
    intros [H|(x & Hin & _)]; [exact H|inversion Hin].
  - destruct (getitem2_in_range screen x y screen_good Hy Hx) as (v & Hpix & Hget).
    cbn [scan_row]. rewrite Hget. cbn [mbind result_bind].
    destruct (IH (if negb (v =? 0) then made ++ body x y else made))
      as (out & Hrun & Hout).
    exists out. split; [exact Hrun|]. intros a. rewrite Hout. clear Hout Hrun.
    destruct (Z.eqb_spec v 0) as [Hv|Hv]; cbn [negb].
    + split.
      * intros [H|(x' & Hin & Hl & Ha)]; [auto|].
        right. exists x'. split; [right; exact Hin|auto].
      * intros [H|(x' & Hin & Hl & Ha)]; [auto|].
        apply elem_of_cons in Hin. destruct Hin as [->|Hin].
        -- destruct Hl as (v' & Hv' & Hne). congruence.
        -- right. exists x'. auto.
    + rewrite elem_of_app. split.
      * intros [[H|H]|(x' & Hin & Hl & Ha)]; [auto| |].
        -- right. exists x. split; [left|]. split; [exists v; auto|exact H].
        -- right. exists x'. split; [right; exact Hin|auto].
      * intros [H|(x' & Hin & Hl & Ha)]; [auto|].
        apply elem_of_cons in Hin. destruct Hin as [->|Hin]; [auto|].
        right. exists x'. auto.
Qed.

Lemma scan_rows_spec (ys : list Z) :
  Forall (fun y => 0 <= y < 64) ys ->
  forall made, exists out,
    scan_rows body screen ys made = Ok out /\
    forall a, a ∈ out <->
              a ∈ made \/
              exists x y, 0 <= x < 128 /\ y ∈ ys /\ lit screen x y /\
                          a ∈ body x y.
Proof.
  intros Hys. induction Hys as [|y ys Hy _ IH]; intros made.
  - exists made. split; [reflexivity|]. intros a. split; [auto|].
    intros [H|(x & y & _ & Hin & _)]; [exact H|inversion Hin].
  - destruct (scan_row_spec y (py_range 128) Hy) with (made := made)
      as (mid & Hrow & Hmid).
    { apply Forall_forall. intros x Hx. apply py_range_elem in Hx. lia. }
    cbn [scan_rows]. rewrite Hrow. cbn [mbind result_bind].
    destruct (IH mid) as (out & Hrun & Hout).
    exists out. split; [exact Hrun|]. intros a. rewrite Hout, Hmid.
    clear Hout Hmid Hrun Hrow. split.
    + intros [[H|(x & Hin & Hl & Ha)]|(x & y' & Hx & Hin & Hl & Ha)]; [auto| |].
      * right. exists x, y. apply py_range_elem in Hin.
        split; [lia|]. split; [left|auto].
      * right. exists x, y'. split; [exact Hx|]. split; [right; exact Hin|auto].
    + intros [H|(x & y' & Hx & Hin & Hl & Ha)]; [auto|].
      apply elem_of_cons in Hin. destruct Hin as [->|Hin].
      * left. right. exists x. split; [apply py_range_elem; lia|auto].
      * right. exists x, y'. auto.
Qed.

Lemma scan_bitmap_spec :
  exists out,
    scan_rows body screen (py_range 64) [] = Ok out /\
    forall a, a ∈ out <->
              exists x y, 0 <= x < 128 /\ 0 <= y < 64 /\ lit screen x y /\
                          a ∈ body x y.
Proof.
  destruct (scan_rows_spec (py_range 64)) with (made := @nil A)
    as (out & Hrun & Hout).
  { apply Forall_forall. intros y Hy. apply py_range_elem in Hy. lia. }
  exists out. split; [exact Hrun|]. intros a. rewrite Hout. split.
  - intros [H|(x & y & Hx & Hy & H)]; [inversion H|].
    apply py_range_elem in Hy. exists x, y. split; [exact Hx|].
    split; [lia|exact H].
  - intros (x & y & Hx & Hy & H). right. exists x, y.
    split; [exact Hx|]. split; [apply py_range_elem; lia|exact H].
Qed.

End Scan.

Lemma inside_export_rect (X Y x y : Z) (r : Rect) :
  r ∈ export_rect x y ->
  (inside X Y r <-> x = X / 5 /\ y = Y / 7).
Proof.
  unfold export_rect, PIXEL_WIDTH, PIXEL_HEIGHT. cbv zeta.
  intros Hr. apply list_elem_of_singleton in Hr. subst r.
  unfold inside. cbn [rx1 rx2 ry1 ry2].
  pose proof (Z.div_mod X 5 ltac:(lia)).
  pose proof (Z.mod_pos_bound X 5 ltac:(lia)).
  pose proof (Z.div_mod Y 7 ltac:(lia)).
  pose proof (Z.mod_pos_bound Y 7 ltac:(lia)).
  lia.
Qed.

Lemma fill_pixel_elem (X Y x y : Z) :
  (X, Y) ∈ RadioWindow.fill_pixel x y <-> x = X / 5 /\ y = Y / 7.
Proof.
  unfold RadioWindow.fill_pixel, PIXEL_WIDTH, PIXEL_HEIGHT.
  rewrite list_elem_of_bind. split.
  - intros (py & Hin & Hpy). apply py_range_elem in Hpy.
    apply list_elem_of_bind in Hin. destruct Hin as (px & Hin & Hpx).
    apply py_range_elem in Hpx. apply list_elem_of_singleton in Hin.
    injection Hin as -> ->.
    pose proof (Z.div_mod (x * 5 + px) 5 ltac:(lia)).
    pose proof (Z.mod_pos_bound (x * 5 + px) 5 ltac:(lia)).
    pose proof (Z.div_mod (y * 7 + py) 7 ltac:(lia)).
    pose proof (Z.mod_pos_bound (y * 7 + py) 7 ltac:(lia)).
    lia.
  - intros [-> ->].
    pose proof (Z.div_mod X 5 ltac:(lia)).
    pose proof (Z.mod_pos_bound X 5 ltac:(lia)).
    pose proof (Z.div_mod Y 7 ltac:(lia)).
    pose proof (Z.mod_pos_bound Y 7 ltac:(lia)).
    exists (Y mod 7). split; [|apply py_range_elem; lia].
    apply list_elem_of_bind. exists (X mod 5).
    split; [|apply py_range_elem; lia].
    apply list_elem_of_singleton. f_equal; lia.
Qed.

(** X21: what [export_screen] draws.  On a 64 x 128 bitmap the call
    returns [True] exactly when saving succeeds, every rectangle it draws
    has its corners inside the 640 x 448 image, and a point of the image
    lies in one of the rectangles exactly when the bitmap pixel at
    (X div 5, Y div 7) is lit. *)
Theorem export_screen_draws_the_lit_pixels
  (self : QuanshengComm) (save_ok : bool) :
  screen_ok (screen_data self) ->
  exists drawn,
    export_screen self save_ok =
      (if save_ok then (true, Some drawn) else (false, None)) /\
    (forall r, r ∈ drawn ->
       0 <= rx1 r <= rx2 r /\ rx2 r < 128 * PIXEL_WIDTH /\
       0 <= ry1 r <= ry2 r /\ ry2 r < 64 * PIXEL_HEIGHT) /\
    (forall X Y,
       0 <= X < 128 * PIXEL_WIDTH -> 0 <= Y < 64 * PIXEL_HEIGHT ->
       (Exists (inside X Y) drawn <->
        lit (screen_data self) (X / PIXEL_WIDTH) (Y / PIXEL_HEIGHT))).
Proof.
  intros Hok.
  destruct (scan_bitmap_spec export_rect (screen_data self) Hok)
    as (drawn & Hrun & Hdrawn).
  exists drawn. split; [unfold export_screen; rewrite Hrun; reflexivity|].
  unfold PIXEL_WIDTH, PIXEL_HEIGHT. split.
  - intros r Hr. apply Hdrawn in Hr.
    destruct Hr as (x & y & Hx & Hy & _ & Hr).
    unfold export_rect, PIXEL_WIDTH, PIXEL_HEIGHT in Hr. cbv zeta in Hr.
    apply list_elem_of_singleton in Hr. subst r. cbn [rx1 rx2 ry1 ry2]. lia.
  - intros X Y HX HY. rewrite Exists_exists. split.
    + intros (r & Hr & Hin). apply Hdrawn in Hr.
      destruct Hr as (x & y & Hx & Hy & Hl & Hr).
      apply (inside_export_rect X Y x y r Hr) in Hin.
      destruct Hin as [<- <-]. exact Hl.
    + intros Hl.
      exists (mkRect (X / 5 * 5) (Y / 7 * 7) (X / 5 * 5 + 5 - 1)
                     (Y / 7 * 7 + 7 - 1)).
      assert (Hr : mkRect (X / 5 * 5) (Y / 7 * 7) (X / 5 * 5 + 5 - 1)
                          (Y / 7 * 7 + 7 - 1) ∈ export_rect (X / 5) (Y / 7))
        by (apply list_elem_of_singleton; reflexivity).
      split.
      * apply Hdrawn. exists (X / 5), (Y / 7).
        pose proof (Z.div_mod X 5 ltac:(lia)).
        pose proof (Z.mod_pos_bound X 5 ltac:(lia)).
        pose proof (Z.div_mod Y 7 ltac:(lia)).
        pose proof (Z.mod_pos_bound Y 7 ltac:(lia)).
        split; [lia|]. split; [lia|]. split; [exact Hl|exact Hr].
      * apply (inside_export_rect X Y _ _ _ Hr). auto.
Qed.

Lemma export_screen_draws_the_lit_pixels_witness :
  let self := set_screen_data one_pixel init in
  exists drawn,
    export_screen self true =
      (if true then (true, Some drawn) else (false, None)) /\
    (forall r, r ∈ drawn ->
       0 <= rx1 r <= rx2 r /\ rx2 r < 128 * PIXEL_WIDTH /\
       0 <= ry1 r <= ry2 r /\ ry2 r < 64 * PIXEL_HEIGHT) /\
    (forall X Y,
       0 <= X < 128 * PIXEL_WIDTH -> 0 <= Y < 64 * PIXEL_HEIGHT ->
       (Exists (inside X Y) drawn <->
        lit (screen_data self) (X / PIXEL_WIDTH) (Y / PIXEL_HEIGHT))) /\
    lit (screen_data self) 3 2 /\
    drawn = [mkRect 15 14 19 20].
Proof.
  cbv zeta.
  destruct (export_screen_draws_the_lit_pixels
              (set_screen_data one_pixel init) true screen_ok_one_pixel)
    as (drawn & Hrun & Hin & Hlit).
  exists drawn. split; [exact Hrun|]. split; [exact Hin|].
  split; [exact Hlit|]. split.
  - exists 1. split; [reflexivity|lia].
  - revert Hrun. vm_compute. intros [= <-]. reflexivity.
Defined.

(** X22: what [refresh_screen] paints, and that the two renderers agree.
    On a 64 x 128 bitmap the callback paints a point black exactly when it
    lies in the 640 x 448 image and the bitmap pixel at (X div 5, Y div 7)
    is lit, which is exactly where [export_screen] draws a rectangle over
    it. *)
Theorem refresh_screen_paints_the_lit_pixels
  (comm : QuanshengComm) :
  screen_ok (screen_data comm) ->
  exists painted drawn,
    RadioWindow.refresh_screen comm = Some painted /\
    export_screen comm true = (true, Some drawn) /\
    (forall X Y,
       (X, Y) ∈ painted <->
       0 <= X < 128 * PIXEL_WIDTH /\ 0 <= Y < 64 * PIXEL_HEIGHT /\
       lit (screen_data comm) (X / PIXEL_WIDTH) (Y / PIXEL_HEIGHT)) /\
    (forall X Y, (X, Y) ∈ painted <-> Exists (inside X Y) drawn).
Proof.
  intros Hok.
  destruct (scan_bitmap_spec RadioWindow.fill_pixel (screen_data comm) Hok)
    as (painted & Hrun & Hpainted).
  destruct (scan_bitmap_spec export_rect (screen_data comm) Hok)
    as (drawn & Hrun' & Hdrawn).
  exists painted, drawn.
  split; [unfold RadioWindow.refresh_screen; rewrite Hrun; reflexivity|].
  split; [unfold export_screen; rewrite Hrun'; reflexivity|].
  assert (Hp : forall X Y,
            (X, Y) ∈ painted <->
            0 <= X / 5 < 128 /\ 0 <= Y / 7 < 64 /\
            lit (screen_data comm) (X / 5) (Y / 7)).
  { intros X Y. rewrite Hpainted. split.
    - intros (x & y & Hx & Hy & Hl & Hin).
      apply fill_pixel_elem in Hin. destruct Hin as [-> ->]. auto.
    - intros (Hx & Hy & Hl). exists (X / 5), (Y / 7).
      split; [exact Hx|]. split; [exact Hy|]. split; [exact Hl|].
      apply fill_pixel_elem. auto. }
  assert (Hd : forall X Y,
            Exists (inside X Y) drawn <->
            0 <= X / 5 < 128 /\ 0 <= Y / 7 < 64 /\
            lit (screen_data comm) (X / 5) (Y / 7)).
  { intros X Y. rewrite Exists_exists. split.
    - intros (r & Hr & Hin). apply Hdrawn in Hr.
      destruct Hr as (x & y & Hx & Hy & Hl & Hr).
      apply (inside_export_rect X Y x y r Hr) in Hin.
      destruct Hin as [<- <-]. auto.
    - intros (Hx & Hy & Hl).
      exists (mkRect (X / 5 * 5) (Y / 7 * 7) (X / 5 * 5 + 5 - 1)
                     (Y / 7 * 7 + 7 - 1)).
      assert (Hr : mkRect (X / 5 * 5) (Y / 7 * 7) (X / 5 * 5 + 5 - 1)
                          (Y / 7 * 7 + 7 - 1) ∈ export_rect (X / 5) (Y / 7))
        by (apply list_elem_of_singleton; reflexivity).
      split.
      + apply Hdrawn. exists (X / 5), (Y / 7). auto.
      + apply (inside_export_rect X Y _ _ _ Hr). auto. }
  split.
  - intros X Y. rewrite Hp. unfold PIXEL_WIDTH, PIXEL_HEIGHT.
    pose proof (Z.div_mod X 5 ltac:(lia)).
    pose proof (Z.mod_pos_bound X 5 ltac:(lia)).
    pose proof (Z.div_mod Y 7 ltac:(lia)).
    pose proof (Z.mod_pos_bound Y 7 ltac:(lia)).
    split; intros (H3 & H4 & H5); (split; [lia|]; split; [lia|exact H5]).
  - intros X Y. rewrite Hp, Hd. reflexivity.
Qed.

Lemma refresh_screen_paints_the_lit_pixels_witness :
  let comm := set_screen_data one_pixel init in
  exists painted drawn,
    RadioWindow.refresh_screen comm = Some painted /\
    export_screen comm true = (true, Some drawn) /\
    (forall X Y,
       (X, Y) ∈ painted <->
       0 <= X < 128 * PIXEL_WIDTH /\ 0 <= Y < 64 * PIXEL_HEIGHT /\
       lit (screen_data comm) (X / PIXEL_WIDTH) (Y / PIXEL_HEIGHT)) /\
    (forall X Y, (X, Y) ∈ painted <-> Exists (inside X Y) drawn) /\
    (17, 16) ∈ painted /\
    length painted = 35%nat /\
    drawn = [mkRect 15 14 19 20].
Proof.
  cbv zeta.
  destruct (refresh_screen_paints_the_lit_pixels
              (set_screen_data one_pixel init) screen_ok_one_pixel)
    as (painted & drawn & Hrun & Hrun' & Hp & Hd).
  exists painted, drawn. split; [exact Hrun|]. split; [exact Hrun'|].
  split; [exact Hp|]. split; [exact Hd|]. split; [|split].
  - apply Hp. unfold PIXEL_WIDTH, PIXEL_HEIGHT.
    split; [lia|]. split; [lia|].
    exists 1. split; [reflexivity|lia].
  - revert Hrun. vm_compute. intros [= <-]. reflexivity.
  - revert Hrun'. vm_compute. intros [= <-]. reflexivity.
Defined.

(** ** Nothing is carried over from one frame to the next *)

Lemma parse_packet_pair (a b : QuanshengComm) (buf : list Z) :
  screen_data a = screen_data b ->
  on_screen_update a = on_screen_update b ->
  exists scr evs e,
    parse_packet a buf =
      (mkComm (transport a) (stage a) (data a) (p_len a) (p_cnt a)
              scr (on_screen_update a) (calls a ++ evs), e) /\
    parse_packet b buf =
      (mkComm (transport b) (stage b) (data b) (p_len b) (p_cnt b)
              scr (on_screen_update b) (calls b ++ evs), e).
Proof.
  destruct a as [ta sa da la ka scr cb csa], b as [tb sb db lb kb scr' cb' csb].
  cbn [screen_data on_screen_update]. intros <- <-.
  unfold parse_packet, parse_screen.
  cbn [record_call set_screen_data transport stage data p_len p_cnt
       screen_data on_screen_update calls].
  destruct (Z.of_nat (length buf) <? 2);
    [do 3 eexists; split; reflexivity|].
  destruct (getitem buf 0) as [d0|e0]; cbn [mbind result_bind];
    [|do 3 eexists; split; reflexivity].
  destruct (getitem buf 1) as [d1|e1]; cbn [mbind result_bind];
    [|do 3 eexists; split; reflexivity].
  destruct (Z.lor d0 (Z.shiftl d1 8) =? Packet.GetScreen);
    [|do 3 eexists; split; reflexivity].
  destruct (getitem buf 2) as [d2|e2]; cbn [mbind result_bind];
    [|do 3 eexists; split; reflexivity].
  destruct (getitem buf 3) as [d3|e3]; cbn [mbind result_bind];
    [|do 3 eexists; split; reflexivity].
  destruct (getitem buf 4) as [d4|e4]; cbn [mbind result_bind];
    [|do 3 eexists; split; reflexivity].
  destruct (negb _); [do 3 eexists; split; reflexivity|].
  destruct (plot_triplets _ _ _) as [scr2 [e|]].
  - destruct (d4 =? 0);
      cbn [set_screen_data transport stage data p_len p_cnt
           screen_data on_screen_update calls];
      do 3 eexists; split; reflexivity.
  - cbn [set_screen_data record_call transport stage data p_len p_cnt
         screen_data on_screen_update calls].
    destruct cb; unfold record_call, set_screen_data;
      cbn [transport stage data p_len p_cnt screen_data on_screen_update
           calls];
      rewrite <- ?app_assoc; do 3 eexists; split; reflexivity.
Qed.

Lemma process_byte_same_view (a b : QuanshengComm) (byte : Z) :
  same_view a b ->
  exists evs,
    (process_byte a byte).2 = (process_byte b byte).2 /\
    same_view (process_byte a byte).1 (process_byte b byte).1 /\
    calls (process_byte a byte).1 = calls a ++ evs /\
    calls (process_byte b byte).1 = calls b ++ evs.
Proof.
  intros (Hst & Hscr & Hcb & Hrest). unfold process_byte.
  rewrite <- Hst. destruct (stage a) eqn:Ha.
  - exists []. rewrite !app_nil_r.
    destruct (byte =? 0xAB); [|destruct (byte =? 0xB5)];
      cbn [fst snd set_stage calls]; unfold same_view;
      cbn [set_stage stage screen_data on_screen_update];
      rewrite <- ?Hst, ?Ha; auto 10.
  - exists []. rewrite !app_nil_r.
    destruct (byte =? 0xCD);
      cbn [fst snd set_stage calls]; unfold same_view;
      cbn [set_stage stage screen_data on_screen_update]; auto 10.
  - exists []. rewrite !app_nil_r.
    cbn [fst snd set_stage set_p_len calls]; unfold same_view;
      cbn [set_stage set_p_len stage screen_data on_screen_update p_len];
      auto 10.
  - exists []. rewrite !app_nil_r.
    cbn [fst snd set_stage set_p_len set_data set_p_cnt calls].
    unfold same_view.
    cbn [set_stage set_p_len set_data set_p_cnt stage screen_data
         on_screen_update p_len p_cnt data].
    rewrite Hrest. auto 10.
  - destruct Hrest as (Hd & Hl & Hk).
    exists []. rewrite !app_nil_r. cbv zeta.
    cbn [set_data set_p_cnt p_len p_cnt data].
    rewrite <- Hd, <- Hl, <- Hk.
    destruct (is_byteb (crypt byte (p_cnt a))).
    + destruct (p_len a <=? p_cnt a + 1);
        cbn [fst snd set_stage set_data set_p_cnt calls]; unfold same_view;
        cbn [set_stage set_data set_p_cnt stage screen_data on_screen_update
             p_len p_cnt data];
        rewrite <- ?Hst, ?Ha; auto 10.
    + cbn [fst snd]. unfold same_view. rewrite <- Hst, Ha. auto 10.
  - exists []. rewrite !app_nil_r.
    cbn [fst snd set_stage calls]. unfold same_view.
    cbn [set_stage stage screen_data on_screen_update p_len p_cnt data].
    auto 10.
  - exists []. rewrite !app_nil_r.
    cbn [fst snd set_stage calls]. unfold same_view.
    cbn [set_stage stage screen_data on_screen_update p_len p_cnt data].
    auto 10.
  - exists []. rewrite !app_nil_r.
    destruct (byte =? 0xDC);
      cbn [fst snd set_stage calls]; unfold same_view;
      cbn [set_stage stage screen_data on_screen_update p_len p_cnt data];
      auto 10.
  - destruct Hrest as (Hd & Hl & Hk).
    destruct (byte =? 0xBA).
    + change (data (set_stage Idle a)) with (data a).
      change (data (set_stage Idle b)) with (data b). rewrite <- Hd.
      destruct (parse_packet_pair (set_stage Idle a) (set_stage Idle b)
                  (data a) Hscr Hcb) as (scr & evs & e & -> & ->).
      exists evs. cbn [fst snd calls set_stage]. unfold same_view.
      cbn [stage screen_data on_screen_update set_stage]. auto 10.
    + exists []. rewrite !app_nil_r.
      cbn [fst snd set_stage calls]. unfold same_view.
      cbn [set_stage stage screen_data on_screen_update]. auto 10.
  - exists []. rewrite !app_nil_r. cbn [fst snd]. unfold same_view.
    rewrite <- Hst, Ha. auto 10.
Qed.

Lemma data_received_same_view (bytes : list Z) :
  forall a b,
    same_view a b ->
    exists evs,
      (data_received a bytes).2 = (data_received b bytes).2 /\
      same_view (data_received a bytes).1 (data_received b bytes).1 /\
      calls (data_received a bytes).1 = calls a ++ evs /\
      calls (data_received b bytes).1 = calls b ++ evs.
Proof.
  induction bytes as [|x bytes IH]; intros a b Hab.
  - exists []. rewrite !app_nil_r. auto.
  - cbn [data_received].
    destruct (process_byte_same_view a b x Hab) as (ev1 & He & Hv & Hca & Hcb).
    destruct (process_byte a x) as [a' ea], (process_byte b x) as [b' eb].
    cbn [fst snd] in He, Hv, Hca, Hcb. subst eb.
    destruct ea as [e|]; [exists ev1; auto|].
    destruct (IH a' b' Hv) as (ev2 & He2 & Hv2 & Hca2 & Hcb2).
    exists (ev1 ++ ev2). rewrite Hca2, Hcb2, Hca, Hcb, <- !app_assoc. auto.
Qed.

(** X23: nothing left over from earlier traffic shows in later frames.
    Two objects in the Idle stage with the same bitmap and callback, however
    their buffers and counters differ, react to any input in the same way:
    the same exception or none, the same calls of [parse_packet] and of the
    callback with the same buffers, the same bitmap and the same stage. *)
Theorem leftover_state_never_leaks
  (a b : QuanshengComm) (bytes : list Z) :
  stage a = Idle -> stage b = Idle ->
  screen_data a = screen_data b ->
  on_screen_update a = on_screen_update b ->
  exists evs,
    (data_received a bytes).2 = (data_received b bytes).2 /\
    calls (data_received a bytes).1 = calls a ++ evs /\
    calls (data_received b bytes).1 = calls b ++ evs /\
    screen_data (data_received a bytes).1 =
      screen_data (data_received b bytes).1 /\
    stage (data_received a bytes).1 = stage (data_received b bytes).1.
Proof.
  intros Ha Hb Hscr Hcb.
  assert (Hab : same_view a b).
  { unfold same_view. rewrite Ha, Hb. auto. }
  destruct (data_received_same_view bytes a b Hab)
    as (evs & He & (Hst & Hs & _) & Hca & Hcb').
  exists evs. auto 10.
Qed.

Lemma leftover_state_never_leaks_witness :
  let b := mkComm false Idle [9; 9; 9] 700 3 zeros false
                  [CallParsePacket [9; 9; 9]] in
  let bytes := [0xAB; 0xCD; 1; 0; 0x40; 0; 0; 0xDC; 0xBA] in
  exists evs,
    (data_received init bytes).2 = (data_received b bytes).2 /\
    calls (data_received init bytes).1 = calls init ++ evs /\
    calls (data_received b bytes).1 = calls b ++ evs /\
    screen_data (data_received init bytes).1 =
      screen_data (data_received b bytes).1 /\
    stage (data_received init bytes).1 = stage (data_received b bytes).1.
Proof.
  apply (leftover_state_never_leaks init
           (mkComm false Idle [9; 9; 9] 700 3 zeros false
                   [CallParsePacket [9; 9; 9]])
           [0xAB; 0xCD; 1; 0; 0x40; 0; 0; 0xDC; 0xBA]);
    reflexivity.
Defined.

(** ** Hanging, and frames back to back *)

Lemma process_byte_enters_ui_type (self : QuanshengComm) (byte : Z) :
  stage self <> UiType -> byte <> 0xB5 ->
  stage (process_byte self byte).1 <> UiType.
Proof.
  intros Hst Hb. unfold process_byte.
  destruct (stage self) eqn:Hs;
    repeat match goal with
           | |- context [if ?c then _ else _] => destruct c eqn:?
           end;
    cbn [fst set_stage set_data set_p_cnt set_p_len stage];
    rewrite ?Hs; try discriminate; try lia.
  - change (data (set_stage Idle self)) with (data self).
    destruct (parse_packet (set_stage Idle self) (data self)) as [s e] eqn:Hpp.
    apply parse_packet_calls in Hpp. destruct Hpp as [Hst' _].
    cbn [fst]. rewrite Hst'. discriminate.
  - contradiction.
Qed.

(** X24: the only way into the stage that never ends.  As long as no byte
    0xB5 arrives, a parser that is not in UiType does not get there, from
    whatever stage and whatever else is fed: a byte 0xB5 in the Idle stage
    is the one input that can stop the parser for good. *)
Theorem only_b5_leads_to_ui_type (s : QuanshengComm) (bytes : list Z) :
  stage s <> UiType ->
  Forall (fun b => b <> 0xB5) bytes ->
  stage (data_received s bytes).1 <> UiType.
Proof.
  intros Hs Hb. revert s Hs.
  induction Hb as [|b bytes Hb1 _ IH]; intros s Hs; [exact Hs|].
  cbn [data_received].
  pose proof (process_byte_enters_ui_type s b Hs Hb1) as Hstep.
  destruct (process_byte s b) as [s' [e|]]; [exact Hstep|].
  apply IH, Hstep.
Qed.

Lemma only_b5_leads_to_ui_type_witness :
  stage (data_received init [0xAB; 0xCD; 2; 0; 0xB4; 0xB6; 1; 2; 0xDC; 0xBA]).1
  <> UiType.
Proof.
  apply (only_b5_leads_to_ui_type init
           [0xAB; 0xCD; 2; 0; 0xB4; 0xB6; 1; 2; 0xDC; 0xBA]).
  - discriminate.
  - repeat constructor; lia.
Defined.






(** ** After a format error, and triplets that are thrown away *)

Lemma process_bytes_same_view (bytes : list Z) :
  forall a b,
    same_view a b ->
    exists evs,
      (process_bytes a bytes).2 = (process_bytes b bytes).2 /\
      same_view (process_bytes a bytes).1 (process_bytes b bytes).1 /\
      calls (process_bytes a bytes).1 = calls a ++ evs /\
      calls (process_bytes b bytes).1 = calls b ++ evs.
Proof.
  induction bytes as [|x bytes IH]; intros a b Hab.
  - exists []. rewrite !app_nil_r. auto.
  - cbn [process_bytes].
    destruct (process_byte_same_view a b x Hab) as (ev1 & He & Hv & Hca & Hcb).
    destruct (process_byte a x) as [a' ea], (process_byte b x) as [b' eb].
    cbn [fst snd] in He, Hv, Hca, Hcb. subst eb.
    destruct (IH a' b' Hv) as (ev2 & He2 & Hv2 & Hca2 & Hcb2).
    destruct (process_bytes a' bytes) as [a2 eas],
             (process_bytes b' bytes) as [b2 ebs].
    cbn [fst snd] in He2, Hv2, Hca2, Hcb2 |- *. subst ebs.
    exists (ev1 ++ ev2). rewrite Hca2, Hcb2, Hca, Hcb, <- !app_assoc. auto.
Qed.

(** As long as no call raises, [data_received] is [process_bytes]. *)
Lemma data_received_process_bytes (bytes : list Z) :
  forall s,
    Forall (fun e => e = None) (process_bytes s bytes).2 ->
    data_received s bytes = ((process_bytes s bytes).1, None).
Proof.
  induction bytes as [|x bytes IH]; intros s; [reflexivity|].
  cbn [process_bytes data_received].
  destruct (process_byte s x) as [s1 e1].
  specialize (IH s1). destruct (process_bytes s1 bytes) as [s2 es].
  cbn [fst snd] in IH |- *. intros Hall.
  inversion Hall as [|? ? -> Hrest]; subst. apply IH, Hrest.
Qed.

(** Two objects in the Idle stage with the same bitmap and callback react
    alike to every stream, fed byte by byte or as one chunk. *)
Lemma idle_objects_react_alike (a b : QuanshengComm) (bytes : list Z) :
  stage a = Idle -> stage b = Idle ->
  screen_data a = screen_data b ->
  on_screen_update a = on_screen_update b ->
  (exists evs,
     (process_bytes a bytes).2 = (process_bytes b bytes).2 /\
     calls (process_bytes a bytes).1 = calls a ++ evs /\
     calls (process_bytes b bytes).1 = calls b ++ evs /\
     screen_data (process_bytes a bytes).1 =
       screen_data (process_bytes b bytes).1 /\
     stage (process_bytes a bytes).1 = stage (process_bytes b bytes).1) /\
  (exists evs,
     (data_received a bytes).2 = (data_received b bytes).2 /\
     calls (data_received a bytes).1 = calls a ++ evs /\
     calls (data_received b bytes).1 = calls b ++ evs /\
     screen_data (data_received a bytes).1 =
       screen_data (data_received b bytes).1 /\
     stage (data_received a bytes).1 = stage (data_received b bytes).1).
Proof.
  intros Ha Hb Hscr Hcb.
  assert (Hab : same_view a b).
  { unfold same_view. rewrite Ha, Hb. auto. }
  split.
  - destruct (process_bytes_same_view bytes a b Hab)
      as (evs & He & (Hst & Hs & _) & Hca & Hcb').
    exists evs. auto 10.
  - destruct (data_received_same_view bytes a b Hab)
      as (evs & He & (Hst & Hs & _) & Hca & Hcb').
    exists evs. auto 10.
Qed.

Lemma frame_handed_over (s : QuanshengComm) (cmd : Z) (params : list Z) :
  stage s = Idle ->
  Forall is_byte params ->
  4 + Z.of_nat (length params) <= 0xFFFF ->
  stage (data_received s (frame_of cmd params)).1 = Idle /\
  packets (calls (data_received s (frame_of cmd params)).1) =
    packets (calls s) ++ [plain_body cmd params].
Proof.
  intros Hs Hb Hn.
  destruct (data_received s (frame_of cmd params)) as [s' e] eqn:Hrun.
  rewrite (frame_decoded s cmd params Hs Hb Hn) in Hrun.
  apply parse_packet_calls in Hrun. exact Hrun.
Qed.

Lemma bad_screen_frame_raises (self : QuanshengComm)
  (o1 o2 diff : Z) (payload : list Z) :
  stage self = BA ->
  data self = 0x03 :: 0x08 :: o1 :: o2 :: diff :: payload ->
  Z.of_nat (length payload) mod 3 <> 0 ->
  process_byte self 0xBA =
    (record_call (CallParsePacket (data self)) (set_stage Idle self),
     Some ValueError).
Proof.
  intros Hst Hd Hm. unfold process_byte. rewrite Hst.
  change (0xBA =? 0xBA) with true. cbv iota.
  change (data (set_stage Idle self)) with (data self).
  rewrite (parse_packet_get_screen (set_stage Idle self) (data self) 0x03 0x08)
    by (rewrite ?Hd; reflexivity).
  cbv zeta.
  assert (H2 : getitem (data self) 2 = Ok o1)
    by (apply (getitem_lookup _ 2); rewrite Hd; reflexivity).
  assert (H3 : getitem (data self) 3 = Ok o2)
    by (apply (getitem_lookup _ 3); rewrite Hd; reflexivity).
  assert (H4 : getitem (data self) 4 = Ok diff)
    by (apply (getitem_lookup _ 4); rewrite Hd; reflexivity).
  assert (H5 : slice_from 5 (data self) = payload)
    by (rewrite Hd; reflexivity).
  rewrite H2, H3, H4, H5. cbn [mbind result_bind].
  rewrite parse_screen_bad_length by exact Hm. reflexivity.
Qed.

(** C5: on a payload of bytes (and, for an incremental update, a bitmap of
    the right shape) [parse_screen] raises [ValueError] exactly when the
    payload length is not a multiple of 3, it raises nothing else, and the
    object is then as it was before the call, bitmap included.  A completed
    GetScreen frame with such a payload makes [process_byte] raise on its
    last byte; whenever [process_byte] raises [ValueError] at the end of a
    frame, the stage is already Idle and the bitmap and the callback are
    those from before, and from there on every stream of bytes is treated
    as an object in the Idle stage with that bitmap treats it: byte by byte
    the same exceptions, the same calls of [parse_packet] and of the
    callback, the same bitmap and stage, and a well-formed frame is handed
    to [parse_packet].  The same holds for the chunks given to
    [data_received] afterwards; what was left of the chunk the bad frame
    came in is not looked at, since the exception ends the loop of
    [data_received]. *)
Theorem parse_screen_format_error
  (self : QuanshengComm) (payload : list Z) (diff : Z) :
  Forall is_byte payload ->
  diff = 0 \/ screen_ok (screen_data self) ->
  ((exists s, parse_screen self payload diff = (s, Raise ValueError)) <->
   Z.of_nat (length payload) mod 3 <> 0) /\
  (forall s e, parse_screen self payload diff = (s, Raise e) ->
               e = ValueError /\ s = self /\
               screen_data s = screen_data self) /\
  (forall o1 o2,
     stage self = BA ->
     data self = 0x03 :: 0x08 :: o1 :: o2 :: diff :: payload ->
     Z.of_nat (length payload) mod 3 <> 0 ->
     process_byte self 0xBA =
       (record_call (CallParsePacket (data self)) (set_stage Idle self),
        Some ValueError)) /\
  (forall byte s,
     stage self = BA ->
     process_byte self byte = (s, Some ValueError) ->
     stage s = Idle /\ screen_data s = screen_data self /\
     on_screen_update s = on_screen_update self /\
     process_byte s 0xAB = (set_stage CD s, None) /\
     (forall fresh following,
        stage fresh = Idle ->
        screen_data fresh = screen_data self ->
        on_screen_update fresh = on_screen_update self ->
        (exists evs,
           (process_bytes s following).2 =
             (process_bytes fresh following).2 /\
           calls (process_bytes s following).1 = calls s ++ evs /\
           calls (process_bytes fresh following).1 = calls fresh ++ evs /\
           screen_data (process_bytes s following).1 =
             screen_data (process_bytes fresh following).1 /\
           stage (process_bytes s following).1 =
             stage (process_bytes fresh following).1) /\
        (exists evs,
           (data_received s following).2 =
             (data_received fresh following).2 /\
           calls (data_received s following).1 = calls s ++ evs /\
           calls (data_received fresh following).1 = calls fresh ++ evs /\
           screen_data (data_received s following).1 =
             screen_data (data_received fresh following).1 /\
           stage (data_received s following).1 =
             stage (data_received fresh following).1)) /\
     (forall cmd params,
        Forall is_byte params ->
        4 + Z.of_nat (length params) <= 0xFFFF ->
        stage (data_received s (frame_of cmd params)).1 = Idle /\
        packets (calls (data_received s (frame_of cmd params)).1) =
          packets (calls s) ++ [plain_body cmd params])).
Proof.
  intros Hb Hpre.
  assert (Hbad : Z.of_nat (length payload) mod 3 <> 0 ->
                 parse_screen self payload diff = (self, Raise ValueError)).
  { intros Hm. apply parse_screen_bad_length, Hm. }
  split; [|split; [|split]].
  - split.
    + intros [s Hs]. apply parse_screen_value_error in Hs. tauto.
    + intros Hm. exists self. apply Hbad, Hm.
  - intros s e Hs.
    destruct (Z.eq_dec (Z.of_nat (length payload) mod 3) 0) as [Hm|Hm].
    + destruct (parse_screen_returns self payload diff Hb Hm Hpre)
        as (scr & Hret & _). congruence.
    + rewrite (Hbad Hm) in Hs. injection Hs as <- <-. auto.
  - intros o1 o2. apply bad_screen_frame_raises.
  - intros byte s Hstage. unfold process_byte at 1. rewrite Hstage.
    destruct (byte =? 0xBA); [|congruence].
    intros Hpp. apply parse_packet_value_error in Hpp. subst s.
    split; [reflexivity|]. split; [reflexivity|]. split; [reflexivity|].
    split; [reflexivity|]. split.
    + intros fresh following Hf Hscr Hcb.
      apply idle_objects_react_alike; auto.
    + intros cmd params Hp Hn. apply frame_handed_over; auto.
Qed.

Lemma parse_screen_format_error_witness :
  let buf := [0x03; 0x08; 0; 0; 1; 1; 2] in
  let self := mkComm false BA buf 7 7 one_pixel false [] in
  let s := mkComm false Idle buf 7 7 one_pixel false [CallParsePacket buf] in
  let fresh := set_screen_data one_pixel init in
  let following := frame_of Packet.GetScreen [1; 0xFF; 0; 0] in
  parse_screen self [1; 2] 1 = (self, Raise ValueError) /\
  process_byte self 0xBA = (s, Some ValueError) /\
  stage s = Idle /\ screen_data s = one_pixel /\
  (exists evs,
     (process_bytes s following).2 = (process_bytes fresh following).2 /\
     calls (process_bytes s following).1 = calls s ++ evs /\
     calls (process_bytes fresh following).1 = calls fresh ++ evs /\
     screen_data (process_bytes s following).1 =
       screen_data (process_bytes fresh following).1 /\
     stage (process_bytes s following).1 =
       stage (process_bytes fresh following).1) /\
  stage (data_received s following).1 = Idle /\
  packets (calls (data_received s following).1) =
    packets (calls s) ++ [plain_body Packet.GetScreen [1; 0xFF; 0; 0]].
Proof.
  cbv zeta.
  destruct (parse_screen_format_error
              (mkComm false BA [0x03; 0x08; 0; 0; 1; 1; 2] 7 7 one_pixel
                      false [])
              [1; 2] 1) as (Hiff & Hsame & Hraise & Hafter).
  - repeat constructor; unfold is_byte; lia.
  - right. apply screen_ok_one_pixel.
  - destruct (proj2 Hiff) as [s0 Hs0]; [discriminate|].
    destruct (Hsame s0 ValueError Hs0) as (_ & -> & _).
    specialize (Hraise 0 0 eq_refl eq_refl).
    assert (Hpb := Hraise ltac:(discriminate)).
    destruct (Hafter 0xBA _ eq_refl Hpb)
      as (Hst & Hscr & _ & _ & Halike & Hframe).
    split; [exact Hs0|]. split; [exact Hpb|].
    split; [exact Hst|]. split; [exact Hscr|].
    split.
    + exact (proj1 (Halike (set_screen_data one_pixel init)
                      (frame_of Packet.GetScreen [1; 0xFF; 0; 0])
                      eq_refl eq_refl eq_refl)).
    + apply (Hframe Packet.GetScreen [1; 0xFF; 0; 0]).
      * repeat constructor; unfold is_byte; lia.
      * simpl. lia.
Defined.

(** The rest of a chunk is lost with the bad frame: a well-formed frame
    that comes in the same chunk, behind a frame whose screen payload has
    two bytes, never reaches [parse_packet]; given as the next chunk, it
    does. *)
Example frame_behind_a_format_error :
  let bad := frame_of Packet.GetScreen [0; 1; 2] in
  let good := frame_of Packet.KeyPress [19] in
  let after_both := data_received init (bad ++ good) in
  let after_bad := data_received init bad in
  after_both = after_bad /\
  after_bad.2 = Some ValueError /\
  packets (calls after_bad.1) = [plain_body Packet.GetScreen [0; 1; 2]] /\
  packets (calls (data_received after_bad.1 good).1) =
    [plain_body Packet.GetScreen [0; 1; 2]; plain_body Packet.KeyPress [19]].
Proof. vm_compute. auto. Qed.

Lemma mod3_add (a b : Z) :
  a mod 3 = 0 -> b mod 3 = 0 -> (a + b) mod 3 = 0.
Proof.
  intros Ha Hb. rewrite Z.add_mod, Ha, Hb by lia. reflexivity.
Qed.

(** The loop of [parse_screen] over [d1 ++ d2] is the loop over [d1]
    followed by the loop over [d2]. *)
Lemma plot_triplets_concat (d1 d2 : list Z) (screen : Screen) :
  Z.of_nat (length d1) mod 3 = 0 ->
  Z.of_nat (length d2) mod 3 = 0 ->
  plot_triplets (d1 ++ d2) (range_step3 (length (d1 ++ d2))) screen =
  match plot_triplets d1 (range_step3 (length d1)) screen with
  | (s1, None) => plot_triplets d2 (range_step3 (length d2)) s1
  | (s1, Some e) => (s1, Some e)
  end.
Proof.
  intros Hm1 Hm2.
  rewrite length_app, (range_step3_app _ _ Hm1), plot_triplets_app.
  rewrite (plot_triplets_left d1 d2 _ (range_step3_triplets d1 Hm1)).
  destruct (plot_triplets d1 _ screen) as [s1 [e|]]; [reflexivity|].
  apply (plot_triplets_right d1 d2 _ (range_step3_triplets d2 Hm2)).
Qed.

Lemma discarded_triplet_run (pixels col r : Z) (screen : Screen) :
  128 <= col \/ 64 <= r * 8 ->
  plot_triplets [pixels; col; r] (range_step3 (length [pixels; col; r]))
                screen = (screen, None).
Proof.
  intros Hout. change (range_step3 (length [pixels; col; r])) with [0].
  cbn [plot_triplets].
  rewrite (plot_triplet_discard [pixels; col; r] 0 screen col r);
    [reflexivity| |reflexivity|reflexivity|exact Hout].
  unfold triplet_at. cbn [length]. lia.
Qed.

Lemma parse_screen_run (self : QuanshengComm) (data : list Z) (diff : Z) :
  Z.of_nat (length data) mod 3 = 0 ->
  parse_screen self data diff =
  match plot_triplets data (range_step3 (length data))
          (if diff =? 0 then zeros else screen_data self) with
  | (screen', Some e) =>
      (if diff =? 0 then self else set_screen_data screen' self, Raise e)
  | (screen', None) => (set_screen_data screen' self, Ok screen')
  end.
Proof. intros Hm. unfold parse_screen. rewrite Hm. reflexivity. Qed.

(** An out-of-range triplet anywhere in the payload: the call gives what
    it gives without it. *)
Lemma parse_screen_skips_discarded
  (self : QuanshengComm) (pre post : list Z) (pixels col r diff : Z) :
  Z.of_nat (length pre) mod 3 = 0 ->
  Z.of_nat (length post) mod 3 = 0 ->
  128 <= col \/ 64 <= r * 8 ->
  parse_screen self (pre ++ [pixels; col; r] ++ post) diff =
  parse_screen self (pre ++ post) diff.
Proof.
  intros Hm1 Hm2 Hout.
  assert (Hm3 : Z.of_nat (length [pixels; col; r]) mod 3 = 0) by reflexivity.
  assert (Hm4 : Z.of_nat (length ([pixels; col; r] ++ post)) mod 3 = 0).
  { rewrite length_app, Nat2Z.inj_add. apply mod3_add; assumption. }
  rewrite !parse_screen_run
    by (rewrite length_app, Nat2Z.inj_add; apply mod3_add; assumption).
  rewrite (plot_triplets_concat pre _ _ Hm1 Hm4).
  rewrite (plot_triplets_concat pre post _ Hm1 Hm2).
  destruct (plot_triplets pre _ _) as [s1 [e|]]; [reflexivity|].
  rewrite (plot_triplets_concat [pixels; col; r] post s1 Hm3 Hm2).
  rewrite (discarded_triplet_run pixels col r s1 Hout). reflexivity.
Qed.

(** C6: the bitmap keeps its shape, and a triplet out of range is thrown
    away.  The bitmap starts as 64 rows of 128 zeros; every call of
    [parse_screen] on a payload of whole triplets returns and leaves 64
    rows of 128 values, each 0 or 1, in [screen_data], whatever the diff
    flag; on the empty payload the bitmap returned is the one the call
    started from (the blank one for a full update, the retained one for an
    incremental update).  A triplet whose column is 128 or more, or whose
    row group times 8 is 64 or more, leaves the array it is applied to
    untouched; inside a call of [parse_screen], the bitmap after such a
    triplet is the bitmap the triplets before it left, and the whole call
    gives what it gives without that triplet. *)
Theorem parse_screen_keeps_dimensions
  (self : QuanshengComm) (payload : list Z) (diff : Z) :
  Forall is_byte payload ->
  Z.of_nat (length payload) mod 3 = 0 ->
  diff = 0 \/ screen_ok (screen_data self) ->
  screen_ok (screen_data init) /\
  (exists scr,
     parse_screen self payload diff = (set_screen_data scr self, Ok scr) /\
     screen_ok scr) /\
  (forall i col r screen,
     i ∈ range_step3 (length payload) ->
     payload !! Z.to_nat (i + 1) = Some col ->
     payload !! Z.to_nat (i + 2) = Some r ->
     128 <= col \/ 64 <= r * 8 ->
     plot_triplet payload i screen = (screen, None)) /\
  parse_screen self [] diff =
    (set_screen_data (if diff =? 0 then zeros else screen_data self) self,
     Ok (if diff =? 0 then zeros else screen_data self)) /\
  (forall pre post pixels col r,
     payload = pre ++ [pixels; col; r] ++ post ->
     Z.of_nat (length pre) mod 3 = 0 ->
     128 <= col \/ 64 <= r * 8 ->
     exists before,
       screen_ok before /\
       parse_screen self pre diff = (set_screen_data before self, Ok before) /\
       parse_screen self (pre ++ [pixels; col; r]) diff =
         (set_screen_data before self, Ok before) /\
       parse_screen self payload diff = parse_screen self (pre ++ post) diff).
Proof.
  intros Hb Hmod Hpre. split; [apply screen_ok_zeros|]. split; [|split].
  - destruct (parse_screen_returns self payload diff Hb Hmod Hpre)
      as (scr & Hret & Hok & _).
    exists scr. auto.
  - intros i col r screen Hi Lc Lr Hout.
    apply (plot_triplet_discard payload i screen col r); try assumption.
    exact (proj1 (Forall_forall _ _) (range_step3_triplets payload Hmod) i Hi).
  - split; [reflexivity|].
    intros pre post pixels col r -> Hm1 Hout.
    apply Forall_app in Hb. destruct Hb as [Hb1 _].
    assert (Hm2 : Z.of_nat (length post) mod 3 = 0).
    { revert Hmod. rewrite !length_app, !Nat2Z.inj_add. cbn [length].
      revert Hm1. generalize (Z.of_nat (length pre)) (Z.of_nat (length post)).
      intros a b Ha Hab.
      replace b with ((a + (Z.of_nat 3 + b)) - a - 3) by lia.
      rewrite Zminus_mod, (Zminus_mod (a + (Z.of_nat 3 + b))), Hab, Ha.
      reflexivity. }
    destruct (parse_screen_returns self pre diff Hb1 Hm1 Hpre)
      as (before & Hret & Hok & _).
    exists before. split; [exact Hok|]. split; [exact Hret|]. split.
    + rewrite <- Hret, <- (app_nil_r (pre ++ [pixels; col; r])), <- app_assoc.
      rewrite (parse_screen_skips_discarded self pre [] pixels col r diff
                 Hm1 eq_refl Hout).
      rewrite app_nil_r. reflexivity.
    + apply parse_screen_skips_discarded; assumption.
Qed.

Lemma parse_screen_keeps_dimensions_witness :
  let self := set_screen_data one_pixel init in
  let drawn := <[0%nat := <[0%nat := 1]> (replicate 128 0)]> one_pixel in
  parse_screen self [1; 0; 0] 1 = (set_screen_data drawn self, Ok drawn) /\
  parse_screen self [1; 0; 0; 255; 200; 0; 1; 5; 9] 1 =
    (set_screen_data drawn self, Ok drawn) /\
  pixel drawn 2 3 = Some 1 /\
  screen_ok drawn.
Proof.
  cbv zeta.
  destruct (parse_screen_keeps_dimensions
              (set_screen_data one_pixel init)
              [1; 0; 0; 255; 200; 0; 1; 5; 9] 1)
    as (_ & (scr & Hret & Hok) & _ & _ & Hskip).
  - repeat constructor; unfold is_byte; lia.
  - reflexivity.
  - right. apply screen_ok_one_pixel.
  - destruct (Hskip [1; 0; 0] [1; 5; 9] 255 200 0 eq_refl eq_refl)
      as (before & Hokb & Hpre & Hmid & Hall); [left; lia|].
    destruct (Hskip [1; 0; 0; 255; 200; 0] [] 1 5 9 eq_refl eq_refl)
      as (before' & _ & Hpre' & Hmid' & _); [right; lia|].
    assert (Hd : before =
                 <[0%nat := <[0%nat := 1]> (replicate 128 0)]> one_pixel).
    { revert Hpre. vm_compute. intros [= <-]. reflexivity. }
    subst before.
    assert (Hd' : before' =
                  <[0%nat := <[0%nat := 1]> (replicate 128 0)]> one_pixel).
    { change ([1; 0; 0] ++ [255; 200; 0]) with [1; 0; 0; 255; 200; 0] in Hmid.
      rewrite Hmid in Hpre'. congruence. }
    subst before'.
    split; [exact Hpre|].
    split; [exact Hmid'|].
    split; [reflexivity|exact Hokb].
Defined.
